(** * DocParser-1b: document structure assembly and hybrid semantic matching

    A shallow embedding of [document-analyzer.js], [semantic-matcher.js],
    [ollama-handler.js] and the matching step of [main1B.js], followed by the
    properties of the specification that concern them.

    Modelling conventions.
    - JavaScript numbers are exact rationals ([Q]); IEEE rounding error, NaN
      and the infinities are outside the model.
    - JavaScript strings are [string]s, one [ascii] per code unit (code units
      0..255).
    - [undefined]/[null] are [None]; an empty string and the number 0 are
      falsy, as in the source.
    - [Array.prototype.sort] is the stable insertion sort [JS.sort]; for a
      consistent comparator ECMAScript fixes the result of a stable sort, so
      the choice of algorithm is immaterial there.
    - An [await]ed call that may reject returns a [Completion].
    - [fuzzyMatch] and [cosineSimilarity] come from [matching_utils.js], which
      is not part of the sources at hand: they are parameters. *)

From Stdlib Require Import ZArith QArith Qround Qabs List String Ascii Bool.
From Stdlib Require Import Lia Lqa Permutation Sorted Arith DecimalString.
Import ListNotations.

Set Implicit Arguments.

(* ================================================================== *)
(** * JavaScript primitives used by the sources *)
(* ================================================================== *)

Module JS.

(** ** Numbers *)

Definition ltb (a b : Q) : bool := negb (Qle_bool b a).
Definition leb (a b : Q) : bool := Qle_bool a b.
Definition geb (a b : Q) : bool := Qle_bool b a.
Definition gtb (a b : Q) : bool := negb (Qle_bool a b).

(** [ToBoolean] on a number: 0 is the only falsy rational. *)
Definition truthy (q : Q) : bool := negb (Qeq_bool q 0).

(** [v || d] where [v] is a possibly missing numeric option. *)
Definition or_default (v : option Q) (d : Q) : Q :=
  match v with
  | Some q => if truthy q then q else d
  | None => d
  end.

Definition math_min (a b : Q) : Q := if Qle_bool a b then a else b.
Definition math_max (a b : Q) : Q := if Qle_bool a b then b else a.

(** The integer nearest to [x], the larger one on a tie ([x >= 0]). *)
Definition round_half_up (x : Q) : Z := Qfloor (x + (1 # 2)).

(** [parseFloat(x.toFixed(3))]: [toFixed] treats the sign apart. *)
Definition toFixed3 (x : Q) : Q :=
  if ltb x 0
  then - (inject_Z (round_half_up ((- x) * 1000)) / 1000)
  else inject_Z (round_half_up (x * 1000)) / 1000.

(** [ToIntegerOrInfinity]: truncation toward zero. *)
Definition to_integer (q : Q) : Z := Z.quot (Qnum q) (Zpos (Qden q)).

(** ** Arrays *)

Section Arrays.
Variable A : Type.

(** Insertion of [x] before the first element it does not exceed. *)
Fixpoint insert (cmp : A -> A -> Q) (x : A) (l : list A) : list A :=
  match l with
  | [] => [x]
  | y :: l' =>
      if Qle_bool (cmp x y) 0 then x :: y :: l' else y :: insert cmp x l'
  end.

(** [l.sort(cmp)] *)
Definition sort (cmp : A -> A -> Q) (l : list A) : list A :=
  fold_right (insert cmp) [] l.

(** A relative index of [slice], clamped to the array. *)
Definition rel_index (len k : Z) : Z :=
  if (k <? 0)%Z then Z.max (len + k) 0 else Z.min k len.

(** [l.slice(s, e)] *)
Definition slice (l : list A) (s e : Q) : list A :=
  let len := Z.of_nat (List.length l) in
  let k := rel_index len (to_integer s) in
  let f := rel_index len (to_integer e) in
  firstn (Z.to_nat (f - k)) (skipn (Z.to_nat k) l).
End Arrays.

(** [l.indexOf(x)], counting from [i]: the first position holding [x], or -1. *)
Fixpoint indexOf_from (x : string) (l : list string) (i : Z) : Z :=
  match l with
  | [] => (-1)%Z
  | y :: l' => if String.eqb y x then i else indexOf_from x l' (i + 1)%Z
  end.

Definition indexOf (l : list string) (x : string) : Z := indexOf_from x l 0%Z.

(** ** Strings *)

Definition code (c : ascii) : nat := nat_of_ascii c.

(** [\s], and the characters [trim] removes. *)
Definition is_space (c : ascii) : bool :=
  let n := code c in
  ((9 <=? n) && (n <=? 13)) || (n =? 32) || (n =? 160).

Definition is_digit (c : ascii) : bool :=
  let n := code c in (48 <=? n) && (n <=? 57).

Definition is_upper (c : ascii) : bool :=
  let n := code c in (65 <=? n) && (n <=? 90).

Definition is_lower (c : ascii) : bool :=
  let n := code c in (97 <=? n) && (n <=? 122).

(** [\w] *)
Definition is_word (c : ascii) : bool :=
  is_upper c || is_lower c || is_digit c || (code c =? 95).

Definition is_empty (s : string) : bool :=
  match s with EmptyString => true | _ => false end.

(** [ToBoolean] on a string. *)
Definition truthy_str (s : string) : bool := negb (is_empty s).

Fixpoint trimStart (s : string) : string :=
  match s with
  | EmptyString => EmptyString
  | String c s' => if is_space c then trimStart s' else s
  end.

Fixpoint trimEnd (s : string) : string :=
  match s with
  | EmptyString => EmptyString
  | String c s' =>
      let r := trimEnd s' in
      if is_space c && is_empty r then EmptyString else String c r
  end.

Definition trim (s : string) : string := trimEnd (trimStart s).

Definition lower_char (c : ascii) : ascii :=
  let n := code c in
  if is_upper c then ascii_of_nat (n + 32)
  else if (192 <=? n) && (n <=? 222) && negb (n =? 215) then ascii_of_nat (n + 32)
  else c.

Fixpoint toLowerCase (s : string) : string :=
  match s with
  | EmptyString => EmptyString
  | String c s' => String (lower_char c) (toLowerCase s')
  end.

(** [s.replace(a, b)] for one-character strings [a] and [b]: the first
    occurrence only. *)
Fixpoint replace_char (a b : ascii) (s : string) : string :=
  match s with
  | EmptyString => EmptyString
  | String c s' =>
      if Ascii.eqb c a then String b s' else String c (replace_char a b s')
  end.

(** [s.substring(0, n)] for [0 <= n]. *)
Definition prefix (n : nat) (s : string) : string := String.substring 0 n s.

(** [s.startsWith(p)] *)
Fixpoint startsWith (p s : string) : bool :=
  match p, s with
  | EmptyString, _ => true
  | String a p', String b s' => Ascii.eqb a b && startsWith p' s'
  | String _ _, EmptyString => false
  end.

(** [s.includes(p)] *)
Fixpoint includes (p s : string) : bool :=
  startsWith p s
  || match s with
     | EmptyString => false
     | String _ s' => includes p s'
     end.

(** [s.split(sep)] for a separator of one character. *)
Fixpoint split (sep : ascii) (s : string) : list string :=
  match s with
  | EmptyString => [EmptyString]
  | String c s' =>
      if Ascii.eqb c sep then EmptyString :: split sep s'
      else match split sep s' with
           | [] => [String c EmptyString]
           | piece :: pieces => String c piece :: pieces
           end
  end.

(** [l.join(sep)] *)
Definition join (sep : string) (l : list string) : string := String.concat sep l.

(** The characters of a string. *)
Definition chars (s : string) : list ascii := list_ascii_of_string s.

(** [String(n)] for a natural number. *)
Definition of_nat (n : nat) : string := NilEmpty.string_of_uint (Nat.to_uint n).

End JS.

(** Results of awaited calls: a promise fulfils or rejects. *)
Inductive Completion (A : Type) : Type :=
| Normal (value : A)
| Throw (message : string).
Arguments Normal {A} value.
Arguments Throw {A} message.

(* ================================================================== *)
(** * ollama-handler.js *)
(* ================================================================== *)

Module Ollama.

Open Scope string_scope.

(** What one run of the external model process does to the promise of
    [_runOllamaCommand]: exit code 0 resolves it with the output; a non-zero
    exit code, a failure to start and the timeout reject it. *)
Inductive Outcome : Type :=
| Resolved (output : string)
| Rejected (message : string).

(** The external process, seen from one call of [executePrompt]: the outcome
    of the run made for a prompt, under a timeout, at a given attempt. *)
Definition Process : Type := string -> Q -> nat -> Outcome.

Record OllamaHandler : Type := {
  modelName : string;
  maxRetries : nat;
  timeoutMs : Q
}.

Definition constructor (name : option string) : OllamaHandler :=
  {| modelName := match name with
                  | Some n => n
                  | None => "gbenson/qwen2.5-0.5b-instruct"
                  end;
     maxRetries := 3;
     timeoutMs := 60000 |}.

(** The retry loop of [executePrompt], entered at [attempt] with [fuel]
    iterations left.  Leaving the loop without a [return] yields
    [undefined] ([Normal None]).  The message of the error thrown after the
    last attempt is abridged (the source puts the number of attempts in
    it); the waits between attempts leave no trace in the result. *)
Fixpoint attempt_loop (run : Process) (prompt : string) (timeout : Q)
    (maxR attempt fuel : nat) : Completion (option string) :=
  match fuel with
  | O => Normal None
  | S fuel' =>
      if (attempt <=? maxR)%nat then
        match run prompt timeout attempt with
        | Resolved out =>
            if JS.truthy_str out && JS.truthy_str (JS.trim out)
            then Normal (Some (JS.trim out))
            else if (attempt =? maxR)%nat
                 then Throw "Ollama failed: Empty response from Ollama"
                 else attempt_loop run prompt timeout maxR (S attempt) fuel'
        | Rejected msg =>
            if (attempt =? maxR)%nat
            then Throw ("Ollama failed: " ++ msg)
            else attempt_loop run prompt timeout maxR (S attempt) fuel'
        end
      else Normal None
  end.

(** [executePrompt(prompt, options)]; [optRetries] and [optTimeout] are the
    fields [maxRetries] and [timeoutMs] of [options]. *)
Definition executePrompt (h : OllamaHandler) (run : Process) (prompt : string)
    (optRetries : option nat) (optTimeout : option Q) : Completion (option string) :=
  let maxR := match optRetries with
              | Some 0%nat | None => maxRetries h
              | Some n => n
              end in
  let timeout := JS.or_default optTimeout (timeoutMs h) in
  attempt_loop run prompt timeout maxR 1 maxR.

(** *** The score in the reply: the first match of the pattern
    digits, optional dot, digits (at least one digit at the end). *)

Fixpoint take_digits (s : string) : string * string :=
  match s with
  | EmptyString => (EmptyString, EmptyString)
  | String c s' =>
      if JS.is_digit c
      then let (d, rest) := take_digits s' in (String c d, rest)
      else (EmptyString, s)
  end.

Definition is_dot (c : ascii) : bool := (JS.code c =? 46)%nat.

(** The integer and fraction digits of the leftmost match, if any. *)
Fixpoint first_number (s : string) : option (string * string) :=
  match s with
  | EmptyString => None
  | String c s' =>
      if JS.is_digit c then
        let (d1, rest) := take_digits s' in
        match rest with
        | String c' rest' =>
            if is_dot c'
            then Some (String c d1, fst (take_digits rest'))
            else Some (String c d1, EmptyString)
        | EmptyString => Some (String c d1, EmptyString)
        end
      else if is_dot c then
        match fst (take_digits s') with
        | EmptyString => first_number s'
        | d2 => Some (EmptyString, d2)
        end
      else first_number s'
  end.

Fixpoint digits_value (acc : Z) (s : string) : Z :=
  match s with
  | EmptyString => acc
  | String c s' => digits_value (acc * 10 + (Z.of_nat (JS.code c) - 48))%Z s'
  end.

(** [parseFloat] of the matched text. *)
Definition decimal_value (ip fp : string) : Q :=
  inject_Z (digits_value 0 ip)
  + inject_Z (digits_value 0 fp) / inject_Z (10 ^ Z.of_nat (String.length fp)).

(** [parseFloat(response.match(pattern)?.[0] || 0)] *)
Definition parse_score (response : string) : Q :=
  match first_number response with
  | Some (ip, fp) => decimal_value ip fp
  | None => 0
  end.

Definition dquote : string := String (ascii_of_nat 34) EmptyString.

Definition relevance_prompt (topic text : string) : string :=
  "Analyze how relevant the following text content is to the given topic. Rate the relevance on a scale from 0.0 to 1.0.

Topic: " ++ dquote ++ topic ++ dquote ++ "

Text Content:
" ++ JS.prefix 500 text ++ (if (500 <? String.length text)%nat then "..." else EmptyString) ++ "

Instructions:
- Consider semantic meaning, not just keyword matching
- 0.0 = Not relevant at all
- 0.5 = Somewhat relevant
- 1.0 = Very relevant and directly related
- Provide ONLY the numeric score (e.g., 0.75)

Relevance Score:".

(** [getSemanticRelevance(topic, text)].  Its own [try]/[catch] turns every
    failure of [executePrompt] (and the [TypeError] of matching on
    [undefined]) into the score 0, so its promise never rejects. *)
Definition getSemanticRelevance (h : OllamaHandler) (run : Process)
    (topic text : string) : Q :=
  if JS.is_empty text || (String.length text <? 10)%nat then 0
  else
    match executePrompt h run (relevance_prompt topic text) None (Some 30000) with
    | Normal (Some response) =>
        JS.math_max 0 (JS.math_min 1 (parse_score response))
    | Normal None => 0
    | Throw _ => 0
    end.

(** *** [generateRankedTopics] *)

Record Summary : Type := {
  pdf_name : string;
  pdf_summary : string
}.

Definition newline : ascii := ascii_of_nat 10.

(** The numbered lines made of the summaries, the first one numbered
    [i + 1]. *)
Fixpoint summary_lines (i : nat) (summaries : list Summary) : list string :=
  match summaries with
  | [] => []
  | s :: rest =>
      (JS.of_nat (i + 1) ++ ". " ++ pdf_name s ++ ": " ++ pdf_summary s)
      :: summary_lines (S i) rest
  end.

Definition topics_prompt (summaries : list Summary) (persona task : string) : string :=
  "You are helping a " ++ persona ++ " with the following task: " ++ task ++ "

Based on the following document summaries, identify and rank the 5-7 most important section topics that would be most relevant for this persona and task.

Document Summaries:
" ++ JS.join (String newline EmptyString) (summary_lines 0 summaries) ++ "

Instructions:
- Consider what would be most actionable and relevant for a " ++ persona ++ "
- Focus on topics that directly support the task: " ++ task ++ "
- Rank topics by importance (most important first)
- Each topic should be a concise phrase or title (2-8 words)
- Provide ONLY the topics as a simple list, one per line
- Do not include numbers, bullets, or explanations

Example format:
Introduction and Overview
Main Content and Procedures
Requirements and Guidelines
Implementation Steps
Best Practices and Standards

Topics:".

Definition fallback_topics : list string :=
  [ "Introduction and Overview";
    "Main Content and Procedures";
    "Requirements and Guidelines";
    "Implementation Steps";
    "Best Practices and Standards" ].

(** The filter on the lines of the reply. *)
Definition topic_line (line : string) : bool :=
  (0 <? String.length line)%nat
  && negb (JS.includes "topics:" (JS.toLowerCase line)).

(** The topics read off a reply: its trimmed lines that are not empty and
    do not hold the word of the prompt, seven at most. *)
Definition parse_topics (response : string) : list string :=
  JS.slice (filter topic_line (map JS.trim (JS.split newline response))) 0 7.

(** [generateRankedTopics(summaries, persona, task)]: the [catch] answers
    every failure, an empty list of topics included, with the fallback
    topics. *)
Definition generateRankedTopics (h : OllamaHandler) (run : Process)
    (summaries : list Summary) (persona task : string) : list string :=
  match executePrompt h run (topics_prompt summaries persona task) None (Some 60000) with
  | Normal (Some response) =>
      let topics := parse_topics response in
      if (0 <? List.length topics)%nat then topics else fallback_topics
  | Normal None => fallback_topics
  | Throw _ => fallback_topics
  end.

End Ollama.

(* ================================================================== *)
(** * Data shared by the analyzer and the matcher *)
(* ================================================================== *)

(** The layout labels of [pdf-processor.js] ([id2label]). *)
Inductive Label : Type :=
| Caption | Footnote | Formula | ListItem | PageFooter | PageHeader
| Picture | SectionHeader | Table | Text | Title.

Definition label_eqb (a b : Label) : bool :=
  match a, b with
  | Caption, Caption | Footnote, Footnote | Formula, Formula
  | ListItem, ListItem | PageFooter, PageFooter | PageHeader, PageHeader
  | Picture, Picture | SectionHeader, SectionHeader | Table, Table
  | Text, Text | Title, Title => true
  | _, _ => false
  end.

Definition label_name (l : Label) : string :=
  match l with
  | Caption => "Caption"
  | Footnote => "Footnote"
  | Formula => "Formula"
  | ListItem => "List-item"
  | PageFooter => "Page-footer"
  | PageHeader => "Page-header"
  | Picture => "Picture"
  | SectionHeader => "Section-header"
  | Table => "Table"
  | Text => "Text"
  | Title => "Title"
  end.

Definition BBox : Type := list Q.

(** A content item of a section. *)
Record Content : Type := {
  c_type : Label;
  c_text : string;
  c_page : Z;
  c_confidence : Q;
  c_bbox : option BBox
}.

(** A section; [s_index] is absent until [_postProcessStructure] sets it. *)
Record Section : Type := {
  s_title : string;
  s_page : Z;
  s_confidence : Q;
  s_bbox : option BBox;
  s_content : list Content;
  s_wordCount : nat;
  s_elementCount : nat;
  s_index : option Z
}.

Record Metadata : Type := {
  totalElements : nat;
  textElements : nat;
  sectionHeaders : nat;
  titles : nat
}.

(** The [structure] object; its [pages] field, a per-page copy of the
    detections that nothing below reads, is left out. *)
Record DocumentStructure : Type := {
  title : option string;
  sections : list Section;
  metadata : Metadata
}.

(** An entry of a search index.  [e_bbox] is [None] both for a missing field
    (the analyzer's index has none) and for [null]. *)
Record Element : Type := {
  e_type : string;
  e_text : string;
  e_page : Z;
  e_section : option Z;
  e_importance : Q;
  e_bbox : option BBox
}.

(** [!!structure.title] *)
Definition has_title (t : option string) : bool :=
  match t with
  | Some s => JS.truthy_str s
  | None => false
  end.

(* ================================================================== *)
(** * document-analyzer.js *)
(* ================================================================== *)

Module Analyzer.

Open Scope string_scope.

Record Detection : Type := {
  label : Label;
  extractedText : string;
  confidence : Q;
  bbox : option BBox;
  center : Q * Q
}.

Record PageResult : Type := {
  pageNumber : Z;
  detections : list Detection
}.

(** The options object given to the constructor. *)
Record Options : Type := {
  o_minTextLength : option Q;
  o_sectionThreshold : option Q;
  o_titleThreshold : option Q
}.

Record DocumentAnalyzer : Type := {
  minTextLength : Q;
  sectionThreshold : Q;
  titleThreshold : Q
}.

Definition constructor (config : Options) : DocumentAnalyzer :=
  {| minTextLength := JS.or_default (o_minTextLength config) 10;
     sectionThreshold := JS.or_default (o_sectionThreshold config) (7 # 10);
     titleThreshold := JS.or_default (o_titleThreshold config) (8 # 10) |}.

(** An options object with one option replaced. *)
Definition with_minTextLength (v : option Q) (c : Options) : Options :=
  {| o_minTextLength := v;
     o_sectionThreshold := o_sectionThreshold c;
     o_titleThreshold := o_titleThreshold c |}.

Definition with_sectionThreshold (v : option Q) (c : Options) : Options :=
  {| o_minTextLength := o_minTextLength c;
     o_sectionThreshold := v;
     o_titleThreshold := o_titleThreshold c |}.

Definition with_titleThreshold (v : option Q) (c : Options) : Options :=
  {| o_minTextLength := o_minTextLength c;
     o_sectionThreshold := o_sectionThreshold c;
     o_titleThreshold := v |}.

(** *** [_cleanText] *)

(** [replace(/\s+/g, " ")]: each run of white space becomes one space. *)
Fixpoint collapse_spaces (in_run : bool) (s : string) : string :=
  match s with
  | EmptyString => EmptyString
  | String c s' =>
      if JS.is_space c
      then if in_run then collapse_spaces true s'
           else String " "%char (collapse_spaces true s')
      else String c (collapse_spaces false s')
  end.

(** The characters the second [replace] keeps: word characters, white space
    and the punctuation [-.,!?:;()]. *)
Definition is_allowed (c : ascii) : bool :=
  JS.is_word c || JS.is_space c ||
  existsb (Nat.eqb (JS.code c)) [45; 46; 44; 33; 63; 58; 59; 40; 41]%nat.

Fixpoint keep_allowed (s : string) : string :=
  match s with
  | EmptyString => EmptyString
  | String c s' =>
      if is_allowed c then String c (keep_allowed s') else keep_allowed s'
  end.

Definition _cleanText (text : string) : string :=
  if JS.is_empty text then EmptyString
  else JS.trim (keep_allowed (collapse_spaces false text)).

(** [s.split(/\s+/).length]: one more than the number of runs of white space. *)
Fixpoint space_runs (in_run : bool) (s : string) : nat :=
  match s with
  | EmptyString => O
  | String c s' =>
      if JS.is_space c
      then if in_run then space_runs true s' else S (space_runs true s')
      else space_runs false s'
  end.

Definition split_spaces_length (s : string) : nat := S (space_runs false s).

(** *** [createDocumentStructure] *)

(** The comparator of the reading-order sort. *)
Definition readingOrder (a b : Detection) : Q :=
  let yDiff := snd (center a) - snd (center b) in
  if JS.gtb (Qabs yDiff) 20 then yDiff
  else fst (center a) - fst (center b).

(** The variables the scan updates: [structure.title], [structure.sections],
    [structure.metadata] and [currentSection]. *)
Record Scan : Type := {
  sc_title : option string;
  sc_sections : list Section;
  sc_metadata : Metadata;
  sc_current : option Section
}.

Definition count (b : bool) (n : nat) : nat := if b then S n else n.

Definition update_metadata (l : Label) (m : Metadata) : Metadata :=
  {| totalElements := S (totalElements m);
     textElements := count (label_eqb l Text || label_eqb l ListItem) (textElements m);
     sectionHeaders := count (label_eqb l SectionHeader) (sectionHeaders m);
     titles := count (label_eqb l Title) (titles m) |}.

(** The sections after [if (currentSection && currentSection.content.length > 0)
    structure.sections.push(currentSection)]. *)
Definition finalize (cur : option Section) (secs : list Section) : list Section :=
  match cur with
  | Some s => match s_content s with
              | [] => secs
              | _ :: _ => secs ++ [s]
              end
  | None => secs
  end.

Definition add_content (s : Section) (c : Content) : Section :=
  {| s_title := s_title s;
     s_page := s_page s;
     s_confidence := s_confidence s;
     s_bbox := s_bbox s;
     s_content := s_content s ++ [c];
     s_wordCount := s_wordCount s + split_spaces_length (c_text c);
     s_elementCount := S (s_elementCount s);
     s_index := s_index s |}.

(** The body of the loop over the detections of one page. *)
Definition step (an : DocumentAnalyzer) (page : Z) (st : Scan) (d : Detection) : Scan :=
  let md := update_metadata (label d) (sc_metadata st) in
  let txt := JS.truthy_str (extractedText d) in
  if label_eqb (label d) Title && negb (has_title (sc_title st))
     && JS.geb (confidence d) (titleThreshold an) && txt
  then {| sc_title := Some (_cleanText (extractedText d));
          sc_sections := sc_sections st;
          sc_metadata := md;
          sc_current := sc_current st |}
  else if label_eqb (label d) SectionHeader
          && JS.geb (confidence d) (sectionThreshold an) && txt
  then {| sc_title := sc_title st;
          sc_sections := finalize (sc_current st) (sc_sections st);
          sc_metadata := md;
          sc_current :=
            Some {| s_title := _cleanText (extractedText d);
                    s_page := page;
                    s_confidence := confidence d;
                    s_bbox := bbox d;
                    s_content := [];
                    s_wordCount := 0;
                    s_elementCount := 0;
                    s_index := None |} |}
  else
    match sc_current st with
    | Some cur =>
        if (label_eqb (label d) Text || label_eqb (label d) ListItem
            || label_eqb (label d) Caption) && txt
        then
          let cleanText := _cleanText (extractedText d) in
          if JS.geb (inject_Z (Z.of_nat (String.length cleanText))) (minTextLength an)
          then {| sc_title := sc_title st;
                  sc_sections := sc_sections st;
                  sc_metadata := md;
                  sc_current :=
                    Some (add_content cur
                            {| c_type := label d;
                               c_text := cleanText;
                               c_page := page;
                               c_confidence := confidence d;
                               c_bbox := bbox d |}) |}
          else {| sc_title := sc_title st; sc_sections := sc_sections st;
                  sc_metadata := md; sc_current := sc_current st |}
        else {| sc_title := sc_title st; sc_sections := sc_sections st;
                sc_metadata := md; sc_current := sc_current st |}
    | None => {| sc_title := sc_title st; sc_sections := sc_sections st;
                 sc_metadata := md; sc_current := None |}
    end.

(** The body of the loop over the pages. *)
Definition scan_page (an : DocumentAnalyzer) (st : Scan) (p : PageResult) : Scan :=
  fold_left (step an (pageNumber p)) (JS.sort readingOrder (detections p)) st.

Definition set_index (i : nat) (s : Section) : Section :=
  {| s_title := s_title s;
     s_page := s_page s;
     s_confidence := s_confidence s;
     s_bbox := s_bbox s;
     s_content := s_content s;
     s_wordCount := s_wordCount s;
     s_elementCount := s_elementCount s;
     s_index := Some (Z.of_nat i + 1)%Z |}.

(** [sections.forEach((section, index) => section.index = index + 1)],
    the first section being number [i]. *)
Fixpoint add_indices (i : nat) (l : list Section) : list Section :=
  match l with
  | [] => []
  | s :: l' => set_index i s :: add_indices (S i) l'
  end.

Definition retained (s : Section) : bool :=
  (0 <? List.length (s_content s))%nat || (3 <? String.length (s_title s))%nat.

Definition _postProcessStructure (t : option string) (secs : list Section)
    (md : Metadata) : DocumentStructure :=
  let kept := filter retained secs in
  let sorted := JS.sort (fun a b => inject_Z (s_page a) - inject_Z (s_page b)) kept in
  let t' :=
    if negb (has_title t)
    then match sorted with
         | first :: _ =>
             if (5 <? String.length (s_title first))%nat
             then Some (s_title first) else t
         | [] => t
         end
    else t in
  {| title := t'; sections := add_indices 0 sorted; metadata := md |}.

(** The [structure] field of the object [createDocumentStructure] returns.
    ([allText], [allDetections] and [statistics] are read by the
    summarisation step only.) *)
Definition createDocumentStructure (an : DocumentAnalyzer)
    (pageResults : list PageResult) : DocumentStructure :=
  let init := {| sc_title := None; sc_sections := [];
                 sc_metadata := {| totalElements := 0; textElements := 0;
                                   sectionHeaders := 0; titles := 0 |};
                 sc_current := None |} in
  let st := fold_left (scan_page an) pageResults init in
  _postProcessStructure (sc_title st)
    (finalize (sc_current st) (sc_sections st)) (sc_metadata st).

(** *** [createSearchIndex] *)

Definition content_entry (idx : option Z) (c : Content) : Element :=
  {| e_type := JS.toLowerCase (label_name (c_type c));
     e_text := c_text c;
     e_page := c_page c;
     e_section := idx;
     e_importance := if label_eqb (c_type c) Text then 6 # 10 else 4 # 10;
     e_bbox := None |}.

Definition section_entries (s : Section) : list Element :=
  {| e_type := "section-header";
     e_text := s_title s;
     e_page := s_page s;
     e_section := s_index s;
     e_importance := 8 # 10;
     e_bbox := None |}
  :: map (content_entry (s_index s)) (s_content s).

Definition title_entries (t : option string) : list Element :=
  match t with
  | Some s =>
      if JS.truthy_str s
      then [ {| e_type := "title"; e_text := s; e_page := 1;
                e_section := None; e_importance := 1; e_bbox := None |} ]
      else []
  | None => []
  end.

Definition createSearchIndex (structure : DocumentStructure) : list Element :=
  title_entries (title structure) ++ flat_map section_entries (sections structure).

(** *** [_generateStatistics] *)

(** [allText.split(/\s+/).filter(word => word.length > 0).length]: the
    number of maximal runs of characters other than white space. *)
Fixpoint count_words (in_word : bool) (s : string) : nat :=
  match s with
  | EmptyString => O
  | String c s' =>
      if JS.is_space c then count_words false s'
      else if in_word then count_words true s' else S (count_words true s')
  end.

(** A character of the class [.!?]. *)
Definition is_terminal (c : ascii) : bool :=
  existsb (Nat.eqb (JS.code c)) [46; 33; 63]%nat.

(** [allText.split(/[.!?]+/).filter(s => s.trim().length > 0).length]: the
    number of pieces between terminal characters that hold a character
    other than white space; [seen] tells whether the piece being read does. *)
Fixpoint count_sentences (seen : bool) (s : string) : nat :=
  match s with
  | EmptyString => if seen then 1%nat else O
  | String c s' =>
      if is_terminal c
      then if seen then S (count_sentences false s') else count_sentences false s'
      else count_sentences (seen || negb (JS.is_space c)) s'
  end.

Record Statistics : Type := {
  totalPages : nat;
  totalSections : nat;
  st_totalElements : nat;
  st_textElements : nat;
  st_sectionHeaders : nat;
  st_titles : nat;
  wordCount : nat;
  sentenceCount : nat;
  averageWordsPerSentence : Z;
  sectionsWithContent : nat;
  averageContentPerSection : Z
}.

(** [Math.round(a / b)] for two counts. *)
Definition rounded_ratio (a b : nat) : Z :=
  JS.round_half_up (inject_Z (Z.of_nat a) / inject_Z (Z.of_nat b)).

(** [_generateStatistics(structure, allText)]; [pages] is
    [structure.pages.length], the pages being left out of
    [DocumentStructure]. *)
Definition _generateStatistics (structure : DocumentStructure) (pages : nat)
    (allText : string) : Statistics :=
  let words := count_words false allText in
  let sentences := count_sentences false allText in
  let secs := sections structure in
  {| totalPages := pages;
     totalSections := List.length secs;
     st_totalElements := totalElements (metadata structure);
     st_textElements := textElements (metadata structure);
     st_sectionHeaders := sectionHeaders (metadata structure);
     st_titles := titles (metadata structure);
     wordCount := words;
     sentenceCount := sentences;
     averageWordsPerSentence :=
       if (0 <? sentences)%nat then rounded_ratio words sentences else 0%Z;
     sectionsWithContent :=
       List.length (filter (fun s => (0 <? List.length (s_content s))%nat) secs);
     averageContentPerSection :=
       if (0 <? List.length secs)%nat
       then rounded_ratio
              (fold_left (fun sum s => (sum + List.length (s_content s))%nat) secs 0%nat)
              (List.length secs)
       else 0%Z |}.

(** *** [analyzeDocumentQuality] *)

Record Quality : Type := {
  overall : string;
  issues : list string;
  suggestions : list string;
  score_structure : Q;
  score_content : Q;
  score_title : Q;
  score_overall : Q
}.

(** The scores are exact rationals here.  The sums the code can form are at
    least a tenth away from 2.4, so the test against 0.8 comes out the same
    in double arithmetic.  The tests against 0.6 and 0.4 meet the sums 1.8
    and 1.2 themselves, where the rounding of the division decides. *)
Definition analyzeDocumentQuality (structure : DocumentStructure)
    (statistics : Statistics) : Quality :=
  let n := List.length (sections structure) in
  let sStructure :=
    if (n =? 0)%nat then 2 # 10 else if (n <? 3)%nat then 6 # 10 else 9 # 10 in
  let issues1 :=
    if (n =? 0)%nat
    then ["No sections detected - document may lack clear structure"] else [] in
  let suggestions1 :=
    if (n =? 0)%nat then []
    else if (n <? 3)%nat
         then ["Consider adding more section headers for better organization"]
         else [] in
  let w := wordCount statistics in
  let sContent :=
    if (w <? 100)%nat then 3 # 10 else if (w <? 500)%nat then 6 # 10 else 9 # 10 in
  let issues2 :=
    if (w <? 100)%nat
    then ["Very low word count - document may be incomplete"] else [] in
  let titled := has_title (title structure) in
  let short_title :=
    match title structure with
    | Some t => (String.length t <? 5)%nat
    | None => false
    end in
  let sTitle := if negb titled then 0 else if short_title then 5 # 10 else 1 in
  let issues3 := if negb titled then ["No document title detected"] else [] in
  let suggestions3 :=
    if negb titled then []
    else if short_title then ["Document title seems very short"] else [] in
  let overallScore := (0 + sStructure + sContent + sTitle) / 3 in
  {| overall :=
       if JS.geb overallScore (8 # 10) then "excellent"
       else if JS.geb overallScore (6 # 10) then "good"
       else if JS.geb overallScore (4 # 10) then "fair"
       else "poor";
     issues := (issues1 ++ issues2 ++ issues3)%list;
     suggestions := (suggestions1 ++ suggestions3)%list;
     score_structure := sStructure;
     score_content := sContent;
     score_title := sTitle;
     score_overall := overallScore |}.

End Analyzer.

(* ================================================================== *)
(** * semantic-matcher.js *)
(* ================================================================== *)

Module Matcher.

Open Scope string_scope.
Open Scope list_scope.

(** The options object given to the constructor. *)
Record Options : Type := {
  o_minMatchScore : option Q;
  o_aiEnhancedMode : option bool;
  o_fuzzyWeight : option Q;
  o_cosineWeight : option Q;
  o_aiWeight : option Q;
  o_maxConcurrentAIRequests : option Q;
  o_timeoutMs : option Q
}.

Record Config : Type := {
  minMatchScore : Q;
  aiEnhancedMode : bool;
  fuzzyWeight : Q;
  cosineWeight : Q;
  aiWeight : Q;
  maxConcurrentAIRequests : Q;
  timeoutMs : Q
}.

Record Stats : Type := {
  totalMatches : nat;
  aiEnhancedMatches : nat;
  traditionalMatches : nat;
  failedAIMatches : nat
}.

(** The handler object, by its one method the matcher calls.  The first
    argument numbers the calls made on the handler, so that an external judge
    may answer two calls with equal arguments differently. *)
Definition Judge : Type := nat -> string -> string -> Completion Q.

Record SemanticMatcher : Type := {
  ollamaHandler : option Judge;
  config : Config
}.

(** The mutable part: [this.stats], and the number of judge calls made. *)
Record State : Type := {
  stats : Stats;
  issued : nat
}.

Definition zero_stats : Stats :=
  {| totalMatches := 0; aiEnhancedMatches := 0;
     traditionalMatches := 0; failedAIMatches := 0 |}.

Definition initial : State := {| stats := zero_stats; issued := 0 |}.

Definition constructor (handler : option Judge) (cfg : Options) : SemanticMatcher :=
  {| ollamaHandler := handler;
     config :=
       {| minMatchScore := JS.or_default (o_minMatchScore cfg) (1 # 10);
          aiEnhancedMode := match o_aiEnhancedMode cfg with
                            | Some false => false
                            | _ => true
                            end;
          fuzzyWeight := JS.or_default (o_fuzzyWeight cfg) (3 # 10);
          cosineWeight := JS.or_default (o_cosineWeight cfg) (4 # 10);
          aiWeight := JS.or_default (o_aiWeight cfg) (3 # 10);
          maxConcurrentAIRequests := JS.or_default (o_maxConcurrentAIRequests cfg) 3;
          timeoutMs := JS.or_default (o_timeoutMs cfg) 30000 |} |}.

(** An options object with one option replaced. *)
Definition with_minMatchScore (v : option Q) (c : Options) : Options :=
  {| o_minMatchScore := v;
     o_aiEnhancedMode := o_aiEnhancedMode c;
     o_fuzzyWeight := o_fuzzyWeight c;
     o_cosineWeight := o_cosineWeight c;
     o_aiWeight := o_aiWeight c;
     o_maxConcurrentAIRequests := o_maxConcurrentAIRequests c;
     o_timeoutMs := o_timeoutMs c |}.

Definition with_fuzzyWeight (v : option Q) (c : Options) : Options :=
  {| o_minMatchScore := o_minMatchScore c;
     o_aiEnhancedMode := o_aiEnhancedMode c;
     o_fuzzyWeight := v;
     o_cosineWeight := o_cosineWeight c;
     o_aiWeight := o_aiWeight c;
     o_maxConcurrentAIRequests := o_maxConcurrentAIRequests c;
     o_timeoutMs := o_timeoutMs c |}.

Definition with_cosineWeight (v : option Q) (c : Options) : Options :=
  {| o_minMatchScore := o_minMatchScore c;
     o_aiEnhancedMode := o_aiEnhancedMode c;
     o_fuzzyWeight := o_fuzzyWeight c;
     o_cosineWeight := v;
     o_aiWeight := o_aiWeight c;
     o_maxConcurrentAIRequests := o_maxConcurrentAIRequests c;
     o_timeoutMs := o_timeoutMs c |}.

Definition with_aiWeight (v : option Q) (c : Options) : Options :=
  {| o_minMatchScore := o_minMatchScore c;
     o_aiEnhancedMode := o_aiEnhancedMode c;
     o_fuzzyWeight := o_fuzzyWeight c;
     o_cosineWeight := o_cosineWeight c;
     o_aiWeight := v;
     o_maxConcurrentAIRequests := o_maxConcurrentAIRequests c;
     o_timeoutMs := o_timeoutMs c |}.

Definition with_maxConcurrentAIRequests (v : option Q) (c : Options) : Options :=
  {| o_minMatchScore := o_minMatchScore c;
     o_aiEnhancedMode := o_aiEnhancedMode c;
     o_fuzzyWeight := o_fuzzyWeight c;
     o_cosineWeight := o_cosineWeight c;
     o_aiWeight := o_aiWeight c;
     o_maxConcurrentAIRequests := v;
     o_timeoutMs := o_timeoutMs c |}.

(** The empty options object. *)
Definition no_options : Options :=
  {| o_minMatchScore := None; o_aiEnhancedMode := None; o_fuzzyWeight := None;
     o_cosineWeight := None; o_aiWeight := None;
     o_maxConcurrentAIRequests := None; o_timeoutMs := None |}.

(** A matcher whose [aiWeight] was changed ([updateConfig]). *)
Definition set_aiWeight (w : Q) (m : SemanticMatcher) : SemanticMatcher :=
  {| ollamaHandler := ollamaHandler m;
     config := {| minMatchScore := minMatchScore (config m);
                  aiEnhancedMode := aiEnhancedMode (config m);
                  fuzzyWeight := fuzzyWeight (config m);
                  cosineWeight := cosineWeight (config m);
                  aiWeight := w;
                  maxConcurrentAIRequests := maxConcurrentAIRequests (config m);
                  timeoutMs := timeoutMs (config m) |} |}.

(** The handler the pipeline installs: an [OllamaHandler] in front of the
    external process, whose behaviour at call [n] is [world n]. *)
Definition ollama_judge (h : Ollama.OllamaHandler) (world : nat -> Ollama.Process) : Judge :=
  fun n topic text => Normal (Ollama.getSemanticRelevance h (world n) topic text).

(** The handler argument of the constructor in the pipeline: [null], or an
    [OllamaHandler] with the external process behind it. *)
Definition pipeline_handler (o : option (Ollama.OllamaHandler * (nat -> Ollama.Process)))
    : option Judge :=
  match o with
  | Some (h, world) => Some (ollama_judge h world)
  | None => None
  end.

Record Candidate : Type := {
  element : Element;
  traditionalScore : Q;
  aiScore : Q
}.

Record Match : Type := {
  document : string;
  topic : string;
  section_title : string;
  page_number : Z;
  importance_rank : Z;
  match_score : Q;
  match_type : string;
  traditional_score : Q;
  ai_score : Q;
  element_importance : Q;
  m_bbox : option BBox
}.

(** ** A state monad for the methods that update [this.stats] *)

Definition M (A : Type) : Type := State -> A * State.

Definition ret {A} (a : A) : M A := fun s => (a, s).

Definition bind {A B} (c : M A) (k : A -> M B) : M B :=
  fun s => let (a, s') := c s in k a s'.

Notation "x <- c ;; k" := (bind c (fun x => k))
  (at level 61, c at next level, right associativity).

Definition modify (f : State -> State) : M unit := fun s => (tt, f s).

Fixpoint mapM {A B} (f : nat -> A -> M B) (i : nat) (l : list A) : M (list B) :=
  match l with
  | [] => ret []
  | x :: l' =>
      y <- f i x ;;
      ys <- mapM f (S i) l' ;;
      ret (y :: ys)
  end.

Definition on_stats (f : Stats -> Stats) (s : State) : State :=
  {| stats := f (stats s); issued := issued s |}.

Definition incr_aiEnhanced (t : Stats) : Stats :=
  {| totalMatches := totalMatches t;
     aiEnhancedMatches := S (aiEnhancedMatches t);
     traditionalMatches := traditionalMatches t;
     failedAIMatches := failedAIMatches t |}.

Definition incr_failedAI (t : Stats) : Stats :=
  {| totalMatches := totalMatches t;
     aiEnhancedMatches := aiEnhancedMatches t;
     traditionalMatches := traditionalMatches t;
     failedAIMatches := S (failedAIMatches t) |}.

Definition add_matches (traditional : bool) (n : nat) (t : Stats) : Stats :=
  {| totalMatches := totalMatches t + n;
     aiEnhancedMatches := aiEnhancedMatches t;
     traditionalMatches :=
       if traditional then traditionalMatches t + n else traditionalMatches t;
     failedAIMatches := failedAIMatches t |}.

(** Taking the number of the next judge call. *)
Definition next_call : M nat :=
  fun s => (issued s, {| stats := stats s; issued := S (issued s) |}).

(** ** Methods without state *)

Definition _truncateText (text : string) (maxLength : nat) : string :=
  if JS.is_empty text || (String.length text <=? maxLength)%nat then text
  else (JS.prefix (maxLength - 3) text ++ "...")%string.

Definition _getContentImportance (contentType : Label) : Q :=
  match contentType with
  | Title => 1
  | SectionHeader => 8 # 10
  | Text => 6 # 10
  | ListItem => 5 # 10
  | Caption => 4 # 10
  | Table => 7 # 10
  | Formula => 3 # 10
  | _ => 4 # 10
  end.

Definition content_entries (idx : option Z) (c : Content) : list Element :=
  if JS.truthy_str (c_text c) && (10 <? String.length (c_text c))%nat
  then [ {| e_type := JS.replace_char "-" "_" (JS.toLowerCase (label_name (c_type c)));
            e_text := c_text c;
            e_page := c_page c;
            e_section := idx;
            e_importance := _getContentImportance (c_type c);
            e_bbox := c_bbox c |} ]
  else [].

Definition section_entries (s : Section) : list Element :=
  {| e_type := "section-header";
     e_text := s_title s;
     e_page := s_page s;
     e_section := s_index s;
     e_importance := 8 # 10;
     e_bbox := s_bbox s |}
  :: flat_map (content_entries (s_index s)) (s_content s).

Definition title_entries (t : option string) : list Element :=
  match t with
  | Some s =>
      if JS.truthy_str s
      then [ {| e_type := "title"; e_text := s; e_page := 1;
                e_section := None; e_importance := 1; e_bbox := None |} ]
      else []
  | None => []
  end.

Definition _createSearchIndex (documentStructure : DocumentStructure) : list Element :=
  title_entries (title documentStructure)
  ++ flat_map section_entries (sections documentStructure).

(** The loop of [_createBatches], entered at [i]; [None] when [fuel]
    iterations do not reach its end. *)
Fixpoint batches_from {A} (fuel : nat) (items : list A) (batchSize i : Q)
    : option (list (list A)) :=
  if JS.ltb i (inject_Z (Z.of_nat (List.length items))) then
    match fuel with
    | O => None
    | S fuel' =>
        option_map (cons (JS.slice items i (i + batchSize)))
                   (batches_from fuel' items batchSize (i + batchSize))
    end
  else Some [].

Definition _createBatches {A} (fuel : nat) (items : list A) (batchSize : Q)
    : option (list (list A)) :=
  batches_from fuel items batchSize 0.

(** The comparator of the two sorts of matches. *)
Definition compare_matches (a b : Match) : Q :=
  if negb (Z.eqb (importance_rank a) (importance_rank b))
  then inject_Z (importance_rank a - importance_rank b)
  else match_score b - match_score a.

Section Scoring.

(** [matching_utils.js] *)
Variables fuzzyMatch cosineSimilarity : string -> string -> Q.

Variable this : SemanticMatcher.

Definition _calculateTraditionalScore (topic text : string) : Q :=
  if JS.is_empty text || (String.length text <? 3)%nat then 0
  else fuzzyMatch topic text * fuzzyWeight (config this)
       + cosineSimilarity topic text * cosineWeight (config this).

(** [this.ollamaHandler && this.config.aiEnhancedMode] *)
Definition ai_enabled : bool :=
  match ollamaHandler this with
  | Some _ => aiEnhancedMode (config this)
  | None => false
  end.

Definition _calculateFinalScore (traditionalScore aiScore : Q) : Q :=
  if negb ai_enabled || Qeq_bool aiScore 0
  then traditionalScore / (fuzzyWeight (config this) + cosineWeight (config this))
  else
    let normalizedTraditional :=
      traditionalScore / (fuzzyWeight (config this) + cosineWeight (config this)) in
    normalizedTraditional * (1 - aiWeight (config this))
    + aiScore * aiWeight (config this).

(** The first loop of [_findTopicMatches]. *)
Definition collect_step (topic : string) (candidates : list Candidate)
    (element : Element) : list Candidate :=
  let traditionalScore := _calculateTraditionalScore topic (e_text element) in
  if JS.gtb traditionalScore 0
  then candidates ++ [ {| element := element;
                          traditionalScore := traditionalScore;
                          aiScore := 0 |} ]
  else candidates.

Definition by_traditional_desc (a b : Candidate) : Q :=
  traditionalScore b - traditionalScore a.

Definition set_aiScore (c : Candidate) (a : Q) : Candidate :=
  {| element := element c; traditionalScore := traditionalScore c; aiScore := a |}.

(** The callback mapped over [topCandidates]: one judge call, its score
    stored in the candidate, or the failure counted. *)
Definition judge_one (judge : Judge) (topic : string) (i : nat) (c : Candidate)
    : M Candidate :=
  n <- next_call ;;
  match judge n topic (e_text (element c)) with
  | Normal a =>
      _ <- modify (on_stats incr_aiEnhanced) ;;
      ret (set_aiScore c a)
  | Throw _ =>
      _ <- modify (on_stats incr_failedAI) ;;
      ret c
  end.

Definition make_match (filename topic : string) (topicIndex : Z) (c : Candidate)
    (finalScore : Q) : Match :=
  {| document := filename;
     topic := topic;
     section_title := _truncateText (e_text (element c)) 100;
     page_number := e_page (element c);
     importance_rank := (topicIndex + 1)%Z;
     match_score := JS.toFixed3 finalScore;
     match_type := e_type (element c);
     traditional_score := JS.toFixed3 (traditionalScore c);
     ai_score := JS.toFixed3 (aiScore c);
     element_importance := e_importance (element c);
     m_bbox := e_bbox (element c) |}.

(** The last loop of [_findTopicMatches]. *)
Definition emit_step (filename topic : string) (topicIndex : Z)
    (matches : list Match) (c : Candidate) : list Match :=
  let finalScore := _calculateFinalScore (traditionalScore c) (aiScore c) in
  if JS.geb finalScore (minMatchScore (config this))
  then matches ++ [make_match filename topic topicIndex c finalScore]
  else matches.

(** The candidates of a topic, sorted, before any judge call. *)
Definition sorted_candidates (topic : string) (searchIndex : list Element)
    : list Candidate :=
  JS.sort by_traditional_desc (fold_left (collect_step topic) searchIndex []).

(** The candidates after the judge calls.  [topCandidates] shares its
    objects with [candidates], so the scores stored through it are seen by
    the last loop. *)
Definition judged_candidates (topic : string) (searchIndex : list Element)
    : M (list Candidate) :=
  let candidates := sorted_candidates topic searchIndex in
  let topCandidates := JS.slice candidates 0 5 in
  match ollamaHandler this with
  | Some judge =>
      if aiEnhancedMode (config this) && (0 <? List.length topCandidates)%nat
      then
        judged <- mapM (judge_one judge topic) 0 topCandidates ;;
        ret (judged ++ skipn (List.length topCandidates) candidates)
      else ret candidates
  | None => ret candidates
  end.

Definition _findTopicMatches (topic : string) (searchIndex : list Element)
    (filename : string) (topicIndex : Z) : M (list Match) :=
  candidates <- judged_candidates topic searchIndex ;;
  let matches := fold_left (emit_step filename topic topicIndex) candidates [] in
  _ <- modify (on_stats (add_matches (negb ai_enabled) (List.length matches))) ;;
  ret matches.

(** The body of the loop over the batches. *)
Definition run_batch (topics : list string) (searchIndex : list Element)
    (filename : string) (batch : list string) : M (list Match) :=
  batchResults <-
    mapM (fun (batchIndex : nat) (topic : string) =>
            _findTopicMatches topic searchIndex filename (JS.indexOf topics topic))
         0 batch ;;
  ret (List.concat batchResults).

Fixpoint run_batches (topics : list string) (searchIndex : list Element)
    (filename : string) (topicBatches : list (list string))
    (matches : list Match) : M (list Match) :=
  match topicBatches with
  | [] => ret matches
  | batch :: rest =>
      found <- run_batch topics searchIndex filename batch ;;
      run_batches topics searchIndex filename rest (matches ++ found)
  end.

(** [findBestMatches]; [None] when the loop of [_createBatches] does not
    end within [fuel] iterations. *)
Definition findBestMatches (fuel : nat) (topics : list string)
    (documentStructure : DocumentStructure) (filename : string)
    : State -> option (list Match * State) :=
  fun s =>
    let searchIndex := _createSearchIndex documentStructure in
    match _createBatches fuel topics (maxConcurrentAIRequests (config this)) with
    | None => None
    | Some topicBatches =>
        let (matches, s') :=
          run_batches topics searchIndex filename topicBatches [] s in
        Some (JS.sort compare_matches matches, s')
    end.

End Scoring.

(** ** The refined analysis *)

Definition _getConfidenceLevel (score : Q) : string :=
  if JS.geb score (8 # 10) then "High"
  else if JS.geb score (5 # 10) then "Medium"
  else if JS.geb score (3 # 10) then "Low"
  else "Very Low".

(** The own properties of [labelMap]. *)
Definition labelMap : list (string * string) :=
  [ ("title", "Document Title");
    ("section-header", "Section Header");
    ("section_header", "Section Header");
    ("text", "Content");
    ("list-item", "List Item");
    ("list_item", "List Item");
    ("caption", "Caption");
    ("table", "Table");
    ("formula", "Formula") ].

Fixpoint own_property (key : string) (object : list (string * string)) : option string :=
  match object with
  | [] => None
  | (k, v) :: rest => if String.eqb k key then Some v else own_property key rest
  end.

(** [labelMap[matchType] || "Content"].  A match type that names a member
    of [Object.prototype] would read that member; no search index makes
    such a type, and none is in the domain meant here. *)
Definition _getMatchTypeLabel (matchType : string) : string :=
  match own_property matchType labelMap with
  | Some label => label
  | None => "Content"
  end.

Record RefinedMatch : Type := {
  r_document : string;
  r_page_number : Z;
  refined_text : string;
  topic_matched : string;
  r_match_score : Q;
  r_importance_rank : Z;
  r_traditional_score : Q;
  ai_enhanced : bool;
  r_ai_score : Q;
  confidence_level : string
}.

Definition refine (m : Match) : RefinedMatch :=
  {| r_document := document m;
     r_page_number := page_number m;
     refined_text := (_getMatchTypeLabel (match_type m) ++ ": " ++ section_title m)%string;
     topic_matched := topic m;
     r_match_score := match_score m;
     r_importance_rank := importance_rank m;
     r_traditional_score := traditional_score m;
     ai_enhanced := JS.gtb (ai_score m) 0;
     r_ai_score := ai_score m;
     confidence_level := _getConfidenceLevel (match_score m) |}.

Definition generateRefinedAnalysis (matches : list Match) : list RefinedMatch :=
  map refine matches.

End Matcher.

(* ================================================================== *)
(** * main1B.js: the matching step of the pipeline *)
(* ================================================================== *)

Module Pipeline.

Import Matcher.

Record Analysis : Type := {
  filename : string;
  structure : DocumentStructure
}.

(** A result of the PDF processor, by the two fields read here. *)
Record PdfResult : Type := {
  pdf_filename : string;
  pageResults : list Analyzer.PageResult
}.

(** [analyzeDocuments], when every [saveDocumentStructure] succeeds (it
    writes a file; its rejection ends the pipeline).  Of the object pushed
    for a document, the file name and the structure are kept. *)
Definition analyzeDocuments (documentAnalyzer : Analyzer.DocumentAnalyzer)
    (pdfResults : list PdfResult) : list Analysis :=
  map (fun pdfResult =>
         {| filename := pdf_filename pdfResult;
            structure := Analyzer.createDocumentStructure documentAnalyzer
                           (pageResults pdfResult) |})
      pdfResults.

(** [generateRankedTopics] of the pipeline.  Given summaries that are
    objects, the method of the handler answers its own failures, so the
    [catch] of the pipeline is not reached. *)
Definition generateRankedTopics (ollamaHandler : Ollama.OllamaHandler)
    (run : Ollama.Process) (summaries : list Ollama.Summary) (persona task : string)
    : list string :=
  Ollama.generateRankedTopics ollamaHandler run summaries persona task.

Section Matching.

Variables fuzzyMatch cosineSimilarity : string -> string -> Q.
Variable semanticMatcher : SemanticMatcher.

(** The loop of [performSemanticMatching] over the analysed documents. *)
Fixpoint match_documents (fuel : nat) (topics : list string)
    (analysisResults : list Analysis) (allMatches : list Match) (s : State)
    : option (list Match * State) :=
  match analysisResults with
  | [] => Some (allMatches, s)
  | analysis :: rest =>
      match findBestMatches fuzzyMatch cosineSimilarity semanticMatcher fuel
              topics (structure analysis) (filename analysis) s with
      | Some (matches, s') =>
          match_documents fuel topics rest (allMatches ++ matches) s'
      | None => None
      end
  end.

Definition performSemanticMatching (fuel : nat) (topics : list string)
    (analysisResults : list Analysis) (s : State) : option (list Match * State) :=
  match match_documents fuel topics analysisResults [] s with
  | Some (allMatches, s') => Some (JS.sort compare_matches allMatches, s')
  | None => None
  end.

End Matching.

End Pipeline.

(* ================================================================== *)
(** * Judge calls in time *)
(* ================================================================== *)

(** The asynchronous reading of [findBestMatches].

    The methods of [Matcher] above run the judge calls one after the
    other.  The source does not: [batch.map] starts [_findTopicMatches]
    for every topic of a batch, [topCandidates.map] starts the callback of
    every top candidate, and only [await Promise.all] waits.  This module
    gives the code as tasks and the tasks a semantics of their own.

    - An [async] function runs on the spot up to its first [await]
      ([start]): the processes of a [map] are started in the order of the
      array, and a call is issued, and numbered, when the code reaches it.
    - A call that is pending settles whenever the handler pleases
      ([step], first case); the code after the [await] then runs up to its
      next [await].
    - [await Promise.all] goes on when all its promises are fulfilled
      ([step], second case), some time after the last of them was.
    - A task cannot reject.  What rejects in the source is the promise of
      the handler; the callback awaits it inside [try] and answers the
      rejection in [catch], so the continuation of [Await] takes a
      [Completion].
    - The counters of [this.stats] are only ever added to ([Bump]). *)

Module Async.

Import Matcher.

Set Warnings "-register-all".

Inductive Event : Type :=
| Issued (call : nat)
| Settled (call : nat).

Inductive Task (A : Type) : Type :=
| Return (a : A)
| Bump (d : Stats) (k : Task A)
| Await (topic text : string) (k : Completion Q -> Task A)
| AwaitAll (B : Type) (ts : list (Task B)) (k : list B -> Task A).

Arguments Return {A} a.
Arguments Bump {A} d k.
Arguments Await {A} topic text k.
Arguments AwaitAll {A B} ts k.

(** A task under way: done, waiting for a call, or waiting for all of
    several tasks under way. *)
Inductive Proc (A : Type) : Type :=
| Finished (a : A)
| Waiting (call : nat) (topic text : string) (k : Completion Q -> Task A)
| Joining (B : Type) (ps : list (Proc B)) (k : list B -> Task A).

Arguments Finished {A} a.
Arguments Waiting {A} call topic text k.
Arguments Joining {A B} ps k.

(** Induction on a process and on the processes it joins. *)
Section ProcInd.

Variable P : forall A, Proc A -> Prop.
Hypothesis HF : forall A (a : A), P (Finished a).
Hypothesis HW : forall A n topic text (k : Completion Q -> Task A),
    P (Waiting n topic text k).
Hypothesis HJ : forall A B (ps : list (Proc B)) (k : list B -> Task A),
    Forall (@P B) ps -> P (Joining ps k).

Fixpoint Proc_nested_ind A (p : Proc A) : P p :=
  match p with
  | Finished a => HF a
  | Waiting n topic text k => HW n topic text k
  | Joining ps k =>
      HJ k ((fix go (l : list (Proc _)) : Forall (@P _) l :=
               match l with
               | [] => Forall_nil _
               | x :: l' => Forall_cons x (Proc_nested_ind x) (go l')
               end) ps)
  end.

End ProcInd.

(** [stats.x += d.x] for the four counters. *)
Definition plus_stats (d t : Stats) : Stats :=
  {| totalMatches := totalMatches t + totalMatches d;
     aiEnhancedMatches := aiEnhancedMatches t + aiEnhancedMatches d;
     traditionalMatches := traditionalMatches t + traditionalMatches d;
     failedAIMatches := failedAIMatches t + failedAIMatches d |}.

Definition credit (d : Stats) (s : State) : State := on_stats (plus_stats d) s.

Definition total (ds : list Stats) : Stats := fold_right plus_stats zero_stats ds.

Definition at_ (st : Stats) (i : nat) : State := {| stats := st; issued := i |}.

(** Starting the elements of an array in its order. *)
Definition thread {X Y : Type} (f : X -> State -> Y * State * list Event)
  : list X -> State -> list Y * State * list Event :=
  fix go (l : list X) (s : State) :=
    match l with
    | [] => ([], s, [])
    | x :: l' =>
        let '(y, s1, e1) := f x s in
        let '(ys, s2, e2) := go l' s1 in
        (y :: ys, s2, (e1 ++ e2)%list)
    end.

(** The code of a task up to its first [await]s: the process it leaves,
    the state, and the calls issued on the way. *)
Fixpoint start {A} (t : Task A) (s : State) : Proc A * State * list Event :=
  match t with
  | Return a => (Finished a, s, [])
  | Bump d k => start k (credit d s)
  | Await topic text k =>
      (Waiting (issued s) topic text k,
       {| stats := stats s; issued := S (issued s) |},
       [Issued (issued s)])
  | AwaitAll ts k =>
      let '(ps, s', evs) := thread (fun t => start t) ts s in
      (Joining ps k, s', evs)
  end.

(** The values of processes that are all done. *)
Definition results {B} : list (Proc B) -> option (list B) :=
  fix go (l : list (Proc B)) :=
    match l with
    | [] => Some []
    | Finished b :: l' => option_map (cons b) (go l')
    | _ :: _ => None
    end.

(** A step of one element of a list. *)
Definition one_of {X : Type} (R : X -> State -> list Event -> X -> State -> Prop)
  : list X -> State -> list Event -> list X -> State -> Prop :=
  fix go (l : list X) (s : State) (evs : list Event) (l' : list X) (s' : State) : Prop :=
    match l with
    | [] => False
    | x :: r =>
        (exists y, R x s evs y s' /\ l' = y :: r)
        \/ (exists r', go r s evs r' s' /\ l' = x :: r')
    end.

(** The calls a process waits for. *)
Fixpoint pending {A} (p : Proc A) : list nat :=
  match p with
  | Finished _ => []
  | Waiting n _ _ _ => [n]
  | Joining ps _ => flat_map (fun x => pending x) ps
  end.

Definition thread_seq {X Y : Type} (f : X -> State -> Y * State)
  : list X -> State -> list Y * State :=
  fix go (l : list X) (s : State) :=
    match l with
    | [] => ([], s)
    | x :: l' =>
        let '(y, s1) := f x s in
        let '(ys, s2) := go l' s1 in
        (y :: ys, s2)
    end.

Definition all3 {X Y Z : Type} (R : X -> Y -> Z -> Prop)
  : list X -> list Y -> list Z -> Prop :=
  fix go (l1 : list X) (l2 : list Y) (l3 : list Z) : Prop :=
    match l1 with
    | [] => l2 = [] /\ l3 = []
    | x :: l1' =>
        match l2, l3 with
        | y :: l2', z :: l3' => R x y z /\ go l1' l2' l3'
        | _, _ => False
        end
    end.

Section Steps.

(** The handler: the answer to the call of a given number. *)
Variable judge : Judge.

(** One step of a process: a pending call settles, or a [Promise.all]
    whose promises are all fulfilled goes on, here or in one of the
    processes joined. *)
Fixpoint step {A} (p : Proc A) (s : State) (evs : list Event) (p' : Proc A)
    (s' : State) : Prop :=
  match p with
  | Finished _ => False
  | Waiting n topic text k =>
      exists evs', start (k (judge n topic text)) s = (p', s', evs')
                   /\ evs = Settled n :: evs'
  | Joining ps k =>
      (exists rs, results ps = Some rs /\ start (k rs) s = (p', s', evs))
      \/ (exists ps', one_of (fun x => step x) ps s evs ps' s' /\ p' = Joining ps' k)
  end.

Inductive run {A} : Proc A -> State -> list Event -> Proc A -> State -> Prop :=
| run_done : forall p s, run p s [] p s
| run_step : forall p s e1 p1 s1 e2 p2 s2,
    step p s e1 p1 s1 -> run p1 s1 e2 p2 s2 -> run p s (e1 ++ e2) p2 s2.

(** The runs of a task from a state [s]: its start, then steps; [tr] is
    what happened, [p'] and [s'] are where the run stands. *)
Definition execution {A} (t : Task A) (s : State) (tr : list Event) (p' : Proc A)
    (s' : State) : Prop :=
  exists p0 s0 e0 tr',
    start t s = (p0, s0, e0) /\ run p0 s0 tr' p' s' /\ tr = (e0 ++ tr')%list.

(** The task run with every [await] waited for on the spot. *)
Fixpoint result_of {A} (t : Task A) (s : State) : A * State :=
  match t with
  | Return a => (a, s)
  | Bump d k => result_of k (credit d s)
  | Await topic text k =>
      result_of (k (judge (issued s) topic text))
                {| stats := stats s; issued := S (issued s) |}
  | AwaitAll ts k =>
      let '(rs, s') := thread_seq (fun t => result_of t) ts s in
      result_of (k rs) s'
  end.

(** A process that issues no further call: the value it ends with, and
    what it still adds to the counters. *)
Fixpoint outcome {A} (p : Proc A) (a : A) (d : Stats) : Prop :=
  match p with
  | Finished a' => a' = a /\ d = zero_stats
  | Waiting n topic text k =>
      forall s, start (k (judge n topic text)) s = (Finished a, credit d s, [])
  | Joining ps k =>
      exists rs ds dk,
        all3 (fun x => outcome x) ps rs ds
        /\ (forall s, start (k rs) s = (Finished a, credit dk s, []))
        /\ d = plus_stats dk (total ds)
  end.

(** What a step of a process with an outcome does. *)
Definition calm_step {A} (p : Proc A) : Prop :=
  forall a d, outcome p a d ->
  forall s evs p' s', step p s evs p' s' ->
    exists d', outcome p' a d'
               /\ credit d' s' = credit d s
               /\ ((evs = [] /\ pending p' = pending p)
                   \/ exists n l1 l2, evs = [Settled n]
                                      /\ pending p = (l1 ++ n :: l2)%list
                                      /\ pending p' = (l1 ++ l2)%list).

Definition completes {A} (p : Proc A) : Prop :=
  forall a d, outcome p a d ->
  forall s, exists tr, run p s tr (Finished a) (credit d s).

(** A task without [await]. *)
Definition quiet {A} (t : Task A) : Prop :=
  exists a d, forall s,
    start t s = (Finished a, credit d s, [])
    /\ result_of t s = (a, credit d s).

(** A task that issues its calls when it starts, [n] of them, and none
    later. *)
Definition prompt {A} (t : Task A) : Prop :=
  forall i, exists a d0 d n, forall st,
    exists p,
      start t (at_ st i) = (p, credit d0 (at_ st (i + n)), map Issued (seq i n))
      /\ outcome p a d
      /\ pending p = seq i n
      /\ result_of t (at_ st i) = (a, credit (plus_stats d d0) (at_ st (i + n))).

(** A task made of phases: [Promise.all] of prompt tasks, one after the
    other. *)
Fixpoint phased {A} (t : Task A) : Prop :=
  match t with
  | Return _ => True
  | AwaitAll ts k => Forall (fun t => prompt t) ts /\ forall rs, phased (k rs)
  | _ => False
  end.

(** The numbers of the calls of each phase. *)
Fixpoint phases {A} (t : Task A) (s : State) : list (list nat) :=
  match t with
  | AwaitAll ts k =>
      let '(rs, s') := thread_seq (fun t => result_of t) ts s in
      seq (issued s) (issued s' - issued s) :: phases (k rs) s'
  | _ => []
  end.

End Steps.

(** What a sequence of events does to the pending calls. *)
Definition settles (l : list nat) (tr : list Event) (l' : list nat) : Prop :=
  (forall e, In e tr -> exists n, e = Settled n /\ In n l)
  /\ (forall n, In n l -> In (Settled n) tr \/ In n l')
  /\ (forall n, In n l' -> In n l).

(** Whenever a call of a later group is issued, every call of an earlier
    group has settled. *)
Definition ordered (calls : list (list nat)) (tr : list Event) : Prop :=
  forall N N' cs cs' c c',
    (N < N')%nat ->
    nth_error calls N = Some cs -> nth_error calls N' = Some cs' ->
    In c cs -> In c' cs' ->
    forall tr1 tr2, tr = (tr1 ++ Issued c' :: tr2)%list -> In (Settled c) tr1.

(** The events are events of the calls. *)
Definition of_calls (calls : list (list nat)) (tr : list Event) : Prop :=
  forall e, In e tr ->
    exists c, (e = Issued c \/ e = Settled c) /\ In c (List.concat calls).

(** Every call was issued and has settled. *)
Definition all_calls (calls : list (list nat)) (tr : list Event) : Prop :=
  forall c, In c (List.concat calls) -> In (Issued c) tr /\ In (Settled c) tr.

(** ** The methods as tasks *)

Section Program.

Variables fuzzyMatch cosineSimilarity : string -> string -> Q.
Variable this : SemanticMatcher.

(** [this.ollamaHandler], where the code calls it. *)
Definition handler_of : Judge :=
  match ollamaHandler this with
  | Some judge => judge
  | None => fun _ _ _ => Throw EmptyString
  end.

Definition one_aiEnhanced : Stats :=
  {| totalMatches := 0; aiEnhancedMatches := 1;
     traditionalMatches := 0; failedAIMatches := 0 |}.

Definition one_failedAI : Stats :=
  {| totalMatches := 0; aiEnhancedMatches := 0;
     traditionalMatches := 0; failedAIMatches := 1 |}.

Definition counted_matches (traditional : bool) (n : nat) : Stats :=
  {| totalMatches := n; aiEnhancedMatches := 0;
     traditionalMatches := if traditional then n else 0;
     failedAIMatches := 0 |}.

(** The callback mapped over [topCandidates]. *)
Definition judge_task (topic : string) (c : Candidate) : Task Candidate :=
  Await topic (e_text (element c))
    (fun r => match r with
              | Normal a => Bump one_aiEnhanced (Return (set_aiScore c a))
              | Throw _ => Bump one_failedAI (Return c)
              end).

(** The last loop of [_findTopicMatches] and the lines after it. *)
Definition emit_task (filename topic : string) (topicIndex : Z)
    (candidates : list Candidate) : Task (list Match) :=
  let matches := fold_left (emit_step this filename topic topicIndex) candidates [] in
  Bump (counted_matches (negb (ai_enabled this)) (List.length matches))
       (Return matches).

Definition findTopicMatches_task (topic : string) (searchIndex : list Element)
    (filename : string) (topicIndex : Z) : Task (list Match) :=
  let candidates := sorted_candidates fuzzyMatch cosineSimilarity this topic searchIndex in
  let topCandidates := JS.slice candidates 0 5 in
  match ollamaHandler this with
  | Some _ =>
      if aiEnhancedMode (config this) && (0 <? List.length topCandidates)%nat
      then AwaitAll (map (judge_task topic) topCandidates)
             (fun judged =>
                emit_task filename topic topicIndex
                  (judged ++ skipn (List.length topCandidates) candidates))
      else emit_task filename topic topicIndex candidates
  | None => emit_task filename topic topicIndex candidates
  end.

(** The loop over the batches, and the sort after it. *)
Fixpoint batches_task (topics : list string) (searchIndex : list Element)
    (filename : string) (topicBatches : list (list string)) (matches : list Match)
    : Task (list Match) :=
  match topicBatches with
  | [] => Return (JS.sort compare_matches matches)
  | batch :: rest =>
      AwaitAll
        (map (fun topic =>
                findTopicMatches_task topic searchIndex filename
                  (JS.indexOf topics topic))
             batch)
        (fun batchResults =>
           batches_task topics searchIndex filename rest
             (matches ++ List.concat batchResults))
  end.

(** [findBestMatches]; [None] when the loop of [_createBatches] does not
    end within [fuel] iterations. *)
Definition findBestMatches_task (fuel : nat) (topics : list string)
    (documentStructure : DocumentStructure) (filename : string)
    : option (Task (list Match)) :=
  let searchIndex := _createSearchIndex documentStructure in
  match _createBatches fuel topics (maxConcurrentAIRequests (config this)) with
  | Some topicBatches => Some (batches_task topics searchIndex filename topicBatches [])
  | None => None
  end.

(** ** The calls of a batch *)

(** The state after a batch, by the methods of [Matcher]. *)
Definition after_batch (topics : list string) (searchIndex : list Element)
    (filename : string) (batch : list string) (s : State) : State :=
  snd (run_batch fuzzyMatch cosineSimilarity this topics searchIndex filename batch s).

(** The numbers of the judge calls a batch makes from state [s]. *)
Definition batch_calls (topics : list string) (searchIndex : list Element)
    (filename : string) (batch : list string) (s : State) : list nat :=
  seq (issued s) (issued (after_batch topics searchIndex filename batch s) - issued s).

(** The calls of each iteration of the loop over the batches. *)
Fixpoint calls_per_batch (topics : list string) (searchIndex : list Element)
    (filename : string) (topicBatches : list (list string)) (s : State)
    : list (list nat) :=
  match topicBatches with
  | [] => []
  | batch :: rest =>
      batch_calls topics searchIndex filename batch s
      :: calls_per_batch topics searchIndex filename rest
           (after_batch topics searchIndex filename batch s)
  end.

End Program.

End Async.

(* ================================================================== *)
(** * The vocabulary of the properties *)
(* ================================================================== *)

Module Spec.

Import Matcher.

(** The order a comparator stands for. *)
Definition before {A : Type} (cmp : A -> A -> Q) (x y : A) : Prop := cmp x y <= 0.

(** What the specification asks of a section of the structure. *)
Definition worth_keeping (s : Section) : Prop :=
  s_content s <> [] \/ (3 < String.length (s_title s))%nat.

Definition unit_valued (f : string -> string -> Q) : Prop :=
  forall a b, 0 <= f a b <= 1.

Definition default_weights (c : Config) : Prop :=
  fuzzyWeight c == 3 # 10 /\ cosineWeight c == 4 # 10 /\ aiWeight c == 3 # 10.

Definition scores_in_unit (m : Match) : Prop :=
  0 <= match_score m <= 1
  /\ 0 <= traditional_score m <= 1
  /\ 0 <= ai_score m <= 1.

(** [a] may stand before [b]: a smaller importance rank, or the same rank
    and a match score that is not smaller. *)
Definition ranked_before (a b : Match) : Prop :=
  (importance_rank a < importance_rank b)%Z
  \/ (importance_rank a = importance_rank b /\ match_score b <= match_score a).

(** Two entries with the same type, text, page, section and importance. *)
Definition same_entry (a b : Element) : Prop :=
  e_type a = e_type b
  /\ e_text a = e_text b
  /\ e_page a = e_page b
  /\ e_section a = e_section b
  /\ e_importance a == e_importance b.

(** The content items on which the two indexes agree. *)
Definition agreeing (c : Content) : Prop :=
  (10 < String.length (c_text c))%nat
  /\ In (c_type c) [Text; Caption; Footnote; Picture].

(** A process none of whose runs succeeds. *)
Definition always_rejected (run : Ollama.Process) : Prop :=
  forall prompt timeout attempt, exists msg, run prompt timeout attempt = Ollama.Rejected msg.

(** Two states with the same count of failed judge calls. *)
Definition same_failures (s s' : State) : Prop :=
  failedAIMatches (stats s') = failedAIMatches (stats s).

(** The number of batches of width [w] for [n] items: [n / w], rounded up. *)
Definition batch_count (w n : nat) : nat := ((n + w - 1) / w)%nat.

Section Candidates.

Variables fuzzyMatch cosineSimilarity : string -> string -> Q.
Variable this : SemanticMatcher.

(** The final score of a candidate. *)
Definition final_score (c : Candidate) : Q :=
  _calculateFinalScore this (traditionalScore c) (aiScore c).

(** The candidate made of an element in the first loop of
    [_findTopicMatches], and the test it has to pass. *)
Definition fresh_candidate (topic : string) (e : Element) : Candidate :=
  {| element := e;
     traditionalScore :=
       _calculateTraditionalScore fuzzyMatch cosineSimilarity this topic (e_text e);
     aiScore := 0 |}.

Definition scores_positive (topic : string) (e : Element) : bool :=
  JS.gtb (_calculateTraditionalScore fuzzyMatch cosineSimilarity this topic (e_text e)) 0.

(** The match made of a candidate in the last loop, and the test the
    candidate has to pass. *)
Definition passes (c : Candidate) : bool :=
  JS.geb (final_score c) (minMatchScore (config this)).

Definition match_of (filename topic : string) (topicIndex : Z) (c : Candidate) : Match :=
  make_match filename topic topicIndex c (final_score c).

(** A candidate of a topic over a search index: an element of the index
    with its positive traditional score, and an AI score that is the
    initial 0 or the answer of the handler to a call for this pair. *)
Definition candidate_of (searchIndex : list Element) (topic : string) (c : Candidate) : Prop :=
  In (element c) searchIndex
  /\ traditionalScore c
     = _calculateTraditionalScore fuzzyMatch cosineSimilarity this topic (e_text (element c))
  /\ 0 < traditionalScore c
  /\ (aiScore c = 0
      \/ exists judge n, ollamaHandler this = Some judge
                         /\ aiEnhancedMode (config this) = true
                         /\ judge n topic (e_text (element c)) = Normal (aiScore c)).

(** A match emitted for a topic: the record built from a candidate whose
    final score reaches [minMatchScore]. *)
Definition emitted_for (searchIndex : list Element) (filename topic : string)
    (topicIndex : Z) (m : Match) : Prop :=
  exists c, candidate_of searchIndex topic c
            /\ minMatchScore (config this) <= final_score c
            /\ m = match_of filename topic topicIndex c.

(** A match emitted by a run over [topics]. *)
Definition emitted (topics : list string) (searchIndex : list Element)
    (filename : string) (m : Match) : Prop :=
  exists topic, In topic topics
                /\ emitted_for searchIndex filename topic (JS.indexOf topics topic) m.

End Candidates.

End Spec.

Import Spec.

(* ================================================================== *)
(** * Further vocabulary *)
(* ================================================================== *)

Module Terms.

Import Matcher.

(** A string that [trim] leaves as it is. *)
Definition trimmed (s : string) : Prop := JS.trim s = s.

(** The run made at attempt [k] answers [out]: the process resolves with an
    output that is not blank. *)
Definition answers (run : Ollama.Process) (prompt : string) (timeout : Q)
    (k : nat) (out : string) : Prop :=
  run prompt timeout k = Ollama.Resolved out /\ JS.trim out <> EmptyString.

(** The run made at attempt [k] fails: it is rejected, or its output is
    blank. *)
Definition fails (run : Ollama.Process) (prompt : string) (timeout : Q) (k : nat) : Prop :=
  forall out, ~ answers run prompt timeout k out.

(** A character [_cleanText] may leave: one of the allowed characters, and
    no white space other than the plain space. *)
Definition clean_char (c : ascii) : Prop :=
  Analyzer.is_allowed c = true /\ (JS.is_space c = true -> c = " "%char).

(** A content item and the detection it was made of: a detection of one of
    the pages, labelled Text, List-item or Caption, with a text that
    [_cleanText] leaves at least [minTextLength] characters of.  The item
    has the label, the cleaned text, the confidence and the box of the
    detection, and the number of its page. *)
Definition content_kept (an : Analyzer.DocumentAnalyzer) (pages : list Analyzer.PageResult)
    (c : Content) : Prop :=
  exists p d,
    In p pages /\ In d (Analyzer.detections p)
    /\ In (Analyzer.label d) [Text; ListItem; Caption]
    /\ Analyzer.extractedText d <> EmptyString
    /\ Analyzer.minTextLength an
       <= inject_Z (Z.of_nat (String.length
                                (Analyzer._cleanText (Analyzer.extractedText d))))
    /\ c = {| c_type := Analyzer.label d;
              c_text := Analyzer._cleanText (Analyzer.extractedText d);
              c_page := Analyzer.pageNumber p;
              c_confidence := Analyzer.confidence d;
              c_bbox := Analyzer.bbox d |}.

(** A section and the detection that opened it: a detection of one of the
    pages, labelled Section-header, with a text and a confidence that
    reaches [sectionThreshold].  The section has the cleaned text of the
    detection for a title, its confidence and its box, and the number of
    its page. *)
Definition header_kept (an : Analyzer.DocumentAnalyzer) (pages : list Analyzer.PageResult)
    (s : Section) : Prop :=
  exists p d,
    In p pages /\ In d (Analyzer.detections p)
    /\ Analyzer.label d = SectionHeader
    /\ Analyzer.sectionThreshold an <= Analyzer.confidence d
    /\ Analyzer.extractedText d <> EmptyString
    /\ s_title s = Analyzer._cleanText (Analyzer.extractedText d)
    /\ s_page s = Analyzer.pageNumber p
    /\ s_confidence s = Analyzer.confidence d
    /\ s_bbox s = Analyzer.bbox d.

(** A section as the scan makes them, content apart. *)
Definition section_opened (an : Analyzer.DocumentAnalyzer) (pages : list Analyzer.PageResult)
    (s : Section) : Prop :=
  Forall (content_kept an pages) (s_content s)
  /\ s_elementCount s = List.length (s_content s)
  /\ header_kept an pages s.

(** A section of the structure: opened by the scan, and not empty. *)
Definition section_kept (an : Analyzer.DocumentAnalyzer) (pages : list Analyzer.PageResult)
    (s : Section) : Prop :=
  s_content s <> [] /\ section_opened an pages s.

(** The number of detections whose label passes a test. *)
Definition tally (test : Label -> bool) (ds : list Analyzer.Detection) : nat :=
  List.length (filter (fun d => test (Analyzer.label d)) ds).

Definition count_labels (test : Label -> bool) (pages : list Analyzer.PageResult) : nat :=
  tally test (flat_map Analyzer.detections pages).

(** The four counters after more detections [ds] have been read. *)
Definition counted (m : Metadata) (ds : list Analyzer.Detection) : Metadata :=
  {| totalElements := totalElements m + tally (fun _ => true) ds;
     textElements :=
       textElements m + tally (fun l => label_eqb l Text || label_eqb l ListItem) ds;
     sectionHeaders := sectionHeaders m + tally (fun l => label_eqb l SectionHeader) ds;
     titles := titles m + tally (fun l => label_eqb l Title) ds |}.

(** A detection the scan can take the document title from. *)
Definition title_detection (an : Analyzer.DocumentAnalyzer) (pages : list Analyzer.PageResult)
    (t : string) : Prop :=
  exists p d, In p pages /\ In d (Analyzer.detections p)
              /\ Analyzer.label d = Title
              /\ Analyzer.titleThreshold an <= Analyzer.confidence d
              /\ Analyzer.extractedText d <> EmptyString
              /\ t = Analyzer._cleanText (Analyzer.extractedText d).

(** What holds of the scan after every detection. *)
Definition scan_invariant (an : Analyzer.DocumentAnalyzer) (pages : list Analyzer.PageResult)
    (st : Analyzer.Scan) : Prop :=
  Forall (section_kept an pages) (Analyzer.sc_sections st)
  /\ (forall cur, Analyzer.sc_current st = Some cur -> section_opened an pages cur).

(** A match that carries a score of the judge. *)
Definition ai_scored (m : Match) : bool := negb (Qeq_bool (ai_score m) 0).

(** The judge calls made between two states. *)
Definition calls_between (s s' : State) : nat := (issued s' - issued s)%nat.

(** The judge calls that returned or failed, as the statistics count them. *)
Definition settled_calls (t : Stats) : nat :=
  (aiEnhancedMatches t + failedAIMatches t)%nat.

(** The state [s'] that [n] judge calls make of [s]. *)
Definition judged_state (n : nat) (s s' : State) : Prop :=
  issued s' = (issued s + n)%nat
  /\ totalMatches (stats s') = totalMatches (stats s)
  /\ traditionalMatches (stats s') = traditionalMatches (stats s)
  /\ settled_calls (stats s') = (settled_calls (stats s) + n)%nat.

(** The books of a run over [k] topics that led from [s] to [s'] and gave
    the matches [ms]. *)
Definition accounted (this : SemanticMatcher) (k : nat) (s s' : State)
    (ms : list Match) : Prop :=
  (issued s <= issued s' <= issued s + 5 * k)%nat
  /\ (ai_enabled this = false -> issued s' = issued s)
  /\ totalMatches (stats s') = (totalMatches (stats s) + List.length ms)%nat
  /\ traditionalMatches (stats s')
     = (traditionalMatches (stats s)
        + if ai_enabled this then 0 else List.length ms)%nat
  /\ settled_calls (stats s') = (settled_calls (stats s) + calls_between s s')%nat
  /\ (List.length (filter ai_scored ms) <= calls_between s s')%nat.

(** What a match cites of an entry of the search index. *)
Definition cites (filename : string) (e : Element) (m : Match) : Prop :=
  document m = filename
  /\ section_title m = _truncateText (e_text e) 100
  /\ page_number m = e_page e
  /\ match_type m = e_type e
  /\ element_importance m = e_importance e
  /\ m_bbox m = e_bbox e.

(** An index entry of a document with the given pages: it is on page 1 or
    on one of the pages, and its type is one of five. *)
Definition from_pages (pages : list Analyzer.PageResult) (e : Element) : Prop :=
  (e_page e = 1%Z \/ In (e_page e) (map Analyzer.pageNumber pages))
  /\ In (e_type e)
        ["title"; "section-header"; "text"; "list_item"; "caption"]%string.

(** A match that points into one of the processed documents. *)
Definition points_into (pdfResults : list Pipeline.PdfResult) (m : Match) : Prop :=
  exists pdfResult,
    In pdfResult pdfResults
    /\ document m = Pipeline.pdf_filename pdfResult
    /\ (page_number m = 1%Z
        \/ In (page_number m)
              (map Analyzer.pageNumber (Pipeline.pageResults pdfResult)))
    /\ In (match_type m)
          ["title"; "section-header"; "text"; "list_item"; "caption"]%string.

(** The order of the matches, read on the entries of the refined analysis. *)
Definition refined_before (a b : RefinedMatch) : Prop :=
  (r_importance_rank a < r_importance_rank b)%Z
  \/ (r_importance_rank a = r_importance_rank b /\ r_match_score b <= r_match_score a).

End Terms.

Import Terms.

(* ================================================================== *)
(** * Sample inputs *)
(* ================================================================== *)

Module Samples.

Import Matcher.
Open Scope string_scope.

(** A judge that finds everything fully relevant. *)
Definition eager_judge : Judge := fun _ _ _ => Normal 1.

(** A matcher with a handler, its AI mode switched off by the options. *)
Definition mode_off : SemanticMatcher :=
  constructor (Some eager_judge)
    {| o_minMatchScore := None; o_aiEnhancedMode := Some false;
       o_fuzzyWeight := None; o_cosineWeight := None; o_aiWeight := None;
       o_maxConcurrentAIRequests := None; o_timeoutMs := None |}.

(** The matcher of the pipeline without a handler. *)
Definition plain : SemanticMatcher := constructor None no_options.

(** Similarity functions with a constant value. *)
Definition always (q : Q) : string -> string -> Q := fun _ _ => q.

(** An external process that times out at every attempt, and one that
    answers at once. *)
Definition silent : nat -> Ollama.Process :=
  fun _ _ _ _ => Ollama.Rejected "Ollama timeout after 30000ms".

Definition helpful : nat -> Ollama.Process :=
  fun _ _ _ _ => Ollama.Resolved "0.75".

(** The pipeline's matcher in front of a given process. *)
Definition with_ollama (world : nat -> Ollama.Process) : SemanticMatcher :=
  constructor (pipeline_handler (Some (Ollama.constructor None, world))) no_options.

(** The detections of scenario A of the specification, on page 3. *)
Definition guide_page : Analyzer.PageResult :=
  {| Analyzer.pageNumber := 3;
     Analyzer.detections :=
       [ {| Analyzer.label := Title;
            Analyzer.extractedText := "Form Design Guide";
            Analyzer.confidence := 9 # 10;
            Analyzer.bbox := None;
            Analyzer.center := (300, 50) |};
         {| Analyzer.label := SectionHeader;
            Analyzer.extractedText := "Create Fillable PDFs";
            Analyzer.confidence := 85 # 100;
            Analyzer.bbox := None;
            Analyzer.center := (300, 120) |};
         {| Analyzer.label := Text;
            Analyzer.extractedText := "Use the Prepare Form tool to add fields.";
            Analyzer.confidence := 7 # 10;
            Analyzer.bbox := None;
            Analyzer.center := (300, 200) |} ] |}.

Definition default_analyzer : Analyzer.DocumentAnalyzer :=
  Analyzer.constructor
    {| Analyzer.o_minTextLength := None;
       Analyzer.o_sectionThreshold := None;
       Analyzer.o_titleThreshold := None |}.

Definition guide : DocumentStructure :=
  Analyzer.createDocumentStructure default_analyzer [guide_page].

(** Similarity by the length of the text, in hundredths. *)
Definition verbosity : string -> string -> Q :=
  fun _ text => inject_Z (Z.of_nat (String.length text)) / 100.

(** A matcher without a handler whose threshold is not a multiple of 1/1000. *)
Definition fussy : SemanticMatcher :=
  constructor None (with_minMatchScore (Some (1004 # 10000)) no_options).

(** A page with a section made of one list item. *)
Definition checklist_page : Analyzer.PageResult :=
  {| Analyzer.pageNumber := 1;
     Analyzer.detections :=
       [ {| Analyzer.label := SectionHeader;
            Analyzer.extractedText := "Before You Send";
            Analyzer.confidence := 9 # 10;
            Analyzer.bbox := None;
            Analyzer.center := (300, 100) |};
         {| Analyzer.label := ListItem;
            Analyzer.extractedText := "Fill in every required field";
            Analyzer.confidence := 9 # 10;
            Analyzer.bbox := None;
            Analyzer.center := (300, 200) |} ] |}.

Definition checklist : DocumentStructure :=
  Analyzer.createDocumentStructure default_analyzer [checklist_page].

(** A page whose section header has two characters. *)
Definition faq_page : Analyzer.PageResult :=
  {| Analyzer.pageNumber := 1;
     Analyzer.detections :=
       [ {| Analyzer.label := SectionHeader;
            Analyzer.extractedText := "Q1";
            Analyzer.confidence := 9 # 10;
            Analyzer.bbox := None;
            Analyzer.center := (300, 100) |};
         {| Analyzer.label := Text;
            Analyzer.extractedText := "Which fields can a fillable form have?";
            Analyzer.confidence := 9 # 10;
            Analyzer.bbox := None;
            Analyzer.center := (300, 200) |} ] |}.

Definition faq : DocumentStructure :=
  Analyzer.createDocumentStructure default_analyzer [faq_page].

(** A handler whose promise rejects. *)
Definition rejecting_judge : Judge := fun _ _ _ => Throw "judge unavailable".

Definition with_rejecting_judge : SemanticMatcher :=
  constructor (Some rejecting_judge) no_options.

(** A handler whose first call is rejected and whose later calls answer,
    and a candidate with a given text. *)
Definition moody_judge : Judge :=
  fun n _ _ => match n with 0%nat => Throw "timeout" | _ => Normal (3 # 4) end.

Definition entry (text : string) : Candidate :=
  {| element := {| e_type := "text"; e_text := text; e_page := 1%Z;
                   e_section := None; e_importance := 6 # 10; e_bbox := None |};
     traditionalScore := 1 # 2;
     aiScore := 0 |}.

(** Five topics, and a structure with a single section header. *)
Definition five_topics : list string :=
  ["Form Creation"; "Compliance Requirements"; "Data Collection Fields";
   "Signatures"; "Sharing Forms"].

Definition one_header : DocumentStructure :=
  {| title := None;
     sections := [ {| s_title := "Create Fillable PDFs"; s_page := 3;
                      s_confidence := 85 # 100; s_bbox := None; s_content := [];
                      s_wordCount := 0; s_elementCount := 0; s_index := Some 1%Z |} ];
     metadata := {| totalElements := 1; textElements := 0;
                    sectionHeaders := 1; titles := 0 |} |}.

End Samples.

(* ================================================================== *)
(** * Properties of the primitives *)
(* ================================================================== *)

Module JSFacts.

Import JS.

Lemma ltb_lt (a b : Q) : ltb a b = true <-> a < b.
Proof.
  unfold ltb. rewrite negb_true_iff. split; intro H.
  - apply Qnot_le_lt. intro L. apply Qle_bool_iff in L. congruence.
  - destruct (Qle_bool b a) eqn:E; auto.
    apply Qle_bool_iff in E. exfalso. exact (Qlt_not_le _ _ H E).
Qed.

Lemma gtb_gt (a b : Q) : gtb a b = true <-> b < a.
Proof. unfold gtb. apply (ltb_lt b a). Qed.

Lemma geb_ge (a b : Q) : geb a b = true <-> b <= a.
Proof. unfold geb. apply Qle_bool_iff. Qed.

Lemma truthy_false (q : Q) : truthy q = false <-> q == 0.
Proof.
  unfold truthy. rewrite negb_false_iff. apply Qeq_bool_iff.
Qed.

Lemma or_default_nonzero (v : option Q) (d : Q) : ~ d == 0 -> ~ or_default v d == 0.
Proof.
  intros Hd. unfold or_default. destruct v as [q|]; auto.
  destruct (truthy q) eqn:E; auto.
  intro H. apply truthy_false in H. congruence.
Qed.

Lemma math_min_le_l (a b : Q) : math_min a b <= a.
Proof.
  unfold math_min. destruct (Qle_bool a b) eqn:E.
  - apply Qle_refl.
  - apply Qlt_le_weak. apply Qnot_le_lt. intro L.
    apply Qle_bool_iff in L. congruence.
Qed.

Lemma math_max_ge_l (a b : Q) : a <= math_max a b.
Proof.
  unfold math_max. destruct (Qle_bool a b) eqn:E.
  - now apply Qle_bool_iff.
  - apply Qle_refl.
Qed.

Lemma math_max_lub (a b c : Q) : a <= c -> b <= c -> math_max a b <= c.
Proof. intros. unfold math_max. now destruct (Qle_bool a b). Qed.

(** Clamping, as [getSemanticRelevance] does it. *)
Lemma clamp_unit (x : Q) : 0 <= math_max 0 (math_min 1 x) <= 1.
Proof.
  split.
  - apply math_max_ge_l.
  - apply math_max_lub; [ discriminate | apply math_min_le_l ].
Qed.

(** ** Rounding to three decimals *)

Lemma round_half_up_bounds (x : Q) :
  inject_Z (round_half_up x) <= x + (1 # 2) /\ x - (1 # 2) < inject_Z (round_half_up x).
Proof.
  unfold round_half_up. split.
  - apply Qfloor_le.
  - pose proof (Qlt_floor (x + (1 # 2))) as H.
    rewrite inject_Z_plus in H.
    apply Qplus_lt_l with (z := 1).
    eapply Qle_lt_trans; [ | exact H ].
    ring_simplify. apply Qle_refl.
Qed.

Lemma round_half_up_int (z : Z) : round_half_up (inject_Z z) = z.
Proof.
  unfold round_half_up.
  assert (H1 : (z <= Qfloor (inject_Z z + (1 # 2)))%Z).
  { rewrite <- (Qfloor_Z z) at 1. apply Qfloor_resp_le.
    rewrite <- (Qplus_0_r (inject_Z z)) at 1.
    apply Qplus_le_r. discriminate. }
  assert (H2 : (Qfloor (inject_Z z + (1 # 2)) < z + 1)%Z).
  { rewrite Zlt_Qlt.
    eapply Qle_lt_trans; [ apply Qfloor_le | ].
    rewrite inject_Z_plus. apply Qplus_lt_r. reflexivity. }
  lia.
Qed.

Lemma round_half_up_mono (x y : Q) : x <= y -> (round_half_up x <= round_half_up y)%Z.
Proof.
  intro H. unfold round_half_up. apply Qfloor_resp_le.
  now apply Qplus_le_l.
Qed.

Lemma toFixed3_nonneg (x : Q) :
  0 <= x -> toFixed3 x = inject_Z (round_half_up (x * 1000)) / 1000.
Proof.
  intro H. unfold toFixed3.
  destruct (ltb x 0) eqn:E; auto.
  apply ltb_lt in E. exfalso. exact (Qlt_not_le _ _ E H).
Qed.

Lemma div1000_le (a b : Q) : a <= b -> a / 1000 <= b / 1000.
Proof.
  intro H. unfold Qdiv. apply Qmult_le_compat_r; auto. discriminate.
Qed.

(** Rounding is monotone on the non-negative numbers. *)
Lemma toFixed3_mono (x y : Q) : 0 <= x -> x <= y -> toFixed3 x <= toFixed3 y.
Proof.
  intros Hx Hxy.
  rewrite (toFixed3_nonneg Hx), (toFixed3_nonneg (Qle_trans _ _ _ Hx Hxy)).
  apply div1000_le. rewrite <- Zle_Qle. apply round_half_up_mono.
  apply Qmult_le_compat_r; auto. discriminate.
Qed.

(** A multiple of 1/1000 is its own rounding. *)
Lemma toFixed3_thousandth (k : Z) :
  (0 <= k)%Z -> toFixed3 (inject_Z k / 1000) == inject_Z k / 1000.
Proof.
  intro Hk.
  assert (H0 : 0 <= inject_Z k / 1000).
  { apply Qle_trans with (0 / 1000); [ discriminate | ].
    apply div1000_le. change 0 with (inject_Z 0). now rewrite <- Zle_Qle. }
  rewrite (toFixed3_nonneg H0).
  assert (E : inject_Z k / 1000 * 1000 == inject_Z k) by (field).
  assert (R : round_half_up (inject_Z k / 1000 * 1000) = k).
  { rewrite <- (round_half_up_int k) at 2.
    unfold round_half_up. apply Qfloor_comp. now rewrite E. }
  now rewrite R.
Qed.

Lemma toFixed3_unit (x : Q) : 0 <= x <= 1 -> 0 <= toFixed3 x <= 1.
Proof.
  intros [H0 H1]. split.
  - assert (E : toFixed3 0 == 0) by reflexivity.
    rewrite <- E. apply toFixed3_mono; auto. apply Qle_refl.
  - assert (E : toFixed3 1 == 1) by reflexivity.
    rewrite <- E. now apply toFixed3_mono.
Qed.

(** Rounding moves a non-negative number by at most 1/2000. *)
Lemma toFixed3_close (x : Q) : 0 <= x -> x - (1 # 2000) < toFixed3 x.
Proof.
  intro H. rewrite (toFixed3_nonneg H).
  destruct (round_half_up_bounds (x * 1000)) as [_ L].
  apply Qmult_lt_r with (z := 1000); [ reflexivity | ].
  assert (E : inject_Z (round_half_up (x * 1000)) / 1000 * 1000
              == inject_Z (round_half_up (x * 1000))) by field.
  assert (E2 : (x - (1 # 2000)) * 1000 == x * 1000 - (1 # 2)) by ring.
  rewrite E, E2. exact L.
Qed.

Lemma toFixed3_neg (x : Q) :
  x < 0 -> toFixed3 x = - (inject_Z (round_half_up ((- x) * 1000)) / 1000).
Proof.
  intro H. unfold toFixed3. apply ltb_lt in H. now rewrite H.
Qed.

Lemma toFixed3_sign (x : Q) : (0 <= x -> 0 <= toFixed3 x) /\ (x < 0 -> toFixed3 x <= 0).
Proof.
  split; intro H.
  - assert (E : toFixed3 0 == 0) by reflexivity.
    rewrite <- E. apply toFixed3_mono; auto. apply Qle_refl.
  - rewrite (toFixed3_neg H).
    assert (P : 0 <= inject_Z (round_half_up (- x * 1000)) / 1000).
    { apply Qle_trans with (0 / 1000); [ discriminate | ].
      apply div1000_le. change 0 with (inject_Z 0). rewrite <- Zle_Qle.
      change 0%Z with (round_half_up 0). apply round_half_up_mono. lra. }
    lra.
Qed.

(** Rounding is monotone. *)
Lemma toFixed3_monotone (x y : Q) : x <= y -> toFixed3 x <= toFixed3 y.
Proof.
  intro Hxy.
  destruct (Qlt_le_dec x 0) as [Hx | Hx]; [ | now apply toFixed3_mono ].
  destruct (Qlt_le_dec y 0) as [Hy | Hy].
  - rewrite (toFixed3_neg Hx), (toFixed3_neg Hy).
    apply Qopp_le_compat. apply div1000_le. rewrite <- Zle_Qle.
    apply round_half_up_mono. lra.
  - apply Qle_trans with 0.
    + now apply toFixed3_sign.
    + now apply toFixed3_sign.
Qed.

(** Every multiple of 1/1000 is its own rounding. *)
Lemma toFixed3_fixed (k : Z) : toFixed3 (inject_Z k / 1000) == inject_Z k / 1000.
Proof.
  destruct (Z.le_gt_cases 0 k) as [H | H]; [ now apply toFixed3_thousandth | ].
  assert (N : inject_Z k / 1000 < 0).
  { apply Qlt_shift_div_r; [ reflexivity | ].
    rewrite Qmult_0_l. change 0 with (inject_Z 0). rewrite <- Zlt_Qlt. lia. }
  rewrite (toFixed3_neg N).
  assert (E : - (inject_Z k / 1000) * 1000 == inject_Z (- k)).
  { rewrite inject_Z_opp. field. }
  assert (R : round_half_up (- (inject_Z k / 1000) * 1000) = (- k)%Z).
  { rewrite <- (round_half_up_int (- k)).
    unfold round_half_up. apply Qfloor_comp. now rewrite E. }
  rewrite R, inject_Z_opp. field.
Qed.

(** Rounding lowers a number by at most 1/2000. *)
Lemma toFixed3_near (x : Q) : x - (1 # 2000) <= toFixed3 x.
Proof.
  destruct (Qlt_le_dec x 0) as [Hx | Hx].
  - rewrite (toFixed3_neg Hx).
    destruct (round_half_up_bounds (- x * 1000)) as [U _].
    apply (div1000_le) in U.
    assert (E : (- x * 1000 + (1 # 2)) / 1000 == - x + (1 # 2000)) by field.
    rewrite E in U. lra.
  - apply Qlt_le_weak. now apply toFixed3_close.
Qed.

End JSFacts.

Module ArrayFacts.

Import JS.

Section Sorting.

Variable A : Type.
Variable cmp : A -> A -> Q.

Abbreviation before := (Spec.before cmp).

Lemma insert_perm (x : A) (l : list A) : Permutation (insert cmp x l) (x :: l).
Proof.
  induction l as [|y l IH]; simpl.
  - apply Permutation_refl.
  - destruct (Qle_bool (cmp x y) 0).
    + apply Permutation_refl.
    + eapply perm_trans; [ apply perm_skip, IH | apply perm_swap ].
Qed.

Lemma sort_perm (l : list A) : Permutation (sort cmp l) l.
Proof.
  induction l as [|x l IH]; simpl.
  - apply perm_nil.
  - eapply perm_trans; [ apply insert_perm | now apply perm_skip ].
Qed.

Lemma sort_Forall (P : A -> Prop) (l : list A) : Forall P l -> Forall P (sort cmp l).
Proof.
  intro H. eapply Permutation_Forall; [ apply Permutation_sym, sort_perm | exact H ].
Qed.

(** A consistent comparator: the order is total and transitive. *)
Hypothesis before_total : forall x y, before x y \/ before y x.
Hypothesis before_trans : forall x y z, before x y -> before y z -> before x z.

Lemma insert_sorted (x : A) (l : list A) :
  StronglySorted before l -> StronglySorted before (insert cmp x l).
Proof.
  induction 1 as [|y l HS IH HF]; simpl.
  - repeat constructor.
  - destruct (Qle_bool (cmp x y) 0) eqn:E.
    + apply Qle_bool_iff in E.
      constructor; [ now constructor | ].
      constructor; [ exact E | ].
      eapply Forall_impl; [ | exact HF ].
      intros z Hz. now apply before_trans with y.
    + constructor; [ exact IH | ].
      eapply Permutation_Forall; [ apply Permutation_sym, insert_perm | ].
      constructor; [ | exact HF ].
      destruct (before_total x y) as [H|H]; [ | exact H ].
      apply Qle_bool_iff in H. unfold Spec.before in *. congruence.
Qed.

Lemma sort_sorted (l : list A) : StronglySorted before (sort cmp l).
Proof.
  induction l as [|x l IH]; simpl.
  - constructor.
  - now apply insert_sorted.
Qed.

End Sorting.

Section Slicing.

Variable A : Type.

(** [l.slice(0, n)] keeps the first [n] elements. *)
Lemma slice_0 (l : list A) (n : nat) :
  slice l 0 (inject_Z (Z.of_nat n)) = firstn n l.
Proof.
  unfold slice, rel_index, to_integer. simpl.
  rewrite !Z.quot_1_r.
  destruct (Z.of_nat n <? 0)%Z eqn:E; [ apply Z.ltb_lt in E; lia | ].
  rewrite (Z.min_l 0) by lia. rewrite Z.sub_0_r. simpl.
  destruct (Nat.le_gt_cases n (List.length l)) as [H|H].
  - rewrite Z.min_l by lia. now rewrite Nat2Z.id.
  - rewrite Z.min_r by lia. rewrite Nat2Z.id.
    rewrite firstn_all. symmetry. apply firstn_all2. lia.
Qed.

Lemma slice_incl (l : list A) (s e : Q) (x : A) : In x (slice l s e) -> In x l.
Proof.
  unfold slice. intro H.
  set (k := Z.to_nat _) in H. set (j := Z.to_nat _) in H.
  rewrite <- (firstn_skipn j l). apply in_or_app. right.
  rewrite <- (firstn_skipn k (skipn j l)). apply in_or_app. now left.
Qed.

End Slicing.

End ArrayFacts.

(* ================================================================== *)
(** * Configuration defaults *)
(* ================================================================== *)

Section Defaults.

Import Matcher.

(** C10.  For each of the eight numeric options, an options object that
    gives the option a zero value builds the same matcher (or analyzer) as
    the object without the option: the default is taken.  The values then
    in effect are the documented defaults, and neither [minMatchScore] nor
    [fuzzyWeight] of a constructed matcher is ever zero. *)
Theorem zero_option_is_default (z : Q) (handler : option Judge)
    (mc : Matcher.Options) (ac : Analyzer.Options) :
  z == 0 ->
  (constructor handler (with_minMatchScore (Some z) mc)
     = constructor handler (with_minMatchScore None mc)
   /\ constructor handler (with_fuzzyWeight (Some z) mc)
     = constructor handler (with_fuzzyWeight None mc)
   /\ constructor handler (with_cosineWeight (Some z) mc)
     = constructor handler (with_cosineWeight None mc)
   /\ constructor handler (with_aiWeight (Some z) mc)
     = constructor handler (with_aiWeight None mc)
   /\ constructor handler (with_maxConcurrentAIRequests (Some z) mc)
     = constructor handler (with_maxConcurrentAIRequests None mc))
  /\ (Analyzer.constructor (Analyzer.with_minTextLength (Some z) ac)
       = Analyzer.constructor (Analyzer.with_minTextLength None ac)
      /\ Analyzer.constructor (Analyzer.with_sectionThreshold (Some z) ac)
       = Analyzer.constructor (Analyzer.with_sectionThreshold None ac)
      /\ Analyzer.constructor (Analyzer.with_titleThreshold (Some z) ac)
       = Analyzer.constructor (Analyzer.with_titleThreshold None ac))
  /\ (minMatchScore (config (constructor handler (with_minMatchScore (Some z) mc))) = 1 # 10
      /\ fuzzyWeight (config (constructor handler (with_fuzzyWeight (Some z) mc))) = 3 # 10
      /\ cosineWeight (config (constructor handler (with_cosineWeight (Some z) mc))) = 4 # 10
      /\ aiWeight (config (constructor handler (with_aiWeight (Some z) mc))) = 3 # 10
      /\ maxConcurrentAIRequests
           (config (constructor handler (with_maxConcurrentAIRequests (Some z) mc))) = 3
      /\ Analyzer.minTextLength
           (Analyzer.constructor (Analyzer.with_minTextLength (Some z) ac)) = 10
      /\ Analyzer.sectionThreshold
           (Analyzer.constructor (Analyzer.with_sectionThreshold (Some z) ac)) = 7 # 10
      /\ Analyzer.titleThreshold
           (Analyzer.constructor (Analyzer.with_titleThreshold (Some z) ac)) = 8 # 10)
  /\ ~ minMatchScore (config (constructor handler mc)) == 0
  /\ ~ fuzzyWeight (config (constructor handler mc)) == 0.
Proof.
  intro Hz.
  assert (E : JS.truthy z = false) by now apply JSFacts.truthy_false.
  repeat split;
    try (unfold constructor, Analyzer.constructor, JS.or_default; simpl;
         now rewrite E);
    try (simpl; apply JSFacts.or_default_nonzero; discriminate).
Qed.

(** [zero_option_is_default] at a sample input. *)
Lemma zero_option_is_default_witness :
  0 == 0
  /\ minMatchScore (config (constructor None (with_minMatchScore (Some 0) no_options)))
     = 1 # 10.
Proof.
  split; [ reflexivity | ].
  exact (proj1 (proj1 (proj2 (proj2
           (@zero_option_is_default 0 None no_options
              {| Analyzer.o_minTextLength := None;
                 Analyzer.o_sectionThreshold := None;
                 Analyzer.o_titleThreshold := None |}
              (Qeq_refl 0)))))).
Defined.

End Defaults.

(* ================================================================== *)
(** * The final score *)
(* ================================================================== *)

Section FinalScore.

Import Matcher.

Variable this : SemanticMatcher.

Lemma ai_enabled_true :
  ai_enabled this = true <->
  ollamaHandler this <> None /\ aiEnhancedMode (config this) = true.
Proof.
  unfold ai_enabled. destruct (ollamaHandler this); split.
  - intro H. split; [ discriminate | exact H ].
  - now intros [_ H].
  - discriminate.
  - intros [H _]. now elim H.
Qed.

(** C4, amended.  The final score is the traditional score divided by the
    sum of the fuzzy and cosine weights when there is no handler, when the
    AI mode is off, or when the AI score is zero; it is the weighted blend
    otherwise; without a handler it does not depend on [aiWeight].  (The
    quotient by a zero sum is 0 in this model and an infinity or NaN in
    JavaScript; the equations are between the same quotients.) *)
Theorem calculateFinalScore_cases (t a : Q) :
  ((ollamaHandler this = None \/ aiEnhancedMode (config this) = false \/ a == 0) ->
     _calculateFinalScore this t a
     = t / (fuzzyWeight (config this) + cosineWeight (config this)))
  /\ (ollamaHandler this <> None -> aiEnhancedMode (config this) = true -> ~ a == 0 ->
     _calculateFinalScore this t a
     = t / (fuzzyWeight (config this) + cosineWeight (config this))
         * (1 - aiWeight (config this))
       + a * aiWeight (config this))
  /\ (ollamaHandler this = None ->
      forall w, _calculateFinalScore (set_aiWeight w this) t a
                = _calculateFinalScore this t a).
Proof.
  unfold _calculateFinalScore. repeat split.
  - intros [H | [H | H]].
    + unfold ai_enabled. now rewrite H.
    + unfold ai_enabled. rewrite H. now destruct (ollamaHandler this).
    + apply Qeq_bool_iff in H. rewrite H. now rewrite orb_true_r.
  - intros Hh Hm Ha.
    assert (E : ai_enabled this = true) by now apply ai_enabled_true.
    rewrite E. simpl.
    destruct (Qeq_bool a 0) eqn:Ea; [ | reflexivity ].
    apply Qeq_bool_iff in Ea. contradiction.
  - intros Hh w. unfold ai_enabled. simpl. now rewrite Hh.
Qed.

End FinalScore.

(** C4 as stated fails: with a handler configured, the AI mode off and a
    non-zero AI score, the final score is the normalised traditional score
    (1/2 here), not the blend (13/20). *)
Lemma calculateFinalScore_mode_off_counterexample :
  let this := Samples.mode_off in
  let fw := Matcher.fuzzyWeight (Matcher.config this) in
  let cw := Matcher.cosineWeight (Matcher.config this) in
  let aw := Matcher.aiWeight (Matcher.config this) in
  Matcher.ollamaHandler this <> None
  /\ ~ 1 == 0
  /\ Matcher._calculateFinalScore this (35 # 100) 1 == 1 # 2
  /\ ~ Matcher._calculateFinalScore this (35 # 100) 1
       == (35 # 100) / (fw + cw) * (1 - aw) + 1 * aw.
Proof.
  repeat split; try discriminate; reflexivity.
Qed.

(** [calculateFinalScore_cases] at a sample input. *)
Lemma calculateFinalScore_cases_witness :
  Matcher.ollamaHandler Samples.plain = None
  /\ Matcher._calculateFinalScore Samples.plain (35 # 100) 0
     = (35 # 100) / ((3 # 10) + (4 # 10)).
Proof.
  split; [ reflexivity | ].
  exact (proj1 (@calculateFinalScore_cases Samples.plain (35 # 100) 0)
               (or_introl eq_refl)).
Defined.

(* ================================================================== *)
(** * Retained sections *)
(* ================================================================== *)

Section RetainedSections.

Import Analyzer.

Lemma retained_worth_keeping (s : Section) : retained s = true -> worth_keeping s.
Proof.
  unfold retained, worth_keeping. intro H.
  apply orb_true_iff in H. destruct H as [H|H]; apply Nat.ltb_lt in H.
  - left. intro E. rewrite E in H. simpl in H. lia.
  - now right.
Qed.

Lemma add_indices_worth_keeping (l : list Section) :
  forall i, Forall worth_keeping l -> Forall worth_keeping (add_indices i l).
Proof.
  induction l as [|s l IH]; intros i H; simpl.
  - constructor.
  - inversion H as [|? ? Hs Hl]; subst.
    constructor; [ exact Hs | now apply IH ].
Qed.

Lemma postProcess_worth_keeping (t : option string) (secs : list Section) (md : Metadata) :
  Forall worth_keeping (sections (_postProcessStructure t secs md)).
Proof.
  unfold _postProcessStructure. simpl.
  apply add_indices_worth_keeping, ArrayFacts.sort_Forall.
  apply Forall_forall. intros s Hs.
  apply filter_In in Hs. now apply retained_worth_keeping.
Qed.

(** C5.  Whatever the page detections, every section of the structure
    that [createDocumentStructure] returns has content or a title of more
    than three characters. *)
Theorem retained_sections_invariant (an : DocumentAnalyzer) (pageResults : list PageResult) :
  Forall worth_keeping (sections (createDocumentStructure an pageResults)).
Proof.
  unfold createDocumentStructure. apply postProcess_worth_keeping.
Qed.

End RetainedSections.

(* ================================================================== *)
(** * What the matcher emits *)
(* ================================================================== *)

Module MatcherFacts.

Import Matcher.

(** ** The state monad *)

Lemma mapM_cons {A B} (f : nat -> A -> M B) (i : nat) (x : A) (l : list A) (s : State) :
  mapM f i (x :: l) s =
  (fst (f i x s) :: fst (mapM f (S i) l (snd (f i x s))),
   snd (mapM f (S i) l (snd (f i x s)))).
Proof.
  simpl. unfold bind, ret.
  destruct (f i x s) as [y s1]. simpl.
  now destruct (mapM f (S i) l s1) as [ys s2].
Qed.

(** A property of the state that every step keeps is kept by [mapM]. *)
Lemma mapM_state {A B} (f : nat -> A -> M B) (I : State -> State -> Prop) :
  (forall s, I s s) ->
  (forall s1 s2 s3, I s1 s2 -> I s2 s3 -> I s1 s3) ->
  (forall i x s, I s (snd (f i x s))) ->
  forall l i s, I s (snd (mapM f i l s)).
Proof.
  intros Hrefl Htrans Hf l. induction l as [|x l IH]; intros i s.
  - apply Hrefl.
  - rewrite mapM_cons. simpl. eapply Htrans; [ apply Hf | apply IH ].
Qed.

(** ** The loops of [_findTopicMatches] as filters *)

Section Loops.

Variables fuzzyMatch cosineSimilarity : string -> string -> Q.
Variable this : SemanticMatcher.

Abbreviation traditional := (_calculateTraditionalScore fuzzyMatch cosineSimilarity this).
Abbreviation fresh_candidate := (Spec.fresh_candidate fuzzyMatch cosineSimilarity this).
Abbreviation scores_positive := (Spec.scores_positive fuzzyMatch cosineSimilarity this).
Abbreviation candidate_of := (Spec.candidate_of fuzzyMatch cosineSimilarity this).
Abbreviation emitted_for := (Spec.emitted_for fuzzyMatch cosineSimilarity this).
Abbreviation emitted := (Spec.emitted fuzzyMatch cosineSimilarity this).
Abbreviation final_score := (Spec.final_score this).
Abbreviation passes := (Spec.passes this).
Abbreviation match_of := (Spec.match_of this).

Lemma collect_filter (topic : string) (searchIndex : list Element) :
  forall acc,
    fold_left (collect_step fuzzyMatch cosineSimilarity this topic) searchIndex acc
    = acc ++ map (fresh_candidate topic) (filter (scores_positive topic) searchIndex).
Proof.
  induction searchIndex as [|e l IH]; intro acc; simpl.
  - now rewrite app_nil_r.
  - rewrite IH. unfold collect_step, scores_positive.
    destruct (JS.gtb (traditional topic (e_text e)) 0); simpl.
    + now rewrite <- app_assoc.
    + reflexivity.
Qed.

Lemma emit_filter (filename topic : string) (topicIndex : Z) (cs : list Candidate) :
  forall acc,
    fold_left (emit_step this filename topic topicIndex) cs acc
    = acc ++ map (match_of filename topic topicIndex) (filter passes cs).
Proof.
  induction cs as [|c l IH]; intro acc; simpl.
  - now rewrite app_nil_r.
  - rewrite IH. unfold emit_step, passes.
    destruct (JS.geb _ _); simpl.
    + now rewrite <- app_assoc.
    + reflexivity.
Qed.

(** ** Candidates *)

Lemma sorted_candidates_of (searchIndex : list Element) (topic : string) :
  Forall (candidate_of searchIndex topic)
         (sorted_candidates fuzzyMatch cosineSimilarity this topic searchIndex).
Proof.
  unfold sorted_candidates. apply ArrayFacts.sort_Forall.
  rewrite collect_filter. simpl.
  apply Forall_forall. intros c Hc.
  apply in_map_iff in Hc. destruct Hc as [e [<- He]].
  apply filter_In in He. destruct He as [He Hp].
  unfold candidate_of, fresh_candidate; simpl. repeat split; auto.
  now apply JSFacts.gtb_gt in Hp.
Qed.

Lemma judge_one_of (searchIndex : list Element) (judge : Judge) (topic : string) :
  ollamaHandler this = Some judge ->
  aiEnhancedMode (config this) = true ->
  forall i c s,
    candidate_of searchIndex topic c ->
    candidate_of searchIndex topic (fst (judge_one judge topic i c s)).
Proof.
  intros Hh Hm i c s (Hin & Ht & Hpos & Hai).
  unfold judge_one, bind, next_call, modify, ret. simpl.
  destruct (judge (issued s) topic (e_text (element c))) as [a|msg] eqn:E; simpl.
  - repeat split; auto. right. now exists judge, (issued s).
  - repeat split; auto.
Qed.

Lemma mapM_judge_of (searchIndex : list Element) (judge : Judge) (topic : string) :
  ollamaHandler this = Some judge ->
  aiEnhancedMode (config this) = true ->
  forall l i s,
    Forall (candidate_of searchIndex topic) l ->
    Forall (candidate_of searchIndex topic) (fst (mapM (judge_one judge topic) i l s)).
Proof.
  intros Hh Hm l. induction l as [|c l IH]; intros i s H.
  - constructor.
  - rewrite mapM_cons. simpl. inversion H; subst.
    constructor; [ now apply judge_one_of | now apply IH ].
Qed.

Lemma firstn_Forall {A} (P : A -> Prop) (n : nat) (l : list A) :
  Forall P l -> Forall P (firstn n l).
Proof.
  intro H. rewrite <- (firstn_skipn n l) in H. now apply Forall_app in H.
Qed.

Lemma skipn_Forall {A} (P : A -> Prop) (n : nat) (l : list A) :
  Forall P l -> Forall P (skipn n l).
Proof.
  intro H. rewrite <- (firstn_skipn n l) in H. now apply Forall_app in H.
Qed.

Lemma judged_candidates_of (searchIndex : list Element) (topic : string) (s : State) :
  Forall (candidate_of searchIndex topic)
         (fst (judged_candidates fuzzyMatch cosineSimilarity this topic searchIndex s)).
Proof.
  pose proof (sorted_candidates_of searchIndex topic) as H.
  unfold judged_candidates.
  destruct (ollamaHandler this) as [judge|] eqn:Hh; [ | exact H ].
  destruct (aiEnhancedMode (config this)) eqn:Hm; [ | exact H ].
  destruct (0 <? _)%nat; [ | exact H ]. simpl.
  unfold bind, ret.
  change 5 with (inject_Z (Z.of_nat 5)). rewrite ArrayFacts.slice_0.
  destruct (mapM _ _ _ _) as [judged s'] eqn:E. simpl.
  apply Forall_app. split.
  - replace judged with (fst (mapM (judge_one judge topic) 0
                                (firstn 5 (sorted_candidates fuzzyMatch cosineSimilarity
                                             this topic searchIndex)) s))
      by now rewrite E.
    apply mapM_judge_of with (searchIndex := searchIndex); auto.
    now apply firstn_Forall.
  - now apply skipn_Forall.
Qed.

(** The judge calls change AI scores only: the candidates of a topic are
    the elements whose traditional score is positive, five or more. *)
Lemma judge_one_element (judge : Judge) (topic : string) (i : nat) (c : Candidate)
    (s : State) :
  element (fst (judge_one judge topic i c s)) = element c.
Proof.
  unfold judge_one, bind, next_call, modify, ret. simpl.
  now destruct (judge (issued s) topic (e_text (element c))).
Qed.

Lemma mapM_judge_elements (judge : Judge) (topic : string) (l : list Candidate) :
  forall i s, map element (fst (mapM (judge_one judge topic) i l s)) = map element l.
Proof.
  induction l as [|c l IH]; intros i s.
  - reflexivity.
  - rewrite mapM_cons. simpl. now rewrite judge_one_element, IH.
Qed.

Lemma judged_candidates_elements (searchIndex : list Element) (topic : string) (s : State) :
  Permutation
    (map element
         (fst (judged_candidates fuzzyMatch cosineSimilarity this topic searchIndex s)))
    (filter (scores_positive topic) searchIndex).
Proof.
  assert (H : Permutation
                (map element (sorted_candidates fuzzyMatch cosineSimilarity this
                                topic searchIndex))
                (filter (scores_positive topic) searchIndex)).
  { unfold sorted_candidates.
    eapply perm_trans; [ apply Permutation_map, ArrayFacts.sort_perm | ].
    rewrite collect_filter. simpl. rewrite map_map. simpl.
    rewrite map_id. apply Permutation_refl. }
  unfold judged_candidates.
  destruct (ollamaHandler this) as [judge|]; [ | exact H ].
  destruct (aiEnhancedMode (config this)); [ | exact H ].
  destruct (0 <? _)%nat; [ | exact H ]. simpl.
  unfold bind, ret.
  destruct (mapM _ _ _ _) as [judged s'] eqn:E. simpl.
  replace judged with (fst (mapM (judge_one judge topic) 0
                              (JS.slice (sorted_candidates fuzzyMatch cosineSimilarity
                                           this topic searchIndex) 0 5) s))
    by now rewrite E.
  rewrite map_app, mapM_judge_elements, <- map_app.
  change 5 with (inject_Z (Z.of_nat 5)). rewrite ArrayFacts.slice_0.
  rewrite length_firstn.
  set (l := sorted_candidates _ _ _ _ _) in *.
  replace (firstn 5 l ++ skipn (Nat.min 5 (List.length l)) l) with l; [ exact H | ].
  destruct (Nat.le_gt_cases 5 (List.length l)) as [L | L].
  - rewrite Nat.min_l by exact L. now rewrite firstn_skipn.
  - rewrite Nat.min_r by lia. rewrite skipn_all, app_nil_r.
    symmetry. apply firstn_all2. lia.
Qed.

(** ** Matches *)

Lemma findTopicMatches_eq (topic : string) (searchIndex : list Element)
    (filename : string) (topicIndex : Z) (s : State) :
  fst (_findTopicMatches fuzzyMatch cosineSimilarity this topic searchIndex
         filename topicIndex s)
  = map (match_of filename topic topicIndex)
        (filter passes
           (fst (judged_candidates fuzzyMatch cosineSimilarity this topic searchIndex s))).
Proof.
  unfold _findTopicMatches, bind, modify, ret.
  destruct (judged_candidates _ _ _ _ _ _) as [cs s1]. simpl.
  now rewrite emit_filter.
Qed.

Lemma findTopicMatches_emitted (topic : string) (searchIndex : list Element)
    (filename : string) (topicIndex : Z) (s : State) :
  Forall (emitted_for searchIndex filename topic topicIndex)
         (fst (_findTopicMatches fuzzyMatch cosineSimilarity this topic searchIndex
                 filename topicIndex s)).
Proof.
  rewrite findTopicMatches_eq.
  apply Forall_forall. intros m Hm.
  apply in_map_iff in Hm. destruct Hm as [c [<- Hc]].
  apply filter_In in Hc. destruct Hc as [Hc Hp].
  exists c. split; [ | split; [ | reflexivity ] ].
  - pose proof (judged_candidates_of searchIndex topic s) as H.
    rewrite Forall_forall in H. now apply H.
  - now apply JSFacts.geb_ge in Hp.
Qed.

Lemma run_batch_emitted (topics : list string) (searchIndex : list Element)
    (filename : string) (batch : list string) (s : State) :
  incl batch topics ->
  Forall (emitted topics searchIndex filename)
         (fst (run_batch fuzzyMatch cosineSimilarity this topics searchIndex
                 filename batch s)).
Proof.
  unfold run_batch, bind, ret.
  destruct (mapM _ _ _ _) as [rs s1] eqn:E. simpl.
  assert (Hrs : rs = fst (mapM (fun (_ : nat) (topic : string) =>
                   _findTopicMatches fuzzyMatch cosineSimilarity this topic
                     searchIndex filename (JS.indexOf topics topic)) 0 batch s))
    by now rewrite E.
  clear E. revert Hrs. generalize 0%nat. revert s rs.
  induction batch as [|topic batch IH]; intros s rs i Hrs Hincl.
  - subst rs. constructor.
  - rewrite mapM_cons in Hrs. simpl in Hrs. subst rs. simpl.
    apply Forall_app. split.
    + eapply Forall_impl; [ | apply findTopicMatches_emitted ].
      intros m Hm. exists topic. split; [ apply Hincl; now left | exact Hm ].
    + eapply IH; [ reflexivity | ].
      intros x Hx. apply Hincl. now right.
Qed.

Lemma run_batches_emitted (topics : list string) (searchIndex : list Element)
    (filename : string) (topicBatches : list (list string)) :
  Forall (fun batch => incl batch topics) topicBatches ->
  forall acc s,
    Forall (emitted topics searchIndex filename) acc ->
    Forall (emitted topics searchIndex filename)
           (fst (run_batches fuzzyMatch cosineSimilarity this topics searchIndex
                   filename topicBatches acc s)).
Proof.
  induction 1 as [|batch rest Hb _ IH]; intros acc s Hacc; simpl.
  - exact Hacc.
  - unfold bind.
    destruct (run_batch _ _ _ _ _ _ _ _) as [found s1] eqn:E.
    apply IH. apply Forall_app. split; [ exact Hacc | ].
    replace found with (fst (run_batch fuzzyMatch cosineSimilarity this topics
                               searchIndex filename batch s)) by now rewrite E.
    now apply run_batch_emitted.
Qed.

Lemma batches_from_incl {A} (items : list A) (batchSize : Q) :
  forall fuel i bs,
    batches_from fuel items batchSize i = Some bs ->
    Forall (fun batch => incl batch items) bs.
Proof.
  induction fuel as [|fuel IH]; intros i bs; simpl;
    destruct (JS.ltb i _); try discriminate;
    try (intro H; injection H as <-; constructor).
  destruct (batches_from fuel items batchSize (i + batchSize)) as [bs'|] eqn:E;
    simpl; [ | discriminate ].
  intro H. injection H as <-. constructor.
  - intros x Hx. eapply ArrayFacts.slice_incl; eauto.
  - eapply IH; eauto.
Qed.

(** Every match [findBestMatches] returns was emitted for one of the
    topics, from a candidate of that topic. *)
Lemma findBestMatches_emitted (fuel : nat) (topics : list string)
    (ds : DocumentStructure) (filename : string) (s s' : State) (ms : list Match) :
  findBestMatches fuzzyMatch cosineSimilarity this fuel topics ds filename s
    = Some (ms, s') ->
  Forall (emitted topics (_createSearchIndex ds) filename) ms.
Proof.
  unfold findBestMatches, _createBatches.
  destruct (batches_from _ _ _ _) as [bs|] eqn:E; [ | discriminate ].
  destruct (run_batches _ _ _ _ _ _ _ _ _) as [found s1] eqn:R.
  intro H. injection H as <- <-.
  apply ArrayFacts.sort_Forall.
  replace found with (fst (run_batches fuzzyMatch cosineSimilarity this topics
                             (_createSearchIndex ds) filename bs [] s))
    by now rewrite R.
  apply run_batches_emitted; [ | constructor ].
  eapply batches_from_incl; eauto.
Qed.

End Loops.

End MatcherFacts.

(** Scenario A of the specification. *)
Example scenario_A :
  title Samples.guide = Some "Form Design Guide"%string
  /\ map s_title (sections Samples.guide) = ["Create Fillable PDFs"%string]
  /\ map (fun s => map c_text (s_content s)) (sections Samples.guide)
     = [["Use the Prepare Form tool to add fields."%string]]
  /\ map s_page (sections Samples.guide) = [3%Z]
  /\ map s_index (sections Samples.guide) = [Some 1%Z].
Proof. vm_compute. repeat split. Qed.

(* ================================================================== *)
(** * Score ranges *)
(* ================================================================== *)

Module OllamaFacts.

Import Ollama.

(** The relevance the handler reports is a number between 0 and 1, whatever
    the external process does. *)
Lemma getSemanticRelevance_unit (h : OllamaHandler) (run : Process) (topic text : string) :
  0 <= getSemanticRelevance h run topic text <= 1.
Proof.
  unfold getSemanticRelevance.
  destruct (JS.is_empty text || (String.length text <? 10)%nat);
    [ split; discriminate | ].
  destruct (executePrompt _ _ _ _ _) as [[response|]|msg];
    try (split; discriminate).
  apply JSFacts.clamp_unit.
Qed.

End OllamaFacts.

Section ScoreBounds.

Import Matcher MatcherFacts.

Variables fuzzyMatch cosineSimilarity : string -> string -> Q.
Variable this : SemanticMatcher.

Hypothesis fuzzy_unit : unit_valued fuzzyMatch.
Hypothesis cosine_unit : unit_valued cosineSimilarity.
Hypothesis weights : default_weights (config this).

Lemma traditional_bound (topic text : string) :
  0 <= _calculateTraditionalScore fuzzyMatch cosineSimilarity this topic text <= 7 # 10.
Proof.
  unfold _calculateTraditionalScore.
  destruct (JS.is_empty text || _); [ split; discriminate | ].
  destruct weights as (Hf & Hc & _). rewrite Hf, Hc.
  destruct (fuzzy_unit topic text), (cosine_unit topic text). split; lra.
Qed.

Lemma final_bound (t a : Q) :
  0 <= t <= 7 # 10 -> 0 <= a <= 1 -> 0 <= _calculateFinalScore this t a <= 1.
Proof.
  intros [Ht0 Ht1] [Ha0 Ha1].
  destruct weights as (Hf & Hc & Hw).
  assert (E : t / (fuzzyWeight (config this) + cosineWeight (config this))
              == t * (10 # 7)).
  { rewrite Hf, Hc. unfold Qdiv.
    setoid_replace (/ ((3 # 10) + (4 # 10))) with (10 # 7)
      by (vm_compute; reflexivity).
    reflexivity. }
  unfold _calculateFinalScore.
  destruct (negb (ai_enabled this) || Qeq_bool a 0).
  - rewrite E. split; lra.
  - rewrite E, Hw. split; lra.
Qed.

Variable process : option (Ollama.OllamaHandler * (nat -> Ollama.Process)).
Hypothesis handler : ollamaHandler this = pipeline_handler process.

Lemma candidate_scores (searchIndex : list Element) (topic : string) (c : Candidate) :
  candidate_of fuzzyMatch cosineSimilarity this searchIndex topic c ->
  0 <= traditionalScore c <= 7 # 10 /\ 0 <= aiScore c <= 1.
Proof.
  intros (_ & Ht & _ & Hai). split.
  - rewrite Ht. apply traditional_bound.
  - destruct Hai as [-> | (judge & n & Hj & _ & Hn)]; [ split; discriminate | ].
    rewrite handler in Hj. destruct process as [[h world]|]; [ | discriminate ].
    injection Hj as <-. unfold ollama_judge in Hn. injection Hn as <-.
    apply OllamaFacts.getSemanticRelevance_unit.
Qed.

(** C1.  With similarity functions that take their values between 0 and 1
    and the default weights, every match [findBestMatches] returns has its
    match score, its traditional score and its AI score between 0 and 1;
    the handler is the one of the pipeline, or none. *)
Theorem match_scores_in_unit_interval (fuel : nat) (topics : list string)
    (ds : DocumentStructure) (filename : string) (s s' : State) (ms : list Match) :
  findBestMatches fuzzyMatch cosineSimilarity this fuel topics ds filename s
    = Some (ms, s') ->
  Forall scores_in_unit ms.
Proof.
  intro H. apply findBestMatches_emitted in H.
  eapply Forall_impl; [ | exact H ].
  intros m (topic & _ & c & Hc & _ & ->).
  destruct (candidate_scores Hc) as [Ht Ha].
  unfold scores_in_unit, match_of, make_match; simpl.
  split; [ | split ]; apply JSFacts.toFixed3_unit.
  - now apply final_bound.
  - destruct Ht. split; lra.
  - exact Ha.
Qed.

End ScoreBounds.

(** [match_scores_in_unit_interval] at a sample input. *)
Lemma match_scores_in_unit_interval_witness :
  unit_valued (Samples.always (1 # 2))
  /\ default_weights (Matcher.config (Samples.with_ollama Samples.helpful))
  /\ exists ms s',
       Matcher.findBestMatches (Samples.always (1 # 2)) (Samples.always (1 # 2))
         (Samples.with_ollama Samples.helpful) 5
         ["Form Creation"%string] Samples.guide "document.pdf"%string Matcher.initial
       = Some (ms, s')
       /\ ms <> []
       /\ Forall scores_in_unit ms.
Proof.
  assert (U : unit_valued (Samples.always (1 # 2)))
    by (intros a b; split; discriminate).
  assert (W : default_weights (Matcher.config (Samples.with_ollama Samples.helpful)))
    by (repeat split).
  split; [ exact U | split; [ exact W | ] ].
  eexists. eexists. split; [ vm_compute; reflexivity | ].
  split; [ discriminate | ].
  eapply (@match_scores_in_unit_interval
            (Samples.always (1 # 2)) (Samples.always (1 # 2))
            (Samples.with_ollama Samples.helpful) U U W
            (Some (Ollama.constructor None, Samples.helpful)) eq_refl
            5%nat ["Form Creation"%string] Samples.guide "document.pdf"%string
            Matcher.initial).
  vm_compute. reflexivity.
Defined.

(* ================================================================== *)
(** * The order of the match list *)
(* ================================================================== *)

Section MatchOrder.

Import Matcher.

Lemma compare_matches_before (a b : Match) :
  Spec.before compare_matches a b <-> ranked_before a b.
Proof.
  unfold Spec.before, compare_matches, ranked_before.
  destruct (Z.eqb_spec (importance_rank a) (importance_rank b)) as [E|N]; simpl.
  - split.
    + intro H. right. split; [ exact E | lra ].
    + intros [H | [_ H]]; [ lia | lra ].
  - change 0 with (inject_Z 0). rewrite <- Zle_Qle. split.
    + intro H. left. lia.
    + intros [H | [H _]]; [ lia | contradiction ].
Qed.

Lemma ranked_before_total (a b : Match) : ranked_before a b \/ ranked_before b a.
Proof.
  unfold ranked_before.
  destruct (Z.lt_trichotomy (importance_rank a) (importance_rank b)) as [H | [H | H]];
    auto.
  destruct (Qlt_le_dec (match_score a) (match_score b)) as [L | L].
  - right. right. split; [ now symmetry | now apply Qlt_le_weak ].
  - left. right. now split.
Qed.

Lemma ranked_before_trans (a b c : Match) :
  ranked_before a b -> ranked_before b c -> ranked_before a c.
Proof.
  unfold ranked_before. intros [H1 | [E1 L1]] [H2 | [E2 L2]].
  - left. lia.
  - left. lia.
  - left. lia.
  - right. split; [ congruence | now apply Qle_trans with (match_score b) ].
Qed.

Lemma sort_matches_sorted (l : list Match) :
  StronglySorted ranked_before (JS.sort compare_matches l).
Proof.
  assert (H : StronglySorted (Spec.before compare_matches)
                (JS.sort compare_matches l)).
  { apply ArrayFacts.sort_sorted.
    - intros x y. rewrite !compare_matches_before. apply ranked_before_total.
    - intros x y z. rewrite !compare_matches_before. apply ranked_before_trans. }
  induction H as [|x l' _ IH HF]; constructor; [ exact IH | ].
  eapply Forall_impl; [ | exact HF ].
  intros y. apply compare_matches_before.
Qed.

Variables fuzzyMatch cosineSimilarity : string -> string -> Q.
Variable this : SemanticMatcher.

(** C2.  The list [findBestMatches] returns and the list
    [performSemanticMatching] assembles over all documents are sorted:
    of two matches, the earlier one has the smaller importance rank, or
    the same rank and a match score at least as large. *)
Theorem match_lists_sorted (fuel : nat) (topics : list string) :
  (forall ds filename s ms s',
      findBestMatches fuzzyMatch cosineSimilarity this fuel topics ds filename s
        = Some (ms, s') ->
      StronglySorted ranked_before ms)
  /\ (forall analysisResults s allMatches s',
        Pipeline.performSemanticMatching fuzzyMatch cosineSimilarity this fuel
          topics analysisResults s = Some (allMatches, s') ->
        StronglySorted ranked_before allMatches).
Proof.
  split.
  - intros ds filename s ms s'. unfold findBestMatches.
    destruct (_createBatches _ _ _) as [bs|]; [ | discriminate ].
    destruct (run_batches _ _ _ _ _ _ _ _ _) as [found s1].
    intro H. injection H as <- _. apply sort_matches_sorted.
  - intros analysisResults s allMatches s'.
    unfold Pipeline.performSemanticMatching.
    destruct (Pipeline.match_documents _ _ _ _ _ _ _ _) as [[found s1]|];
      [ | discriminate ].
    intro H. injection H as <- _. apply sort_matches_sorted.
Qed.

End MatchOrder.

(** [match_lists_sorted] at a sample input. *)
Lemma match_lists_sorted_witness :
  exists ms s',
    Matcher.findBestMatches Samples.verbosity Samples.verbosity Samples.plain 5
      ["Form Creation"%string; "Compliance"%string] Samples.guide
      "document.pdf"%string Matcher.initial = Some (ms, s')
    /\ map Matcher.match_score ms
       = [400 # 1000; 200 # 1000; 170 # 1000; 400 # 1000; 200 # 1000; 170 # 1000]
    /\ map Matcher.importance_rank ms = [1; 1; 1; 2; 2; 2]%Z
    /\ StronglySorted ranked_before ms.
Proof.
  eexists. eexists. split; [ vm_compute; reflexivity | ].
  split; [ reflexivity | ]. split; [ reflexivity | ].
  eapply (proj1 (@match_lists_sorted Samples.verbosity Samples.verbosity
                   Samples.plain 5%nat
                   ["Form Creation"%string; "Compliance"%string])
                Samples.guide "document.pdf"%string Matcher.initial).
  vm_compute. reflexivity.
Defined.

(* ================================================================== *)
(** * The threshold on the final score *)
(* ================================================================== *)

Section Threshold.

Import Matcher MatcherFacts.

Variables fuzzyMatch cosineSimilarity : string -> string -> Q.
Variable this : SemanticMatcher.

Abbreviation final_score := (Spec.final_score this).

(** C3, amended.  For a topic, the candidates are exactly the elements of
    the index with a positive traditional score, however many; the
    matches returned are the records of the candidates whose final score
    reaches [minMatchScore], in the order of the candidates, and of no
    other.  A match carries the final score rounded to three decimals:
    its match score is at least [minMatchScore] less 1/2000, and at least
    [minMatchScore] when that is a multiple of 1/1000. *)
Theorem emission_threshold :
  (forall topic searchIndex filename topicIndex s,
      let candidates :=
        fst (judged_candidates fuzzyMatch cosineSimilarity this topic searchIndex s) in
      let matches :=
        fst (_findTopicMatches fuzzyMatch cosineSimilarity this topic searchIndex
               filename topicIndex s) in
      Permutation (map element candidates)
        (filter (scores_positive fuzzyMatch cosineSimilarity this topic) searchIndex)
      /\ matches
         = map (fun c => make_match filename topic topicIndex c (final_score c))
               (filter (fun c => JS.geb (final_score c) (minMatchScore (config this)))
                       candidates)
      /\ (forall c, In c candidates ->
                    minMatchScore (config this) <= final_score c ->
                    In (make_match filename topic topicIndex c (final_score c)) matches)
      /\ (forall m, In m matches ->
                    exists c, In c candidates
                              /\ minMatchScore (config this) <= final_score c
                              /\ m = make_match filename topic topicIndex c (final_score c)))
  /\ (forall fuel topics ds filename s ms s',
        findBestMatches fuzzyMatch cosineSimilarity this fuel topics ds filename s
          = Some (ms, s') ->
        Forall (fun m =>
                  minMatchScore (config this) - (1 # 2000) <= match_score m
                  /\ ((exists k, minMatchScore (config this) == inject_Z k / 1000) ->
                      minMatchScore (config this) <= match_score m)) ms).
Proof.
  split.
  - intros topic searchIndex filename topicIndex s candidates matches.
    assert (E : matches
                = map (fun c => make_match filename topic topicIndex c (final_score c))
                      (filter (fun c => JS.geb (final_score c)
                                          (minMatchScore (config this))) candidates))
      by apply findTopicMatches_eq.
    split; [ apply judged_candidates_elements | ].
    split; [ exact E | ]. split.
    + intros c Hc Hf. rewrite E. apply in_map_iff. exists c.
      split; [ reflexivity | ]. apply filter_In.
      split; [ exact Hc | now apply JSFacts.geb_ge ].
    + intros m Hm. rewrite E in Hm. apply in_map_iff in Hm.
      destruct Hm as [c [<- Hc]]. apply filter_In in Hc. destruct Hc as [Hc Hp].
      exists c. split; [ exact Hc | ]. split; [ | reflexivity ].
      now apply JSFacts.geb_ge.
  - intros fuel topics ds filename s ms s' H.
    apply findBestMatches_emitted in H.
    eapply Forall_impl; [ | exact H ].
    intros m (topic & _ & c & _ & Hf & ->).
    unfold match_of, make_match; simpl. fold (final_score c) in *. split.
    + pose proof (JSFacts.toFixed3_near (final_score c)). lra.
    + intros [k Hk].
      assert (L : inject_Z k / 1000 <= final_score c) by now rewrite <- Hk.
      apply JSFacts.toFixed3_monotone in L.
      rewrite JSFacts.toFixed3_fixed in L. now rewrite Hk.
Qed.

End Threshold.

(** C3 as stated fails: with the threshold 0.1004 a candidate whose final
    score is 0.10045 is emitted, and its match score is 0.1. *)
Lemma emission_threshold_counterexample :
  exists ms s',
    Matcher.findBestMatches (Samples.always (10045 # 100000))
      (Samples.always (10045 # 100000))
      Samples.fussy 5 ["Form Creation"%string] Samples.guide
      "document.pdf"%string Matcher.initial = Some (ms, s')
    /\ ms <> []
    /\ Forall (fun m => Matcher.match_score m
                        < Matcher.minMatchScore (Matcher.config Samples.fussy)) ms.
Proof.
  eexists. eexists. split; [ vm_compute; reflexivity | ].
  split; [ discriminate | ].
  repeat constructor.
Qed.

(** [emission_threshold] at a sample input. *)
Lemma emission_threshold_witness :
  exists ms s',
    Matcher.findBestMatches Samples.verbosity Samples.verbosity Samples.plain 5
      ["Form Creation"%string] Samples.guide "document.pdf"%string Matcher.initial
    = Some (ms, s')
    /\ ms <> []
    /\ Forall (fun m => Matcher.minMatchScore (Matcher.config Samples.plain)
                        <= Matcher.match_score m) ms.
Proof.
  pose proof (proj2 (@emission_threshold Samples.verbosity Samples.verbosity
                       Samples.plain)
                5%nat ["Form Creation"%string] Samples.guide
                "document.pdf"%string Matcher.initial) as T.
  eexists. eexists. split; [ vm_compute; reflexivity | ].
  split; [ discriminate | ].
  eapply Forall_impl; [ | eapply T; vm_compute; reflexivity ].
  intros m [_ H]. apply H. exists 100%Z. reflexivity.
Defined.

(* ================================================================== *)
(** * The two search indexes *)
(* ================================================================== *)

Section SearchIndexes.

Lemma same_entry_refl (a b : Element) :
  e_type a = e_type b -> e_text a = e_text b -> e_page a = e_page b ->
  e_section a = e_section b -> e_importance a = e_importance b -> same_entry a b.
Proof.
  intros. unfold same_entry. repeat split; auto.
  replace (e_importance a) with (e_importance b). apply Qeq_refl.
Qed.

Lemma Forall2_app_split {A B} (R : A -> B -> Prop) (l1 : list A) :
  forall (l1' : list B) l2 l2',
    List.length l1 = List.length l1' ->
    Forall2 R (l1 ++ l2) (l1' ++ l2') ->
    Forall2 R l1 l1' /\ Forall2 R l2 l2'.
Proof.
  induction l1 as [|x l1 IH]; intros [|y l1'] l2 l2' HL H; simpl in *;
    try discriminate.
  - split; [ constructor | exact H ].
  - inversion H; subst. injection HL as HL.
    destruct (IH _ _ _ HL H5) as [H1 H2].
    split; [ now constructor | exact H2 ].
Qed.

Lemma flat_map_length_le {A B C} (f : A -> list B) (g : A -> list C) (l : list A) :
  (forall a, (List.length (f a) <= List.length (g a))%nat) ->
  (List.length (flat_map f l) <= List.length (flat_map g l))%nat.
Proof.
  intro H. induction l as [|a l IH]; simpl.
  - lia.
  - rewrite !length_app. specialize (H a). lia.
Qed.

(** Two flattened lists with pointwise shorter pieces on the left are
    related exactly when the pieces are. *)
Lemma flat_map_Forall2 {A B C} (R : B -> C -> Prop) (f : A -> list B) (g : A -> list C)
    (l : list A) :
  (forall a, (List.length (f a) <= List.length (g a))%nat) ->
  Forall2 R (flat_map f l) (flat_map g l) <-> Forall (fun a => Forall2 R (f a) (g a)) l.
Proof.
  intro Hle. induction l as [|a l IH]; simpl.
  - split; constructor.
  - split.
    + intro H.
      assert (HL : List.length (f a) = List.length (g a)).
      { pose proof (Forall2_length H) as E. rewrite !length_app in E.
        pose proof (flat_map_length_le f g l Hle). specialize (Hle a). lia. }
      destruct (Forall2_app_split _ _ _ _ HL H) as [H1 H2].
      constructor; [ exact H1 | now apply IH ].
    + intro H. inversion H; subst.
      apply Forall2_app; [ assumption | now apply IH ].
Qed.

Lemma content_entries_short (idx : option Z) (c : Content) :
  (List.length (Matcher.content_entries idx c) <= 1)%nat.
Proof.
  unfold Matcher.content_entries. destruct (_ && _); simpl; lia.
Qed.

Lemma content_agreement (idx : option Z) (c : Content) :
  Forall2 same_entry (Matcher.content_entries idx c) [Analyzer.content_entry idx c]
  <-> agreeing c.
Proof.
  unfold Matcher.content_entries, agreeing.
  destruct (10 <? String.length (c_text c))%nat eqn:L.
  - assert (T : JS.truthy_str (c_text c) = true).
    { apply Nat.ltb_lt in L. destruct (c_text c); [ simpl in L; lia | reflexivity ]. }
    rewrite T. simpl. apply Nat.ltb_lt in L. split.
    + intro H. inversion H as [|? ? ? ? (Ht & _ & _ & _ & Hi) _]; subst.
      split; [ exact L | ].
      unfold Analyzer.content_entry in *; simpl in *.
      destruct (c_type c); simpl in *;
        try discriminate Ht; try (now vm_compute in Hi); auto 6.
    + intros [_ Hc]. constructor; [ | constructor ].
      unfold same_entry, Analyzer.content_entry; simpl.
      destruct Hc as [<- | [<- | [<- | [<- | []]]]]; simpl;
        repeat split; reflexivity.
  - rewrite andb_false_r. apply Nat.ltb_ge in L. split.
    + intro H. inversion H.
    + intros [H _]. lia.
Qed.

Lemma section_agreement (s : Section) :
  Forall2 same_entry (Matcher.section_entries s) (Analyzer.section_entries s)
  <-> Forall agreeing (s_content s).
Proof.
  unfold Matcher.section_entries, Analyzer.section_entries.
  assert (E : map (Analyzer.content_entry (s_index s)) (s_content s)
              = flat_map (fun c => [Analyzer.content_entry (s_index s) c]) (s_content s)).
  { induction (s_content s) as [|c l IH]; simpl; [ reflexivity | now rewrite IH ]. }
  rewrite E.
  assert (F : Forall2 same_entry
                (flat_map (Matcher.content_entries (s_index s)) (s_content s))
                (flat_map (fun c => [Analyzer.content_entry (s_index s) c]) (s_content s))
              <-> Forall agreeing (s_content s)).
  { rewrite flat_map_Forall2 by (intro c; apply content_entries_short).
    rewrite !Forall_forall. split; intros H c Hc; apply (content_agreement (s_index s) c);
      now apply H. }
  split.
  - intro H. inversion H; subst. now apply F.
  - intro H. constructor; [ | now apply F ].
    apply same_entry_refl; reflexivity.
Qed.

Lemma section_entries_length (s : Section) :
  (List.length (Matcher.section_entries s) <= List.length (Analyzer.section_entries s))%nat.
Proof.
  unfold Matcher.section_entries, Analyzer.section_entries. simpl.
  rewrite length_map. apply le_n_S.
  induction (s_content s) as [|c l IH]; simpl; [ lia | ].
  rewrite length_app. pose proof (content_entries_short (s_index s) c). lia.
Qed.

Lemma title_agreement (t : option string) :
  Forall2 same_entry (Matcher.title_entries t) (Analyzer.title_entries t).
Proof.
  unfold Matcher.title_entries, Analyzer.title_entries.
  destruct t as [s|]; [ | constructor ].
  destruct (JS.truthy_str s); repeat constructor.
Qed.

(** C6, amended.  The index the matcher scores against and the index the
    analyzer persists hold the same entries (type, text, page, section and
    importance, position by position) exactly when every content item of
    every section has a text of more than ten characters and one of the
    types Text, Caption, Footnote and Picture.  The title entry and the
    section headers never differ; a shorter content item is missing from the
    matcher's index, and a content item of another type differs in its type
    name or in its importance. *)
Theorem search_indexes_agree (ds : DocumentStructure) :
  Forall2 same_entry (Matcher._createSearchIndex ds) (Analyzer.createSearchIndex ds)
  <-> Forall (fun s => Forall agreeing (s_content s)) (sections ds).
Proof.
  unfold Matcher._createSearchIndex, Analyzer.createSearchIndex.
  pose proof (title_agreement (title ds)) as T.
  assert (F : Forall2 same_entry (flat_map Matcher.section_entries (sections ds))
                (flat_map Analyzer.section_entries (sections ds))
              <-> Forall (fun s => Forall agreeing (s_content s)) (sections ds)).
  { rewrite flat_map_Forall2 by apply section_entries_length.
    rewrite !Forall_forall. split; intros H s Hs; apply section_agreement; now apply H. }
  split.
  - intro H. apply F.
    apply (Forall2_app_split _ _ _ _ (Forall2_length T) H).
  - intro H. apply Forall2_app; [ exact T | now apply F ].
Qed.

End SearchIndexes.

(** C6 as stated fails: a list item is entered as [list_item] with
    importance 1/2 by the matcher, and as [list-item] with importance 4/10
    by the analyzer. *)
Lemma search_indexes_counterexample :
  map e_type (Matcher._createSearchIndex Samples.checklist)
    = ["title"%string; "section-header"%string; "list_item"%string]
  /\ map e_type (Analyzer.createSearchIndex Samples.checklist)
    = ["title"%string; "section-header"%string; "list-item"%string]
  /\ map e_importance (Matcher._createSearchIndex Samples.checklist)
    = [1; 8 # 10; 5 # 10]
  /\ map e_importance (Analyzer.createSearchIndex Samples.checklist)
    = [1; 8 # 10; 4 # 10]
  /\ ~ Forall2 same_entry (Matcher._createSearchIndex Samples.checklist)
                          (Analyzer.createSearchIndex Samples.checklist).
Proof.
  repeat split; try reflexivity.
  intro H. vm_compute in H.
  inversion H as [|? ? ? ? _ H1]; subst.
  inversion H1 as [|? ? ? ? _ H2]; subst.
  inversion H2 as [|? ? ? ? (Ht & _) _]; subst.
  discriminate Ht.
Qed.

(** [search_indexes_agree] at a sample input. *)
Lemma search_indexes_agree_witness :
  Forall (fun s => Forall agreeing (s_content s)) (sections Samples.guide)
  /\ Forall2 same_entry (Matcher._createSearchIndex Samples.guide)
                        (Analyzer.createSearchIndex Samples.guide).
Proof.
  assert (H : Forall (fun s => Forall agreeing (s_content s)) (sections Samples.guide)).
  { vm_compute. repeat constructor. }
  split; [ exact H | ].
  exact (proj2 (search_indexes_agree Samples.guide) H).
Defined.

(* ================================================================== *)
(** * Importance ranks *)
(* ================================================================== *)

Section Ranks.

Import Matcher MatcherFacts.

Variables fuzzyMatch cosineSimilarity : string -> string -> Q.
Variable this : SemanticMatcher.

Lemma indexOf_from_first (x : string) (l : list string) :
  forall (i : Z) (k : nat),
    nth_error l k = Some x ->
    (forall j, (j < k)%nat -> nth_error l j <> Some x) ->
    JS.indexOf_from x l i = (i + Z.of_nat k)%Z.
Proof.
  induction l as [|y l IH]; intros i k Hk Hfirst.
  - destruct k; discriminate.
  - simpl. destruct k as [|k]; simpl in Hk.
    + injection Hk as ->. rewrite String.eqb_refl. lia.
    + destruct (String.eqb_spec y x) as [E|N].
      * exfalso. apply (Hfirst 0%nat); [ lia | simpl; now rewrite E ].
      * rewrite (IH (i + 1)%Z k Hk); [ lia | ].
        intros j Hj. apply (Hfirst (S j)). lia.
Qed.

(** In a list without repetition [indexOf] is the position. *)
Lemma indexOf_NoDup (l : list string) (k : nat) (x : string) :
  NoDup l -> nth_error l k = Some x -> JS.indexOf l x = Z.of_nat k.
Proof.
  intros Hnd Hk. unfold JS.indexOf.
  rewrite (@indexOf_from_first x l 0 k Hk); [ lia | ].
  intros j Hj Hx.
  assert (Hlen : (k < List.length l)%nat) by (apply nth_error_Some; congruence).
  pose proof (proj1 (NoDup_nth_error l) Hnd j k) as Inj.
  assert (j = k); [ | lia ].
  apply Inj; [ lia | congruence ].
Qed.

(** X1.  The rank of a returned match is one more than the first position
    of its topic in the topic list; when no topic is repeated, that is the
    1-based position of the topic. *)
Lemma importance_rank_first_position (fuel : nat) (topics : list string)
    (ds : DocumentStructure) (filename : string) (s s' : State) (ms : list Match) :
  findBestMatches fuzzyMatch cosineSimilarity this fuel topics ds filename s
    = Some (ms, s') ->
  Forall (fun m =>
            In (topic m) topics
            /\ importance_rank m = (JS.indexOf topics (topic m) + 1)%Z
            /\ (NoDup topics ->
                forall k, nth_error topics k = Some (topic m) ->
                          importance_rank m = (Z.of_nat k + 1)%Z)) ms.
Proof.
  intro H. apply findBestMatches_emitted in H.
  eapply Forall_impl; [ | exact H ].
  intros m (t & Ht & c & _ & _ & ->). simpl.
  split; [ exact Ht | ]. split; [ reflexivity | ].
  intros Hnd k Hk. now rewrite (@indexOf_NoDup topics k t Hnd Hk).
Qed.

End Ranks.

(** C7.  Two equal topic strings at positions 1 and 2: each of them yields
    three matches, and all six carry importance rank 1, because the index
    handed to [_findTopicMatches] is [topics.indexOf(topic)], the first
    position of the string. *)
Theorem repeated_topic_shares_rank :
  let topics := ["Form Creation"%string; "Form Creation"%string] in
  JS.indexOf topics (nth 1 topics EmptyString) = 0%Z
  /\ exists ms s',
       Matcher.findBestMatches (Samples.always (1 # 2)) (Samples.always (1 # 2))
         Samples.plain 5 topics Samples.guide "document.pdf"%string Matcher.initial
       = Some (ms, s')
       /\ List.length ms = 6%nat
       /\ Forall (fun m => Matcher.importance_rank m = 1%Z) ms.
Proof.
  split; [ reflexivity | ].
  eexists. eexists. split; [ vm_compute; reflexivity | ].
  split; [ reflexivity | repeat constructor ].
Qed.

(* ================================================================== *)
(** * Judge failures *)
(* ================================================================== *)

Section JudgeFailures.

Import Matcher MatcherFacts.

Lemma attempt_loop_rejected (run : Ollama.Process) (prompt : string) (timeout : Q)
    (maxR : nat) :
  always_rejected run ->
  forall fuel attempt response,
    Ollama.attempt_loop run prompt timeout maxR attempt fuel <> Normal (Some response).
Proof.
  intros Hrun fuel. induction fuel as [|fuel IH]; intros attempt response; simpl.
  - discriminate.
  - destruct (attempt <=? maxR)%nat; [ | discriminate ].
    destruct (Hrun prompt timeout attempt) as [msg ->].
    destruct (attempt =? maxR)%nat; [ discriminate | apply IH ].
Qed.

(** X5.  When every attempt fails, the handler reports the relevance 0;
    its promise is fulfilled all the same. *)
Lemma getSemanticRelevance_rejected (h : Ollama.OllamaHandler) (run : Ollama.Process)
    (topic text : string) :
  always_rejected run -> Ollama.getSemanticRelevance h run topic text = 0.
Proof.
  intro Hrun. unfold Ollama.getSemanticRelevance.
  destruct (JS.is_empty text || _); [ reflexivity | ].
  destruct (Ollama.executePrompt _ _ _ _ _) as [[response|]|msg] eqn:E;
    try reflexivity.
  exfalso. unfold Ollama.executePrompt in E.
  now apply (attempt_loop_rejected _ _ _ Hrun) in E.
Qed.

Variables fuzzyMatch cosineSimilarity : string -> string -> Q.
Variable this : SemanticMatcher.
Variable process : option (Ollama.OllamaHandler * (nat -> Ollama.Process)).
Hypothesis handler : ollamaHandler this = pipeline_handler process.

Lemma judged_same_failures (topic : string) (searchIndex : list Element) (s : State) :
  same_failures s
    (snd (judged_candidates fuzzyMatch cosineSimilarity this topic searchIndex s)).
Proof.
  unfold judged_candidates. rewrite handler.
  destruct process as [[h world]|]; simpl; [ | reflexivity ].
  destruct (aiEnhancedMode (config this) && _); [ | reflexivity ].
  unfold bind, ret.
  destruct (mapM _ _ _ _) as [judged s1] eqn:E. simpl.
  replace s1 with (snd (mapM (judge_one (ollama_judge h world) topic) 0
                          (JS.slice (sorted_candidates fuzzyMatch cosineSimilarity this
                                       topic searchIndex) 0 5) s))
    by now rewrite E.
  apply (mapM_state (judge_one (ollama_judge h world) topic) same_failures).
  - reflexivity.
  - unfold same_failures. intros. congruence.
  - intros i c s0. reflexivity.
Qed.

Lemma findTopicMatches_same_failures (topic : string) (searchIndex : list Element)
    (filename : string) (topicIndex : Z) (s : State) :
  same_failures s
    (snd (_findTopicMatches fuzzyMatch cosineSimilarity this topic searchIndex
            filename topicIndex s)).
Proof.
  pose proof (judged_same_failures topic searchIndex s) as H.
  unfold _findTopicMatches, bind, modify, ret.
  destruct (judged_candidates _ _ _ _ _ _) as [cs s1]. exact H.
Qed.

Lemma run_batches_same_failures (topics : list string) (searchIndex : list Element)
    (filename : string) (topicBatches : list (list string)) :
  forall acc s,
    same_failures s
      (snd (run_batches fuzzyMatch cosineSimilarity this topics searchIndex
              filename topicBatches acc s)).
Proof.
  induction topicBatches as [|batch rest IH]; intros acc s; simpl.
  - reflexivity.
  - unfold bind.
    destruct (run_batch _ _ _ _ _ _ _ _) as [found s1] eqn:E.
    assert (H1 : same_failures s s1).
    { replace s1 with (snd (run_batch fuzzyMatch cosineSimilarity this topics
                              searchIndex filename batch s)) by now rewrite E.
      unfold run_batch, bind, ret.
      destruct (mapM _ _ _ _) as [rs s2] eqn:E2. simpl.
      replace s2 with (snd (mapM (fun (_ : nat) (topic : string) =>
                         _findTopicMatches fuzzyMatch cosineSimilarity this topic
                           searchIndex filename (JS.indexOf topics topic)) 0 batch s))
        by now rewrite E2.
      apply (mapM_state _ same_failures).
      - reflexivity.
      - unfold same_failures. intros. congruence.
      - intros i t s0. apply findTopicMatches_same_failures. }
    specialize (IH (acc ++ found) s1). unfold same_failures in *. congruence.
Qed.

(** X2.  With the handler of the pipeline [failedAIMatches] never moves,
    whatever the external process does: the handler turns each of its
    failures into the score 0 before the matcher can see it. *)
Lemma pipeline_counts_no_failure (fuel : nat) (topics : list string)
    (ds : DocumentStructure) (filename : string) (s s' : State) (ms : list Match) :
  findBestMatches fuzzyMatch cosineSimilarity this fuel topics ds filename s
    = Some (ms, s') ->
  failedAIMatches (stats s') = failedAIMatches (stats s).
Proof.
  unfold findBestMatches.
  destruct (_createBatches _ _ _) as [bs|]; [ | discriminate ].
  destruct (run_batches _ _ _ _ _ _ _ _ _) as [found s1] eqn:R.
  intro H. injection H as _ <-.
  replace s1 with (snd (run_batches fuzzyMatch cosineSimilarity this topics
                          (_createSearchIndex ds) filename bs [] s)) by now rewrite R.
  apply run_batches_same_failures.
Qed.

End JudgeFailures.

(** C8.  Behind the pipeline's handler the external process times out at
    every attempt of every call.  The run completes and returns its three
    matches with AI score 0, yet [failedAIMatches] is still 0 and the three
    calls are counted in [aiEnhancedMatches].  A handler whose promise
    rejects is counted as the matcher intends: three failures. *)
Theorem judge_failures_not_counted :
  (forall n, always_rejected (Samples.silent n))
  /\ (exists ms s',
        Matcher.findBestMatches (Samples.always (1 # 2)) (Samples.always (1 # 2))
          (Samples.with_ollama Samples.silent) 5 ["Form Creation"%string]
          Samples.guide "document.pdf"%string Matcher.initial = Some (ms, s')
        /\ List.length ms = 3%nat
        /\ Forall (fun m => Matcher.ai_score m == 0) ms
        /\ Matcher.issued s' = 3%nat
        /\ Matcher.failedAIMatches (Matcher.stats s') = 0%nat
        /\ Matcher.aiEnhancedMatches (Matcher.stats s') = 3%nat)
  /\ (exists ms s',
        Matcher.findBestMatches (Samples.always (1 # 2)) (Samples.always (1 # 2))
          Samples.with_rejecting_judge 5 ["Form Creation"%string]
          Samples.guide "document.pdf"%string Matcher.initial = Some (ms, s')
        /\ Forall (fun m => Matcher.ai_score m == 0) ms
        /\ Matcher.failedAIMatches (Matcher.stats s') = 3%nat
        /\ Matcher.aiEnhancedMatches (Matcher.stats s') = 0%nat).
Proof.
  split; [ intros n prompt timeout attempt; eexists; reflexivity | ].
  split.
  - eexists. eexists. split; [ vm_compute; reflexivity | ].
    repeat split; repeat constructor.
  - eexists. eexists. split; [ vm_compute; reflexivity | ].
    repeat split; repeat constructor.
Qed.

(* ================================================================== *)
(** * Batches *)
(* ================================================================== *)

Module BatchFacts.

Import Matcher.

Lemma to_integer_int (q : Q) (z : Z) : q == inject_Z z -> JS.to_integer q = z.
Proof.
  unfold Qeq, JS.to_integer. simpl. intro H.
  rewrite Z.mul_1_r in H. rewrite H. now apply Z.quot_mul.
Qed.

Lemma ltb_int (q : Q) (z n : Z) : q == inject_Z z -> JS.ltb q (inject_Z n) = (z <? n)%Z.
Proof.
  intro H. destruct (Z.ltb_spec z n) as [L | L].
  - apply JSFacts.ltb_lt. rewrite H. now rewrite <- Zlt_Qlt.
  - destruct (JS.ltb q (inject_Z n)) eqn:E; [ | reflexivity ].
    apply JSFacts.ltb_lt in E. rewrite H in E. rewrite <- Zlt_Qlt in E. lia.
Qed.

Lemma firstn_min_length {A} (w : nat) (l : list A) :
  firstn (Nat.min w (List.length l)) l = firstn w l.
Proof.
  destruct (Nat.le_gt_cases w (List.length l)) as [L | L].
  - now rewrite Nat.min_l.
  - rewrite Nat.min_r by lia. rewrite firstn_all. symmetry. apply firstn_all2. lia.
Qed.

(** [slice] between two natural numbers. *)
Lemma slice_nat {A} (l : list A) (s e : Q) (z w : nat) :
  s == inject_Z (Z.of_nat z) -> e == inject_Z (Z.of_nat (z + w)) ->
  JS.slice l s e = firstn w (skipn z l).
Proof.
  intros Hs He. unfold JS.slice, JS.rel_index.
  rewrite (to_integer_int Hs), (to_integer_int He).
  destruct (Z.ltb_spec (Z.of_nat z) 0) as [N | _]; [ lia | ].
  destruct (Z.ltb_spec (Z.of_nat (z + w)) 0) as [N | _]; [ lia | ].
  destruct (Nat.le_gt_cases z (List.length l)) as [L | L].
  - rewrite (Z.min_l (Z.of_nat z)) by lia. rewrite Nat2Z.id.
    rewrite <- (firstn_min_length w (skipn z l)). rewrite length_skipn.
    f_equal. lia.
  - rewrite (Z.min_r (Z.of_nat z)) by lia. rewrite Nat2Z.id.
    rewrite skipn_all, (skipn_all2 l) by lia. now rewrite !firstn_nil.
Qed.

Section Chunks.

Variable A : Type.
Variable items : list A.
Variable w : nat.
Variable batchSize : Q.
Hypothesis w_positive : (0 < w)%nat.
Hypothesis batchSize_w : batchSize == inject_Z (Z.of_nat w).

Abbreviation batch_count := (Spec.batch_count w).

Lemma batch_count_0 : batch_count 0 = 0%nat.
Proof. unfold batch_count. apply Nat.div_small. lia. Qed.

Lemma batch_count_step (n : nat) : (0 < n)%nat -> batch_count n = S (batch_count (n - w)).
Proof.
  intro Hn. unfold batch_count.
  destruct (Nat.le_gt_cases w n) as [L | L].
  - replace (n + w - 1)%nat with ((n - w + w - 1) + 1 * w)%nat by lia.
    rewrite Nat.div_add by lia. lia.
  - replace (n - w)%nat with 0%nat by lia. simpl.
    rewrite (Nat.div_small (w - 1) w) by lia.
    symmetry. apply Nat.div_unique with (r := (n - 1)%nat); lia.
Qed.

Lemma batch_count_positive (n : nat) : (0 < batch_count n)%nat -> (0 < n)%nat.
Proof.
  destruct n; [ rewrite batch_count_0; lia | lia ].
Qed.

(** What the loop of [_createBatches] returns from position [z], for a
    positive whole batch size. *)
Lemma batches_from_whole :
  forall fuel z i,
    i == inject_Z (Z.of_nat z) ->
    (List.length items - z <= fuel)%nat ->
    exists bs,
      batches_from fuel items batchSize i = Some bs
      /\ List.concat bs = skipn z items
      /\ List.length bs = batch_count (List.length items - z)
      /\ Forall (fun b => (1 <= List.length b <= w)%nat) bs
      /\ (forall k, (S k < List.length bs)%nat -> List.length (nth k bs []) = w).
Proof.
  induction fuel as [|fuel IH]; intros z i Hi Hfuel.
  - assert (E : batches_from 0 items batchSize i = Some []).
    { simpl. rewrite (ltb_int _ Hi).
      destruct (Z.ltb_spec (Z.of_nat z) (Z.of_nat (List.length items))); [ lia | reflexivity ]. }
    exists []. rewrite E. repeat split.
    + simpl. symmetry. apply skipn_all2. lia.
    + replace (List.length items - z)%nat with 0%nat by lia.
      now rewrite batch_count_0.
    + constructor.
    + simpl. intros k Hk. lia.
  - simpl. rewrite (ltb_int _ Hi).
    destruct (Z.ltb_spec (Z.of_nat z) (Z.of_nat (List.length items))) as [L | L].
    + assert (Hi' : i + batchSize == inject_Z (Z.of_nat (z + w))).
      { rewrite Hi, batchSize_w, <- inject_Z_plus. now rewrite Nat2Z.inj_add. }
      destruct (IH (z + w)%nat (i + batchSize) Hi') as (bs & E & Hc & Hl & Hs & Hk);
        [ lia | ].
      rewrite E. simpl.
      rewrite (@slice_nat _ items _ _ _ _ Hi Hi').
      exists (firstn w (skipn z items) :: bs). repeat split.
      * simpl. rewrite Hc.
        replace (z + w)%nat with (w + z)%nat by lia.
        rewrite <- skipn_skipn. apply firstn_skipn.
      * simpl. rewrite Hl.
        rewrite (batch_count_step (n := List.length items - z)) by lia.
        do 2 f_equal. lia.
      * constructor; [ | exact Hs ].
        rewrite length_firstn, length_skipn. lia.
      * intros [|k] Hlen; simpl in *.
        -- assert (P : (0 < batch_count (List.length items - (z + w)))%nat) by lia.
           apply batch_count_positive in P.
           rewrite length_firstn, length_skipn. lia.
        -- apply Hk. lia.
    + exists []. repeat split.
      * simpl. symmetry. apply skipn_all2. lia.
      * replace (List.length items - z)%nat with 0%nat by lia.
        now rewrite batch_count_0.
      * constructor.
      * simpl. intros k Hk. lia.
Qed.

(** [_createBatches] cuts the items into consecutive batches of [w] items,
    the last one possibly shorter. *)
Lemma createBatches_whole (fuel : nat) :
  (List.length items <= fuel)%nat ->
  exists bs,
    _createBatches fuel items batchSize = Some bs
    /\ List.concat bs = items
    /\ List.length bs = batch_count (List.length items)
    /\ Forall (fun b => (1 <= List.length b <= w)%nat) bs
    /\ (forall k, (S k < List.length bs)%nat -> List.length (nth k bs []) = w).
Proof.
  intro Hfuel. unfold _createBatches.
  destruct (@batches_from_whole fuel 0%nat 0) as (bs & E & Hc & Hl & Hs & Hk).
  - reflexivity.
  - lia.
  - exists bs. rewrite Nat.sub_0_r in Hl. now repeat split.
Qed.

End Chunks.

End BatchFacts.

(* ================================================================== *)
(** * The order of the judge calls *)
(* ================================================================== *)

Module AsyncFacts.

Import Matcher Async.

(** ** The counters *)

Lemma plus_stats_zero (t : Stats) : plus_stats zero_stats t = t.
Proof. destruct t. unfold plus_stats. simpl. f_equal; lia. Qed.

Lemma plus_stats_assoc (a b t : Stats) :
  plus_stats a (plus_stats b t) = plus_stats (plus_stats a b) t.
Proof. unfold plus_stats. simpl. f_equal; lia. Qed.

Lemma plus_stats_comm (a b : Stats) : plus_stats a b = plus_stats b a.
Proof. unfold plus_stats. f_equal; lia. Qed.

Lemma credit_zero (s : State) : credit zero_stats s = s.
Proof. destruct s. unfold credit, on_stats. simpl. now rewrite plus_stats_zero. Qed.

Lemma credit_credit (a b : Stats) (s : State) :
  credit a (credit b s) = credit (plus_stats a b) s.
Proof. unfold credit, on_stats. simpl. now rewrite plus_stats_assoc. Qed.

Lemma credit_swap (a b : Stats) (s : State) :
  credit a (credit b s) = credit b (credit a s).
Proof. rewrite !credit_credit. now rewrite plus_stats_comm. Qed.

Lemma issued_credit (d : Stats) (s : State) : issued (credit d s) = issued s.
Proof. reflexivity. Qed.

Lemma settles_refl (l : list nat) : settles l [] l.
Proof. repeat split; simpl; intuition. Qed.

Lemma settles_trans (l l1 l2 : list nat) (tr1 tr2 : list Event) :
  settles l tr1 l1 -> settles l1 tr2 l2 -> settles l (tr1 ++ tr2) l2.
Proof.
  intros (A1 & A2 & A3) (B1 & B2 & B3). repeat split.
  - intros e He. apply in_app_or in He. destruct He as [He | He].
    + now apply A1.
    + destruct (B1 e He) as (n & -> & Hn). exists n. split; auto.
  - intros n Hn. destruct (A2 n Hn) as [H | H].
    + left. apply in_or_app. now left.
    + destruct (B2 n H) as [H' | H']; [ left; apply in_or_app; now right | now right ].
  - intros n Hn. auto.
Qed.

Lemma settles_one (l1 l2 : list nat) (n : nat) :
  settles (l1 ++ n :: l2) [Settled n] (l1 ++ l2).
Proof.
  repeat split.
  - intros e [<- | []]. exists n. split; [ reflexivity | ].
    apply in_or_app. right. now left.
  - intros m Hm. apply in_app_or in Hm. destruct Hm as [Hm | [<- | Hm]].
    + right. apply in_or_app. now left.
    + left. now left.
    + right. apply in_or_app. now right.
  - intros m Hm. apply in_app_or in Hm. apply in_or_app.
    destruct Hm; [ now left | right; now right ].
Qed.

Section Calm.

Variable judge : Judge.

Abbreviation step := (Async.step judge).
Abbreviation outcome := (Async.outcome judge).
Abbreviation run := (Async.run judge).
Abbreviation calm_step := (Async.calm_step judge).
Abbreviation completes := (Async.completes judge).
Abbreviation quiet := (Async.quiet judge).
Abbreviation prompt := (Async.prompt judge).
Abbreviation phased := (Async.phased judge).
Abbreviation phases := (Async.phases judge).

Lemma results_outcome {B} (ps : list (Proc B)) :
  forall rs' rs ds,
    results ps = Some rs' -> all3 (fun x => outcome x) ps rs ds ->
    rs' = rs /\ total ds = zero_stats /\ flat_map (fun x => pending x) ps = [].
Proof.
  induction ps as [|p ps IH]; intros rs' rs ds; simpl.
  - intros E [-> ->]. injection E as <-. repeat split.
  - destruct p as [b| |]; try discriminate.
    destruct (results ps) as [rs0|] eqn:R; [ | discriminate ].
    simpl. intro E. injection E as <-.
    destruct rs as [|r rs]; [ tauto | ]. destruct ds as [|d ds]; [ tauto | ].
    intros [[-> ->] H].
    destruct (IH _ _ _ eq_refl H) as (-> & T & P).
    simpl. rewrite T. repeat split; assumption.
Qed.

Lemma one_of_calm {B} (ps : list (Proc B)) :
  Forall (fun p => calm_step p) ps ->
  forall rs ds, all3 (fun x => outcome x) ps rs ds ->
  forall s evs ps' s', one_of (fun x => step x) ps s evs ps' s' ->
    exists ds', all3 (fun x => outcome x) ps' rs ds'
                /\ credit (total ds') s' = credit (total ds) s
                /\ ((evs = [] /\ flat_map (fun x => pending x) ps'
                                = flat_map (fun x => pending x) ps)
                    \/ exists n l1 l2,
                         evs = [Settled n]
                         /\ flat_map (fun x => pending x) ps = l1 ++ n :: l2
                         /\ flat_map (fun x => pending x) ps' = l1 ++ l2).
Proof.
  induction 1 as [|p ps Hp _ IH]; intros rs ds Hall s evs ps' s'; simpl.
  - intros [].
  - destruct rs as [|r rs]; [ destruct Hall | ].
    destruct ds as [|d ds]; [ destruct Hall | ].
    destruct Hall as [Ho Hall].
    intros [(q & Hstep & ->) | (ps1 & Hstep & ->)].
    + destruct (Hp r d Ho s evs q s' Hstep) as (d' & Ho' & E & Hev).
      exists (d' :: ds). split; [ simpl; auto | ]. split.
      * simpl. rewrite <- !credit_credit.
        rewrite (credit_swap d'), (credit_swap d). now rewrite E.
      * simpl. destruct Hev as [[-> Hp'] | (n & l1 & l2 & -> & H1 & H2)].
        -- left. split; [ reflexivity | now rewrite Hp' ].
        -- right. exists n, l1, (l2 ++ flat_map (fun x => pending x) ps).
           rewrite H1, H2. rewrite <- !app_assoc. simpl. auto.
    + destruct (IH rs ds Hall s evs ps1 s' Hstep) as (ds' & Hall' & E & Hev).
      exists (d :: ds'). split; [ simpl; auto | ]. split.
      * simpl. rewrite <- !credit_credit. now rewrite E.
      * simpl. destruct Hev as [[-> Hp'] | (n & l1 & l2 & -> & H1 & H2)].
        -- left. split; [ reflexivity | now rewrite Hp' ].
        -- right. exists n, (pending p ++ l1), l2.
           rewrite H1, H2. rewrite <- !app_assoc. auto.
Qed.

Lemma step_outcome {A} (p : Proc A) : calm_step p.
Proof.
  induction p as [A a|A n topic text k|A B ps k IH] using Proc_nested_ind;
    intros a0 d Ho s evs p' s' Hstep; simpl in *.
  - destruct Hstep.
  - destruct Hstep as (evs' & E & ->). rewrite Ho in E.
    injection E as <- <- <-.
    exists zero_stats. split; [ split; reflexivity | ]. split.
    + apply credit_zero.
    + right. exists n, [], []. auto.
  - destruct Ho as (rs & ds & dk & Hall & Hk & ->).
    destruct Hstep as [(rs' & R & E) | (ps' & Hstep & ->)].
    + destruct (@results_outcome _ ps _ _ _ R Hall) as (-> & T & P).
      rewrite Hk in E. injection E as <- <- <-.
      exists zero_stats. split; [ split; reflexivity | ]. split.
      * rewrite T, credit_zero, plus_stats_comm. now rewrite plus_stats_zero.
      * left. now rewrite P.
    + destruct (@one_of_calm _ ps IH rs ds Hall s evs ps' s' Hstep) as (ds' & Hall' & E & Hev).
      exists (plus_stats dk (total ds')). split.
      * exists rs, ds', dk. auto.
      * split; [ | exact Hev ].
        rewrite <- !credit_credit. now rewrite E.
Qed.


(** ** Tasks that issue their calls at once *)

Ltac stats_arith :=
  unfold credit, on_stats, at_, plus_stats; simpl; f_equal; try lia; f_equal; lia.

Lemma plus_stats_zero_r (d : Stats) : plus_stats d zero_stats = d.
Proof. destruct d. reflexivity. Qed.

Lemma quiet_Return {A} (a : A) : quiet (Return a).
Proof. exists a, zero_stats. intro s. rewrite credit_zero. split; reflexivity. Qed.

Lemma quiet_Bump {A} (d : Stats) (k : Task A) : quiet k -> quiet (Bump d k).
Proof.
  intros (a & d' & H). exists a, (plus_stats d' d). intro s. simpl.
  fold (credit d s). rewrite <- credit_credit. apply H.
Qed.

Lemma prompt_quiet {A} (t : Task A) : quiet t -> prompt t.
Proof.
  intros (a & d & H) i. exists a, d, zero_stats, 0%nat. intro st.
  exists (Finished a). rewrite Nat.add_0_r.
  destruct (H (at_ st i)) as [H1 H2].
  rewrite H1, H2, plus_stats_zero.
  repeat split.
Qed.

Lemma prompt_Await {A} (topic text : string) (k : Completion Q -> Task A) :
  (forall r, quiet (k r)) -> prompt (Await topic text k).
Proof.
  intros H i. destruct (H (judge i topic text)) as (a & d & Hk).
  exists a, zero_stats, d, 1%nat. intro st.
  exists (Waiting i topic text k). simpl.
  rewrite credit_zero, Nat.add_1_r, plus_stats_zero_r.
  split; [ reflexivity | ]. split; [ intro s; apply Hk | ].
  split; [ reflexivity | apply Hk ].
Qed.

Lemma thread_prompt {B} (ts : list (Task B)) :
  Forall (fun t => prompt t) ts ->
  forall i, exists rs d0 ds n, forall st,
    exists ps,
      thread (fun t => start t) ts (at_ st i)
      = (ps, credit d0 (at_ st (i + n)), map Issued (seq i n))
      /\ all3 (fun x => outcome x) ps rs ds
      /\ flat_map (fun x => pending x) ps = seq i n
      /\ thread_seq (fun t => result_of judge t) ts (at_ st i)
         = (rs, credit (plus_stats (total ds) d0) (at_ st (i + n))).
Proof.
  induction 1 as [|t ts Ht _ IH]; intro i.
  - exists [], zero_stats, [], 0%nat. intro st. exists [].
    rewrite Nat.add_0_r. unfold total. simpl fold_right.
    rewrite plus_stats_zero, credit_zero. repeat split.
  - destruct (Ht i) as (a & d0h & dh & nh & Hh).
    destruct (IH (i + nh)%nat) as (rs & d0t & dst & nt & Htl).
    exists (a :: rs), (plus_stats d0t d0h), (dh :: dst), (nh + nt)%nat. intro st.
    destruct (Hh st) as (p & S1 & O1 & P1 & R1).
    destruct (Htl (plus_stats d0h st)) as (ps & S2 & O2 & P2 & _).
    destruct (Htl (plus_stats (plus_stats dh d0h) st)) as (ps' & _ & _ & _ & R2).
    exists (p :: ps). simpl. rewrite S1, R1.
    change (credit d0h (at_ st (i + nh))) with (at_ (plus_stats d0h st) (i + nh)).
    change (credit (plus_stats dh d0h) (at_ st (i + nh)))
      with (at_ (plus_stats (plus_stats dh d0h) st) (i + nh)).
    rewrite S2, R2.
    split; [ | split; [ | split ] ].
    + f_equal; [ f_equal; stats_arith | ].
      rewrite seq_app, map_app. reflexivity.
    + auto.
    + rewrite P1, P2. now rewrite seq_app.
    + f_equal. stats_arith.
Qed.

Lemma prompt_AwaitAll {A B} (ts : list (Task B)) (k : list B -> Task A) :
  Forall (fun t => prompt t) ts -> (forall rs, quiet (k rs)) ->
  prompt (AwaitAll ts k).
Proof.
  intros Hts Hk i.
  destruct (@thread_prompt _ ts Hts i) as (rs & d0 & ds & n & H).
  destruct (Hk rs) as (a & dk & Hq).
  exists a, d0, (plus_stats dk (total ds)), n. intro st.
  destruct (H st) as (ps & S1 & O1 & P1 & R1).
  exists (Joining ps k). simpl. rewrite S1, R1.
  split; [ reflexivity | ]. split.
  - exists rs, ds, dk. split; [ exact O1 | ]. split; [ | reflexivity ].
    intro s. apply Hq.
  - split; [ exact P1 | ].
    destruct (Hq (credit (plus_stats (total ds) d0) (at_ st (i + n)))) as [_ ->].
    f_equal. stats_arith.
Qed.


(** ** Runs *)

Lemma run_Finished {A} (a : A) (s : State) (tr : list Event) (p' : Proc A) (s' : State) :
  run (Finished a) s tr p' s' -> tr = [] /\ p' = Finished a /\ s' = s.
Proof.
  intro H. inversion H as [|? ? ? ? ? ? ? ? Hstep]; subst; [ auto | destruct Hstep ].
Qed.

Lemma run_app {A} (p p1 p2 : Proc A) (s s1 s2 : State) (t1 t2 : list Event) :
  run p s t1 p1 s1 -> run p1 s1 t2 p2 s2 -> run p s (t1 ++ t2) p2 s2.
Proof.
  induction 1 as [|? ? ? ? ? ? ? ? Hstep _ IH]; intro H2; [ exact H2 | ].
  rewrite <- app_assoc. eapply run_step; [ exact Hstep | now apply IH ].
Qed.

(** A run of a process that joins processes with outcomes: it is still
    joining, or it has joined them, all settled, and gone on. *)
Lemma run_joined {A} (p : Proc A) (s : State) (tr : list Event) (p' : Proc A)
    (s' : State) :
  run p s tr p' s' ->
  match p with
  | Joining ps k =>
      forall rs ds,
        all3 (fun x => outcome x) ps rs ds ->
        (exists ps' ds',
            p' = Joining ps' k
            /\ all3 (fun x => outcome x) ps' rs ds'
            /\ credit (total ds') s' = credit (total ds) s
            /\ settles (flat_map (fun x => pending x) ps) tr
                       (flat_map (fun x => pending x) ps'))
        \/ (exists tr1 q s2 e2 tr2,
               tr = tr1 ++ e2 ++ tr2
               /\ settles (flat_map (fun x => pending x) ps) tr1 []
               /\ start (k rs) (credit (total ds) s) = (q, s2, e2)
               /\ run q s2 tr2 p' s')
  | _ => True
  end.
Proof.
  induction 1 as [p s|p s e1 p1 s1 e2 p2 s2 Hstep Hrun IH].
  - destruct p as [a| |B ps k]; try exact I.
    intros rs ds Hall. left. exists ps, ds.
    split; [ reflexivity | ]. split; [ exact Hall | ].
    split; [ reflexivity | apply settles_refl ].
  - destruct p as [a| |B ps k]; try exact I.
    intros rs ds Hall. simpl in Hstep.
    destruct Hstep as [(rs' & R & E) | (ps' & Hstep & ->)].
    + destruct (@results_outcome _ ps _ _ _ R Hall) as (-> & T & P).
      right. exists [], p1, s1, e1, e2.
      split; [ reflexivity | ]. split; [ rewrite P; apply settles_refl | ].
      split; [ rewrite T, credit_zero; exact E | exact Hrun ].
    + destruct (@one_of_calm _ ps
                  (proj2 (Forall_forall _ ps) (fun x _ => @step_outcome _ x))
                  rs ds Hall s e1 ps' s1 Hstep) as (ds' & Hall' & E & Hev).
      assert (S1 : settles (flat_map (fun x => pending x) ps) e1
                     (flat_map (fun x => pending x) ps')).
      { destruct Hev as [[-> ->] | (n & l1 & l2 & -> & -> & ->)];
          [ apply settles_refl | apply settles_one ]. }
      destruct (IH rs ds' Hall') as
        [(ps2 & ds2 & -> & Hall2 & E2 & S2)
        | (tr1 & q & sq & eq & tr2 & -> & S2 & Hq & Hrest)].
      * left. exists ps2, ds2. split; [ reflexivity | ]. split; [ exact Hall2 | ].
        split; [ now rewrite E2 | ]. eapply settles_trans; eauto.
      * right. exists (e1 ++ tr1), q, sq, eq, tr2.
        split; [ now rewrite <- app_assoc | ].
        split; [ eapply settles_trans; eauto | ].
        split; [ now rewrite <- E | exact Hrest ].
Qed.

Lemma one_of_at {X} (R : X -> State -> list Event -> X -> State -> Prop)
    (pre post : list X) (x y : X) (s s' : State) (evs : list Event) :
  R x s evs y s' -> one_of R (pre ++ x :: post) s evs (pre ++ y :: post) s'.
Proof.
  intro H. induction pre as [|z pre IH]; simpl.
  - left. now exists y.
  - right. now exists (pre ++ y :: post).
Qed.

Lemma run_child {A B} (pre post : list (Proc B)) (k : list B -> Task A)
    (p q : Proc B) (s s' : State) (tr : list Event) :
  run p s tr q s' ->
  run (Joining (pre ++ p :: post) k) s tr (Joining (pre ++ q :: post) k) s'.
Proof.
  induction 1 as [|? ? ? ? ? ? ? ? Hstep _ IH]; [ apply run_done | ].
  eapply run_step; [ | exact IH ].
  simpl. right. eexists. split; [ | reflexivity ].
  now apply one_of_at.
Qed.

Lemma children_complete {A B} (ps : list (Proc B)) (k : list B -> Task A) :
  Forall (fun p => completes p) ps ->
  forall rs ds, all3 (fun x => outcome x) ps rs ds ->
  forall pre s, exists tr,
    run (Joining (pre ++ ps) k) s tr (Joining (pre ++ map Finished rs) k)
        (credit (total ds) s).
Proof.
  induction 1 as [|p ps Hp _ IH]; intros rs ds Hall pre s.
  - destruct Hall as [-> ->]. exists []. simpl.
    rewrite credit_zero. apply run_done.
  - destruct rs as [|r rs]; [ destruct Hall | ].
    destruct ds as [|d ds]; [ destruct Hall | ].
    destruct Hall as [Ho Hall].
    destruct (Hp r d Ho s) as (tr1 & R1).
    destruct (IH rs ds Hall (pre ++ [Finished r]) (credit d s)) as (tr2 & R2).
    exists (tr1 ++ tr2). eapply run_app.
    + apply run_child. exact R1.
    + rewrite <- !app_assoc in R2. simpl in R2.
      simpl. rewrite <- credit_credit, credit_swap. exact R2.
Qed.

Lemma results_Finished {B} (rs : list B) : results (map Finished rs) = Some rs.
Proof. induction rs as [|r rs IH]; simpl; [ | rewrite IH ]; reflexivity. Qed.

Lemma outcome_completes {A} (p : Proc A) : completes p.
Proof.
  induction p as [A a|A n topic text k|A B ps k IH] using Proc_nested_ind;
    intros a0 d Ho s; simpl in Ho.
  - destruct Ho as [-> ->]. exists []. rewrite credit_zero. apply run_done.
  - exists ([Settled n] ++ []). eapply run_step; [ | apply run_done ].
    simpl. exists []. split; [ apply Ho | reflexivity ].
  - destruct Ho as (rs & ds & dk & Hall & Hk & ->).
    destruct (@children_complete _ _ ps k IH rs ds Hall [] s) as (tr & R).
    exists (tr ++ ([] ++ [])). eapply run_app; [ exact R | ].
    eapply run_step; [ | apply run_done ].
    simpl. left. exists rs. split; [ apply results_Finished | ].
    rewrite Hk. now rewrite credit_credit.
Qed.


(** ** Phases *)

Lemma app_split_later {X} (L M : list X) :
  forall T1 x T2,
    L ++ M = T1 ++ x :: T2 -> ~ In x L ->
    exists T1', T1 = L ++ T1' /\ M = T1' ++ x :: T2.
Proof.
  induction L as [|y L IH]; intros T1 x T2 E Hx; simpl in *.
  - now exists T1.
  - destruct T1 as [|z T1]; simpl in E; injection E as -> E.
    + elim Hx. now left.
    + destruct (IH T1 x T2 E) as (T1' & -> & ->); [ tauto | ].
      now exists T1'.
Qed.

Lemma phases_lower {A} (t : Task A) :
  phased t -> forall s c, In c (List.concat (phases t s)) -> (issued s <= c)%nat.
Proof.
  induction t as [A a|A d k IHk|A topic text k IHk|A B ts k IHk];
    simpl; try tauto.
  intros [Hts Hk] s c.
  destruct s as [st i]. fold (at_ st i).
  destruct (@thread_prompt _ ts Hts i) as (rs & d0 & ds & n & H).
  destruct (H st) as (ps & _ & _ & _ & R). rewrite R.
  simpl. intro Hc. apply in_app_or in Hc. destruct Hc as [Hc | Hc].
  - apply in_seq in Hc. lia.
  - apply (IHk rs (Hk rs)) in Hc. simpl in Hc. lia.
Qed.

Lemma phased_run {A} (t : Task A) :
  phased t ->
  forall s p0 s0 e0, start t s = (p0, s0, e0) ->
  forall tr p' s', run p0 s0 tr p' s' ->
    of_calls (phases t s) (e0 ++ tr)
    /\ ordered (phases t s) (e0 ++ tr)
    /\ (forall a, p' = Finished a ->
          result_of judge t s = (a, s') /\ all_calls (phases t s) (e0 ++ tr)).
Proof.
  induction t as [A a|A d k IHk|A topic text k IHk|A B ts k IHk];
    simpl; try tauto.
  - intros _ s p0 s0 e0 E tr p' s' Hrun. injection E as <- <- <-.
    apply run_Finished in Hrun. destruct Hrun as (-> & -> & ->).
    split; [ intros e [] | ]. split.
    + intros N N' cs cs' c c' _ HN. destruct N; discriminate.
    + intros a0 E. injection E as <-. split; [ reflexivity | intros c [] ].
  - intros [Hts Hk] s p0 s0 e0 E tr p' s' Hrun.
    destruct s as [st i]. fold (at_ st i) in *.
    destruct (@thread_prompt _ ts Hts i) as (rs & d0 & ds & n & H).
    destruct (H st) as (ps & S1 & Hall & P1 & R1).
    rewrite S1 in E. injection E as <- <- <-. rewrite R1.
    assert (L : forall c, In c (List.concat (phases (k rs)
                     (credit (plus_stats (total ds) d0) (at_ st (i + n))))) ->
                          (i + n <= c)%nat).
    { intros c Hc. apply (@phases_lower _ (k rs) (Hk rs)) in Hc. exact Hc. }
    assert (E0 : forall c', In (Issued c') (map Issued (seq i n)) -> In c' (seq i n)).
    { intros c' Hc'. apply in_map_iff in Hc'. destruct Hc' as (x & Ex & Hx).
      injection Ex as <-. exact Hx. }
    change (issued (at_ st i)) with i.
    change (issued (credit (plus_stats (total ds) d0) (at_ st (i + n)))) with (i + n)%nat.
    replace (i + n - i)%nat with n by lia.
    set (rest := phases (k rs) _) in *.
    pose proof (@run_joined _ _ _ _ _ _ Hrun rs ds Hall) as J. 
    destruct J as [(ps' & ds' & -> & Hall' & Ec & St)
                  | (tr1 & q & s2 & e2 & tr2 & -> & St & Hq & Hrest)].
    + rewrite P1 in St. destruct St as (St1 & St2 & St3).
      split; [ | split ].
      * intros e He. apply in_app_or in He. destruct He as [He | He].
        -- apply in_map_iff in He. destruct He as (c & <- & Hc).
           exists c. split; [ now left | ]. simpl. apply in_or_app. now left.
        -- destruct (St1 e He) as (c & -> & Hc).
           exists c. split; [ now right | ]. simpl. apply in_or_app. now left.
      * intros N N' cs cs' c c' HN E1 E2 Hc Hc' T1 T2 ET.
        exfalso. destruct N' as [|N']; [ lia | ]. simpl in E2.
        assert (Lc : (i + n <= c')%nat).
        { apply L. eapply in_concat. exists cs'. split; [ | exact Hc' ].
          eapply nth_error_In; eauto. }
        assert (In (Issued c') (map Issued (seq i n) ++ tr))
          by (rewrite ET; apply in_or_app; right; now left).
        apply in_app_or in H0. destruct H0 as [H0 | H0].
        -- apply E0, in_seq in H0. lia.
        -- destruct (St1 _ H0) as (x & Ex & _). discriminate Ex.
      * intros a Ea. discriminate Ea.
    + rewrite P1 in St. destruct St as (St1 & St2 & St3).
      replace (credit (total ds) (credit d0 (at_ st (i + n))))
        with (credit (plus_stats (total ds) d0) (at_ st (i + n))) in Hq
        by (now rewrite credit_credit).
      destruct (IHk rs (Hk rs) _ _ _ _ Hq _ _ _ Hrest) as (F1 & F2 & F3).
      fold rest in F1, F2, F3.
      split; [ | split ].
      * intros e He. apply in_app_or in He. destruct He as [He | He].
        -- apply in_map_iff in He. destruct He as (c & <- & Hc).
           exists c. split; [ now left | ]. simpl. apply in_or_app. now left.
        -- apply in_app_or in He. destruct He as [He | He].
           ++ destruct (St1 e He) as (c & -> & Hc).
              exists c. split; [ now right | ]. simpl. apply in_or_app. now left.
           ++ destruct (F1 e He) as (c & Hc1 & Hc2).
              exists c. split; [ exact Hc1 | ]. simpl. apply in_or_app. now right.
      * intros N N' cs cs' c c' HN E1 E2 Hc Hc' T1 T2 ET.
        destruct N' as [|N']; [ lia | ]. simpl in E2.
        assert (Lc : (i + n <= c')%nat).
        { apply L. eapply in_concat. exists cs'. split; [ | exact Hc' ].
          eapply nth_error_In; eauto. }
        rewrite app_assoc in ET.
        destruct (@app_split_later _ _ _ _ _ _ ET) as (T1' & -> & ET').
        { intro Hin. apply in_app_or in Hin. destruct Hin as [Hin | Hin].
          - apply E0, in_seq in Hin. lia.
          - destruct (St1 _ Hin) as (x & Ex & _). discriminate Ex. }
        destruct N as [|N]; simpl in E1.
        -- injection E1 as <-. apply in_or_app. left. apply in_or_app. right.
           destruct (St2 c Hc) as [Hs | []]. exact Hs.
        -- apply in_or_app. right.
           assert (HN' : (N < N')%nat) by lia.
           exact (F2 N N' cs cs' c c' HN' E1 E2 Hc Hc' T1' T2 ET').
      * intros a Ea. destruct (F3 a Ea) as (F4 & F5). split; [ exact F4 | ].
        intros c Hc. simpl in Hc. apply in_app_or in Hc. destruct Hc as [Hc | Hc].
        -- split.
           ++ apply in_or_app. left. apply in_map. exact Hc.
           ++ apply in_or_app. right. apply in_or_app. left.
              destruct (St2 c Hc) as [Hs | []]. exact Hs.
        -- destruct (F5 c Hc) as [G1 G2].
           split; apply in_or_app; right; apply in_or_app; right; assumption.
Qed.

Lemma phased_completes {A} (t : Task A) :
  phased t ->
  forall s p0 s0 e0, start t s = (p0, s0, e0) ->
  exists tr a s', run p0 s0 tr (Finished a) s'.
Proof.
  induction t as [A a|A d k IHk|A topic text k IHk|A B ts k IHk];
    simpl; try tauto.
  - intros _ s p0 s0 e0 E. injection E as <- <- <-.
    exists [], a, s. apply run_done.
  - intros [Hts Hk] s p0 s0 e0 E.
    destruct s as [st i]. fold (at_ st i) in *.
    destruct (@thread_prompt _ ts Hts i) as (rs & d0 & ds & n & H).
    destruct (H st) as (ps & S1 & Hall & P1 & R1).
    rewrite S1 in E. injection E as <- <- <-.
    destruct (@children_complete _ _ ps k
                (proj2 (Forall_forall _ ps) (fun x _ => @outcome_completes _ x))
                rs ds Hall [] (credit d0 (at_ st (i + n)))) as (tr1 & R).
    simpl in R.
    destruct (start (k rs) (credit (total ds) (credit d0 (at_ st (i + n)))))
      as [[q s2] e2] eqn:Eq.
    destruct (IHk rs (Hk rs) _ _ _ _ Eq) as (tr2 & a & s' & R2).
    exists (tr1 ++ (e2 ++ tr2)), a, s'.
    eapply run_app; [ exact R | ].
    eapply run_step; [ | exact R2 ].
    simpl. left. exists rs. split; [ apply results_Finished | exact Eq ].
Qed.

End Calm.

End AsyncFacts.

Section TaskFacts.

Import Matcher MatcherFacts Async AsyncFacts.

Variables fuzzyMatch cosineSimilarity : string -> string -> Q.
Variable this : SemanticMatcher.
Variable judge : Judge.
Lemma quiet_emit (filename topic : string) (topicIndex : Z) (cs : list Candidate) :
  quiet judge (emit_task this filename topic topicIndex cs).
Proof. unfold emit_task. apply quiet_Bump, quiet_Return. Qed.

Lemma prompt_judge_task (topic : string) (c : Candidate) :
  prompt judge (judge_task topic c).
Proof.
  unfold judge_task. apply prompt_Await.
  intros [a|msg]; apply quiet_Bump, quiet_Return.
Qed.

Lemma prompt_findTopicMatches (topic : string) (searchIndex : list Element)
    (filename : string) (topicIndex : Z) :
  prompt judge (findTopicMatches_task fuzzyMatch cosineSimilarity this topic
                  searchIndex filename topicIndex).
Proof.
  unfold findTopicMatches_task.
  destruct (ollamaHandler this); [ | apply prompt_quiet, quiet_emit ].
  destruct (aiEnhancedMode (config this) && _); [ | apply prompt_quiet, quiet_emit ].
  apply prompt_AwaitAll.
  - apply Forall_forall. intros t Ht. apply in_map_iff in Ht.
    destruct Ht as (c & <- & _). apply prompt_judge_task.
  - intro rs. apply quiet_emit.
Qed.

Lemma phased_batches (topics : list string) (searchIndex : list Element)
    (filename : string) (bs : list (list string)) :
  forall acc, phased judge (batches_task fuzzyMatch cosineSimilarity this topics
                              searchIndex filename bs acc).
Proof.
  induction bs as [|b bs IH]; intro acc; simpl; [ exact I | ].
  split; [ | intro rs; apply IH ].
  apply Forall_forall. intros t Ht. apply in_map_iff in Ht.
  destruct Ht as (topic & <- & _). apply prompt_findTopicMatches.
Qed.

(** ** The tasks one after the other: the state-passing methods *)

(** The handler of the semantics is the handler of the matcher. *)
Hypothesis handler : forall j, ollamaHandler this = Some j -> j = judge.

Lemma credit_aiEnhanced (s : State) :
  credit one_aiEnhanced s = on_stats incr_aiEnhanced s.
Proof.
  unfold credit, on_stats, plus_stats, incr_aiEnhanced, one_aiEnhanced. simpl.
  f_equal. f_equal; lia.
Qed.

Lemma credit_failedAI (s : State) :
  credit one_failedAI s = on_stats incr_failedAI s.
Proof.
  unfold credit, on_stats, plus_stats, incr_failedAI, one_failedAI. simpl.
  f_equal. f_equal; lia.
Qed.

Lemma credit_matches (traditional : bool) (n : nat) (s : State) :
  credit (counted_matches traditional n) s
  = on_stats (add_matches traditional n) s.
Proof.
  unfold credit, on_stats, plus_stats, add_matches, counted_matches. simpl.
  f_equal. destruct traditional; f_equal; lia.
Qed.

Lemma result_of_judge_task (topic : string) (i : nat) (c : Candidate) (s : State) :
  result_of judge (judge_task topic c) s = judge_one judge topic i c s.
Proof.
  unfold judge_task, judge_one, bind, next_call, modify, ret. simpl.
  destruct (judge (issued s) topic (e_text (element c))); simpl.
  - now rewrite credit_aiEnhanced.
  - now rewrite credit_failedAI.
Qed.

Lemma thread_seq_mapM {X Y Z} (f : X -> State -> Y * State) (g : Z -> X)
    (h : nat -> Z -> M Y) (l : list Z) :
  (forall i z s, f (g z) s = h i z s) ->
  forall i s, thread_seq f (map g l) s = mapM h i l s.
Proof.
  intro H. induction l as [|z l IH]; intros i s; simpl.
  - reflexivity.
  - unfold bind, ret. rewrite (H i z s). destruct (h i z s) as [y s1].
    rewrite (IH (S i) s1). now destruct (mapM h (S i) l s1).
Qed.

Lemma result_of_emit (filename topic : string) (topicIndex : Z) (cs : list Candidate)
    (s : State) :
  result_of judge (emit_task this filename topic topicIndex cs) s
  = (fold_left (emit_step this filename topic topicIndex) cs [],
     on_stats (add_matches (negb (ai_enabled this))
                 (List.length (fold_left (emit_step this filename topic topicIndex) cs [])))
              s).
Proof. unfold emit_task. simpl. now rewrite credit_matches. Qed.

Lemma result_of_findTopicMatches (topic : string) (searchIndex : list Element)
    (filename : string) (topicIndex : Z) (s : State) :
  result_of judge (findTopicMatches_task fuzzyMatch cosineSimilarity this topic
                     searchIndex filename topicIndex) s
  = _findTopicMatches fuzzyMatch cosineSimilarity this topic searchIndex
      filename topicIndex s.
Proof.
  unfold findTopicMatches_task, _findTopicMatches, judged_candidates, bind, modify, ret.
  destruct (ollamaHandler this) as [j|] eqn:Hj; [ | apply result_of_emit ].
  rewrite (handler eq_refl).
  destruct (aiEnhancedMode (config this) && _); [ | apply result_of_emit ].
  simpl.
  rewrite (@thread_seq_mapM _ _ _ (fun t => result_of judge t) (judge_task topic)
             (judge_one judge topic) _
             (fun i c s => result_of_judge_task topic i c s) 0%nat s).
  destruct (mapM _ _ _ _) as [judged s1]. apply result_of_emit.
Qed.

Lemma result_of_batches (topics : list string) (searchIndex : list Element)
    (filename : string) (bs : list (list string)) :
  forall acc s,
    result_of judge (batches_task fuzzyMatch cosineSimilarity this topics searchIndex
                       filename bs acc) s
    = let (matches, s') := run_batches fuzzyMatch cosineSimilarity this topics
                             searchIndex filename bs acc s in
      (JS.sort compare_matches matches, s').
Proof.
  induction bs as [|b bs IH]; intros acc s; simpl; [ reflexivity | ].
  unfold bind at 1. unfold run_batch, bind, ret.
  rewrite (@thread_seq_mapM _ _ _ (fun t => result_of judge t)
             (fun topic => findTopicMatches_task fuzzyMatch cosineSimilarity this
                             topic searchIndex filename (JS.indexOf topics topic))
             (fun (_ : nat) topic => _findTopicMatches fuzzyMatch cosineSimilarity this
                             topic searchIndex filename (JS.indexOf topics topic)) _
             (fun i topic s => result_of_findTopicMatches topic searchIndex filename
                                 (JS.indexOf topics topic) s) 0%nat s).
  destruct (mapM _ _ _ _) as [rs s1]. apply IH.
Qed.

Lemma phases_batches (topics : list string) (searchIndex : list Element)
    (filename : string) (bs : list (list string)) :
  forall acc s,
    phases judge (batches_task fuzzyMatch cosineSimilarity this topics searchIndex
                    filename bs acc) s
    = calls_per_batch fuzzyMatch cosineSimilarity this topics searchIndex filename bs s.
Proof.
  induction bs as [|b bs IH]; intros acc s; simpl; [ reflexivity | ].
  unfold batch_calls, after_batch, run_batch, bind, ret.
  rewrite (@thread_seq_mapM _ _ _ (fun t => result_of judge t)
             (fun topic => findTopicMatches_task fuzzyMatch cosineSimilarity this
                             topic searchIndex filename (JS.indexOf topics topic))
             (fun (_ : nat) topic => _findTopicMatches fuzzyMatch cosineSimilarity this
                             topic searchIndex filename (JS.indexOf topics topic)) _
             (fun i topic s => result_of_findTopicMatches topic searchIndex filename
                                 (JS.indexOf topics topic) s) 0%nat s).
  destruct (mapM _ _ _ _) as [rs s1]. simpl. now rewrite IH.
Qed.

End TaskFacts.

Section BatchOrder.

Import Matcher MatcherFacts Async AsyncFacts.

Variables fuzzyMatch cosineSimilarity : string -> string -> Q.
Variable this : SemanticMatcher.

Lemma handler_of_this :
  forall j, ollamaHandler this = Some j -> j = handler_of this.
Proof. intros j H. unfold handler_of. now rewrite H. Qed.

(** C9.  For a batch width [w] that is a positive whole number and [n]
    topics, [_createBatches] returns (with fuel for [n] iterations) the
    topics cut into [ceil (n / w)] consecutive batches, each of [w] topics
    but the last, which has between 1 and [w].  [findBestMatches], read as
    a task, has a run that ends.  In every run of it, whatever the order in
    which the pending calls settle, the events are those of the judge
    calls of the batches, and whenever a call of a batch is issued every
    call of every earlier batch has settled.  A run that ends has issued
    and settled all the calls, and it returns the matches and leaves the
    statistics that the method run call by call does. *)
Theorem batches_and_their_order (w fuel : nat) (topics : list string)
    (ds : DocumentStructure) (filename : string) (s : State) :
  (0 < w)%nat ->
  maxConcurrentAIRequests (config this) == inject_Z (Z.of_nat w) ->
  (List.length topics <= fuel)%nat ->
  exists topicBatches,
    _createBatches fuel topics (maxConcurrentAIRequests (config this)) = Some topicBatches
    /\ List.concat topicBatches = topics
    /\ List.length topicBatches = ((List.length topics + w - 1) / w)%nat
    /\ (forall k, (S k < List.length topicBatches)%nat ->
                  List.length (nth k topicBatches []) = w)
    /\ Forall (fun b => (1 <= List.length b <= w)%nat) topicBatches
    /\ exists task,
         findBestMatches_task fuzzyMatch cosineSimilarity this fuel topics ds filename
         = Some task
         /\ (exists tr ms s', execution (handler_of this) task s tr (Finished ms) s')
         /\ forall tr p' s',
              execution (handler_of this) task s tr p' s' ->
              let calls := calls_per_batch fuzzyMatch cosineSimilarity this topics
                             (_createSearchIndex ds) filename topicBatches s in
              of_calls calls tr
              /\ ordered calls tr
              /\ forall ms,
                   p' = Finished ms ->
                   findBestMatches fuzzyMatch cosineSimilarity this fuel topics ds
                     filename s = Some (ms, s')
                   /\ all_calls calls tr.
Proof.
  intros Hw Hsize Hfuel.
  destruct (@BatchFacts.createBatches_whole _ topics w
              (maxConcurrentAIRequests (config this)) Hw Hsize fuel Hfuel)
    as (bs & E & Hc & Hl & Hs & Hk).
  exists bs.
  split; [ exact E | ]. split; [ exact Hc | ]. split; [ exact Hl | ].
  split; [ exact Hk | ]. split; [ exact Hs | ].
  set (task := batches_task fuzzyMatch cosineSimilarity this topics
                 (_createSearchIndex ds) filename bs []).
  assert (Ph : phased (handler_of this) task) by apply phased_batches.
  exists task. split; [ unfold findBestMatches_task; now rewrite E | ].
  split.
  - destruct (start task s) as [[p0 s0] e0] eqn:St.
    destruct (@phased_completes (handler_of this) _ task Ph s p0 s0 e0 St)
      as (tr & ms & s' & R).
    exists (e0 ++ tr), ms, s', p0, s0, e0, tr. auto.
  - intros tr p' s' (p0 & s0 & e0 & tr' & St & R & ->). cbv zeta.
    destruct (@phased_run (handler_of this) _ task Ph s p0 s0 e0 St tr' p' s' R)
      as (F1 & F2 & F3).
    unfold task in F1, F2, F3.
    rewrite (@phases_batches fuzzyMatch cosineSimilarity this (handler_of this)
               handler_of_this) in F1, F2, F3.
    split; [ exact F1 | ]. split; [ exact F2 | ].
    intros ms Ems. destruct (F3 ms Ems) as (F4 & F5). split; [ | exact F5 ].
    rewrite (@result_of_batches fuzzyMatch cosineSimilarity this (handler_of this)
               handler_of_this) in F4.
    unfold findBestMatches. rewrite E.
    destruct (run_batches _ _ _ _ _ _ _ _ _) as [matches s1].
    now injection F4 as <- <-.
Qed.

End BatchOrder.

(** Scenario D of the specification: five topics in batches of three. *)
Example scenario_D :
  Matcher._createBatches 5 Samples.five_topics 3
  = Some [ ["Form Creation"%string; "Compliance Requirements"%string;
            "Data Collection Fields"%string];
           ["Signatures"%string; "Sharing Forms"%string] ].
Proof. reflexivity. Qed.

(** The calls of scenario D: three in the first batch, two in the second.
    The task issues the first three when it starts, and waits for them. *)
Example scenario_D_calls :
  Async.calls_per_batch (Samples.always (1 # 2)) (Samples.always (1 # 2))
    (Samples.with_ollama Samples.helpful) Samples.five_topics
    (Matcher._createSearchIndex Samples.one_header) "document.pdf"%string
    [ ["Form Creation"%string; "Compliance Requirements"%string;
       "Data Collection Fields"%string];
      ["Signatures"%string; "Sharing Forms"%string] ]
    Matcher.initial
  = [[0; 1; 2]; [3; 4]]%nat.
Proof. vm_compute. reflexivity. Qed.

Example scenario_D_start :
  match Async.findBestMatches_task (Samples.always (1 # 2)) (Samples.always (1 # 2))
          (Samples.with_ollama Samples.helpful) 5 Samples.five_topics
          Samples.one_header "document.pdf"%string with
  | Some task =>
      let '(p, s, events) := Async.start task Matcher.initial in
      events = [Async.Issued 0; Async.Issued 1; Async.Issued 2]
      /\ Async.pending p = [0; 1; 2]%nat
      /\ Matcher.issued s = 3%nat
  | None => False
  end.
Proof. vm_compute. repeat split. Qed.

Lemma run_cons {A} (judge : Matcher.Judge) (p : Async.Proc A) s e1 p1 s1 e2 p2 s2 tr :
  Async.step judge p s e1 p1 s1 -> Async.run judge p1 s1 e2 p2 s2 ->
  tr = (e1 ++ e2)%list -> Async.run judge p s tr p2 s2.
Proof. intros H R ->. eapply Async.run_step; eauto. Qed.

Ltac in_list tac :=
  cbn [Async.one_of];
  first [ left; eexists; split; [ tac | reflexivity ]
        | right; eexists; split; [ in_list tac | reflexivity ] ].

Ltac a_step :=
  cbn [Async.step];
  first [ eexists; split; [ cbv; reflexivity | reflexivity ]
        | left; eexists; split; [ reflexivity | cbv; reflexivity ]
        | right; eexists; split; [ in_list a_step | reflexivity ] ].

Ltac steps e := eapply (@run_cons _ _ _ _ e); [ a_step | | reflexivity ].

(** The callbacks of two candidates.  The second call settles first; the
    first is rejected, which the callback answers by counting a failure;
    [Promise.all] then goes on, with the candidates in the order of the
    array. *)
Example calls_settle_in_any_order :
  Async.execution Samples.moody_judge
    (Async.AwaitAll
       (map (Async.judge_task "Forms")
            [Samples.entry "first text"; Samples.entry "second text"])
       (fun judged => Async.Return (map Matcher.aiScore judged)))
    Matcher.initial
    [Async.Issued 0; Async.Issued 1; Async.Settled 1; Async.Settled 0]
    (Async.Finished [0; 3 # 4])
    {| Matcher.stats :=
         {| Matcher.totalMatches := 0; Matcher.aiEnhancedMatches := 1;
            Matcher.traditionalMatches := 0; Matcher.failedAIMatches := 1 |};
       Matcher.issued := 2 |}.
Proof.
  unfold Async.execution. eexists. eexists. eexists. eexists.
  split; [ cbv; reflexivity | ]. split; [ | cbn [app]; reflexivity ].
  steps [Async.Settled 1]. steps [Async.Settled 0]. steps (@nil Async.Event).
  apply Async.run_done.
Qed.

(** Five topics in batches of three, in front of a process that answers. *)
Lemma batches_and_their_order_witness :
  (0 < 3)%nat
  /\ Matcher.maxConcurrentAIRequests (Matcher.config (Samples.with_ollama Samples.helpful))
     == inject_Z (Z.of_nat 3)
  /\ (List.length Samples.five_topics <= 5)%nat
  /\ exists topicBatches task,
       Matcher._createBatches 5 Samples.five_topics
         (Matcher.maxConcurrentAIRequests
            (Matcher.config (Samples.with_ollama Samples.helpful)))
       = Some topicBatches
       /\ List.length topicBatches = 2%nat
       /\ Forall (fun b => (1 <= List.length b <= 3)%nat) topicBatches
       /\ Async.findBestMatches_task (Samples.always (1 # 2)) (Samples.always (1 # 2))
            (Samples.with_ollama Samples.helpful) 5 Samples.five_topics
            Samples.one_header "document.pdf"%string = Some task
       /\ exists tr ms s',
            Async.execution (Async.handler_of (Samples.with_ollama Samples.helpful))
              task Matcher.initial tr (Async.Finished ms) s'.
Proof.
  assert (H1 : (0 < 3)%nat) by lia.
  assert (H2 : Matcher.maxConcurrentAIRequests
                 (Matcher.config (Samples.with_ollama Samples.helpful))
               == inject_Z (Z.of_nat 3)) by reflexivity.
  assert (H3 : (List.length Samples.five_topics <= 5)%nat) by (simpl; lia).
  split; [ exact H1 | split; [ exact H2 | split; [ exact H3 | ] ] ].
  destruct (@batches_and_their_order (Samples.always (1 # 2)) (Samples.always (1 # 2))
              (Samples.with_ollama Samples.helpful) 3 5 Samples.five_topics
              Samples.one_header "document.pdf"%string Matcher.initial H1 H2 H3)
    as (bs & E & _ & Hl & _ & Hs & task & Et & Hrun & _).
  exists bs, task. split; [ exact E | ]. split; [ exact Hl | ].
  split; [ exact Hs | ]. split; [ exact Et | exact Hrun ].
Defined.

(** [importance_rank_first_position] at a sample input. *)
Lemma importance_rank_first_position_witness :
  exists ms s',
    Matcher.findBestMatches Samples.verbosity Samples.verbosity Samples.plain 5
      ["Form Creation"%string; "Compliance"%string] Samples.guide
      "document.pdf"%string Matcher.initial = Some (ms, s')
    /\ NoDup ["Form Creation"%string; "Compliance"%string]
    /\ Forall (fun m =>
                 Matcher.importance_rank m
                 = (JS.indexOf ["Form Creation"%string; "Compliance"%string]
                      (Matcher.topic m) + 1)%Z) ms.
Proof.
  pose proof (@importance_rank_first_position Samples.verbosity Samples.verbosity
                Samples.plain 5%nat ["Form Creation"%string; "Compliance"%string]
                Samples.guide "document.pdf"%string Matcher.initial) as T.
  eexists. eexists. split; [ vm_compute; reflexivity | ].
  split.
  - repeat constructor; simpl; intuition discriminate.
  - eapply Forall_impl; [ | eapply T; vm_compute; reflexivity ].
    intros m (_ & H & _). exact H.
Defined.

(** [pipeline_counts_no_failure] at a sample input. *)
Lemma pipeline_counts_no_failure_witness :
  Matcher.ollamaHandler (Samples.with_ollama Samples.silent)
  = Matcher.pipeline_handler (Some (Ollama.constructor None, Samples.silent))
  /\ exists ms s',
       Matcher.findBestMatches (Samples.always (1 # 2)) (Samples.always (1 # 2))
         (Samples.with_ollama Samples.silent) 5 ["Form Creation"%string]
         Samples.guide "document.pdf"%string Matcher.initial = Some (ms, s')
       /\ Matcher.failedAIMatches (Matcher.stats s')
          = Matcher.failedAIMatches (Matcher.stats Matcher.initial).
Proof.
  split; [ reflexivity | ].
  eexists. eexists. split; [ vm_compute; reflexivity | ].
  eapply (@pipeline_counts_no_failure (Samples.always (1 # 2)) (Samples.always (1 # 2))
            (Samples.with_ollama Samples.silent)
            (Some (Ollama.constructor None, Samples.silent)) eq_refl
            5%nat ["Form Creation"%string] Samples.guide "document.pdf"%string
            Matcher.initial).
  vm_compute. reflexivity.
Defined.

(* ================================================================== *)
(** * Termination *)
(* ================================================================== *)

Section Termination.

Import Matcher.

Variables fuzzyMatch cosineSimilarity : string -> string -> Q.
Variable this : SemanticMatcher.

Lemma batches_from_diverges {A} (items : list A) (batchSize : Q) :
  items <> [] -> batchSize <= 0 ->
  forall fuel i, i <= 0 -> batches_from fuel items batchSize i = None.
Proof.
  intros Hne Hsize.
  assert (Hlen : 0 < inject_Z (Z.of_nat (List.length items))).
  { change 0 with (inject_Z 0). rewrite <- Zlt_Qlt.
    destruct items; [ congruence | simpl; lia ]. }
  induction fuel as [|fuel IH]; intros i Hi; simpl.
  - assert (L : JS.ltb i (inject_Z (Z.of_nat (List.length items))) = true)
      by (apply JSFacts.ltb_lt; lra).
    now rewrite L.
  - assert (L : JS.ltb i (inject_Z (Z.of_nat (List.length items))) = true)
      by (apply JSFacts.ltb_lt; lra).
    rewrite L. rewrite IH by lra. reflexivity.
Qed.

(** X4.  With a batch width that is a positive whole number
    [findBestMatches] returns, given fuel for one iteration per topic;
    with a width that is not positive and at least one topic, the loop of
    [_createBatches] never ends. *)
Lemma findBestMatches_returns (fuel : nat) (topics : list string)
    (ds : DocumentStructure) (filename : string) (s : State) :
  (forall w, (0 < w)%nat ->
             maxConcurrentAIRequests (config this) == inject_Z (Z.of_nat w) ->
             (List.length topics <= fuel)%nat ->
             exists ms s',
               findBestMatches fuzzyMatch cosineSimilarity this fuel topics ds filename s
               = Some (ms, s'))
  /\ (maxConcurrentAIRequests (config this) <= 0 -> topics <> [] ->
      findBestMatches fuzzyMatch cosineSimilarity this fuel topics ds filename s = None).
Proof.
  split.
  - intros w Hw Hsize Hfuel.
    destruct (@BatchFacts.createBatches_whole _ topics w
                (maxConcurrentAIRequests (config this)) Hw Hsize fuel Hfuel)
      as (bs & E & _).
    unfold findBestMatches. rewrite E.
    destruct (run_batches _ _ _ _ _ _ _ _ _) as [found s1].
    now exists (JS.sort compare_matches found), s1.
  - intros Hsize Hne. unfold findBestMatches, _createBatches.
    rewrite (@batches_from_diverges _ topics _ Hne Hsize fuel 0); [ reflexivity | ].
    apply Qle_refl.
Qed.

End Termination.

(** [findBestMatches_returns] at a sample input. *)
Lemma findBestMatches_returns_witness :
  (0 < 3)%nat
  /\ Matcher.maxConcurrentAIRequests (Matcher.config Samples.plain)
     == inject_Z (Z.of_nat 3)
  /\ (List.length Samples.five_topics <= 5)%nat
  /\ exists ms s',
       Matcher.findBestMatches (Samples.always (1 # 2)) (Samples.always (1 # 2))
         Samples.plain 5 Samples.five_topics Samples.guide "document.pdf"%string
         Matcher.initial = Some (ms, s').
Proof.
  assert (H1 : (0 < 3)%nat) by lia.
  assert (H2 : Matcher.maxConcurrentAIRequests (Matcher.config Samples.plain)
               == inject_Z (Z.of_nat 3)) by reflexivity.
  assert (H3 : (List.length Samples.five_topics <= 5)%nat) by (simpl; lia).
  split; [ exact H1 | split; [ exact H2 | split; [ exact H3 | ] ] ].
  exact (proj1 (@findBestMatches_returns (Samples.always (1 # 2)) (Samples.always (1 # 2))
                  Samples.plain 5%nat Samples.five_topics Samples.guide
                  "document.pdf"%string Matcher.initial) 3%nat H1 H2 H3).
Defined.

(* ================================================================== *)
(** * Strings *)
(* ================================================================== *)

Module StringFacts.

Import JS.

Lemma trimStart_head (s : string) :
  trimStart s = EmptyString
  \/ exists c r, trimStart s = String c r /\ is_space c = false.
Proof.
  induction s as [|c s IH]; simpl.
  - now left.
  - destruct (is_space c) eqn:E; [ exact IH | ].
    right. now exists c, s.
Qed.

Lemma trimEnd_cons (c : ascii) (r : string) :
  is_space c = false -> trimEnd (String c r) = String c (trimEnd r).
Proof. intro H. simpl. now rewrite H. Qed.

Lemma trimEnd_idempotent (s : string) : trimEnd (trimEnd s) = trimEnd s.
Proof.
  induction s as [|c s IH]; simpl.
  - reflexivity.
  - destruct (is_space c && is_empty (trimEnd s)) eqn:E.
    + reflexivity.
    + simpl. rewrite IH, E. reflexivity.
Qed.

Lemma trim_idempotent (s : string) : trim (trim s) = trim s.
Proof.
  unfold trim.
  destruct (trimStart_head s) as [-> | (c & r & -> & Hc)].
  - reflexivity.
  - rewrite (@trimEnd_cons c r Hc). simpl. rewrite Hc.
    rewrite <- (@trimEnd_cons c r Hc). apply trimEnd_idempotent.
Qed.

Lemma trimStart_length (s : string) : (String.length (trimStart s) <= String.length s)%nat.
Proof.
  induction s as [|c s IH]; simpl.
  - lia.
  - destruct (is_space c); simpl; lia.
Qed.

Lemma trimEnd_length (s : string) : (String.length (trimEnd s) <= String.length s)%nat.
Proof.
  induction s as [|c s IH]; simpl.
  - lia.
  - destruct (is_space c && is_empty (trimEnd s)); simpl; lia.
Qed.

Lemma trim_length (s : string) : (String.length (trim s) <= String.length s)%nat.
Proof.
  unfold trim. pose proof (trimEnd_length (trimStart s)).
  pose proof (trimStart_length s). lia.
Qed.

Lemma trimStart_chars (s : string) (c : ascii) :
  In c (chars (trimStart s)) -> In c (chars s).
Proof.
  induction s as [|a s IH]; simpl; [ tauto | ].
  destruct (is_space a); simpl; auto.
Qed.

Lemma trimEnd_chars (s : string) (c : ascii) :
  In c (chars (trimEnd s)) -> In c (chars s).
Proof.
  induction s as [|a s IH]; simpl; [ tauto | ].
  destruct (is_space a && is_empty (trimEnd s)); simpl; [ tauto | ].
  intros [H | H]; auto.
Qed.

Lemma trim_chars (s : string) (c : ascii) : In c (chars (trim s)) -> In c (chars s).
Proof.
  unfold trim. intro H. now apply trimStart_chars, trimEnd_chars.
Qed.

Lemma trim_empty (s : string) : is_empty s = true -> trim s = EmptyString.
Proof. destruct s; [ reflexivity | discriminate ]. Qed.

Lemma is_empty_length (s : string) : is_empty s = true <-> String.length s = 0%nat.
Proof. destruct s; simpl; split; intro; auto; discriminate. Qed.

Lemma prefix_length (n : nat) (s : string) :
  String.length (prefix n s) = Nat.min n (String.length s).
Proof.
  unfold prefix. revert n. induction s as [|c s IH]; intro n.
  - destruct n; reflexivity.
  - destruct n; simpl; [ reflexivity | ]. now rewrite IH.
Qed.

Lemma append_length (a b : string) :
  String.length (a ++ b) = (String.length a + String.length b)%nat.
Proof. induction a as [|c a IH]; simpl; [ reflexivity | now rewrite IH ]. Qed.

End StringFacts.

(** A process that times out at every attempt. *)
Lemma getSemanticRelevance_rejected_witness :
  always_rejected (Samples.silent 0)
  /\ Ollama.getSemanticRelevance (Ollama.constructor None) (Samples.silent 0)
       "Form Creation"%string "Create Fillable PDFs"%string = 0.
Proof.
  assert (H : always_rejected (Samples.silent 0))
    by (intros prompt timeout attempt; eexists; reflexivity).
  split; [ exact H | ].
  exact (@getSemanticRelevance_rejected (Ollama.constructor None) (Samples.silent 0)
           "Form Creation"%string "Create Fillable PDFs"%string H).
Defined.

(* ================================================================== *)
(** * The retries of the handler *)
(* ================================================================== *)

Section Retries.

Import Ollama.

Variable run : Process.
Variable prompt : string.
Variable timeout : Q.
Variable maxR : nat.

Lemma truthy_trim (out : string) :
  JS.truthy_str out && JS.truthy_str (JS.trim out) = true <-> JS.trim out <> EmptyString.
Proof.
  split.
  - intro H. apply andb_true_iff in H. destruct H as [_ H].
    destruct (JS.trim out); [ discriminate | discriminate ].
  - intro H. apply andb_true_iff. split.
    + destruct out; [ now elim H | reflexivity ].
    + destruct (JS.trim out); [ now elim H | reflexivity ].
Qed.

(** What the loop does at an attempt that fails. *)
Lemma attempt_loop_fail (a fuel : nat) :
  (a <= maxR)%nat -> fails run prompt timeout a ->
  attempt_loop run prompt timeout maxR a (S fuel)
  = if (a =? maxR)%nat
    then match run prompt timeout a with
         | Resolved _ => Throw "Ollama failed: Empty response from Ollama"
         | Rejected msg => Throw ("Ollama failed: " ++ msg)
         end
    else attempt_loop run prompt timeout maxR (S a) fuel.
Proof.
  intros Ha Hf. simpl.
  apply Nat.leb_le in Ha. rewrite Ha.
  destruct (run prompt timeout a) as [out|msg] eqn:E.
  - destruct (JS.truthy_str out && JS.truthy_str (JS.trim out)) eqn:T.
    + exfalso. apply (Hf out). split; [ exact E | now apply truthy_trim ].
    + now destruct (a =? maxR)%nat.
  - now destruct (a =? maxR)%nat.
Qed.

Lemma attempt_loop_answer :
  forall fuel a k out,
    (a + fuel = maxR + 1)%nat -> (a <= k <= maxR)%nat ->
    answers run prompt timeout k out ->
    (forall j, (a <= j < k)%nat -> fails run prompt timeout j) ->
    attempt_loop run prompt timeout maxR a fuel = Normal (Some (JS.trim out)).
Proof.
  induction fuel as [|fuel IH]; intros a k out Hsum Hk Hans Hfail.
  - lia.
  - destruct (Nat.eq_dec a k) as [-> | Hne].
    + destruct Hans as [E T]. simpl.
      assert (L : (k <=? maxR)%nat = true) by (apply Nat.leb_le; lia).
      rewrite L, E. apply truthy_trim in T. now rewrite T.
    + rewrite attempt_loop_fail; [ | lia | apply Hfail; lia ].
      assert (N : (a =? maxR)%nat = false) by (apply Nat.eqb_neq; lia).
      rewrite N. apply IH with (k := k); auto; try lia.
      intros j Hj. apply Hfail. lia.
Qed.

Lemma attempt_loop_exhausted :
  forall fuel a,
    (a + S fuel = maxR + 1)%nat ->
    (forall j, (a <= j <= maxR)%nat -> fails run prompt timeout j) ->
    exists msg, attempt_loop run prompt timeout maxR a (S fuel) = Throw msg.
Proof.
  induction fuel as [|fuel IH]; intros a Hsum Hfail.
  - rewrite attempt_loop_fail; [ | lia | apply Hfail; lia ].
    assert (E : (a =? maxR)%nat = true) by (apply Nat.eqb_eq; lia).
    rewrite E. destruct (run prompt timeout a); eexists; reflexivity.
  - rewrite attempt_loop_fail; [ | lia | apply Hfail; lia ].
    assert (N : (a =? maxR)%nat = false) by (apply Nat.eqb_neq; lia).
    rewrite N. apply IH; [ lia | ].
    intros j Hj. apply Hfail. lia.
Qed.

Lemma attempt_loop_result :
  forall fuel a r,
    attempt_loop run prompt timeout maxR a fuel = Normal (Some r) ->
    exists k out, (a <= k <= maxR)%nat /\ answers run prompt timeout k out
                  /\ r = JS.trim out.
Proof.
  induction fuel as [|fuel IH]; intros a r; simpl.
  - discriminate.
  - destruct (a <=? maxR)%nat eqn:L; [ | discriminate ].
    apply Nat.leb_le in L.
    assert (Rec : attempt_loop run prompt timeout maxR (S a) fuel = Normal (Some r) ->
                  exists k out, (a <= k <= maxR)%nat /\ answers run prompt timeout k out
                                /\ r = JS.trim out).
    { intro H. destruct (IH _ _ H) as (k & out & Hk & Hans & Hr).
      exists k, out. split; [ lia | now split ]. }
    destruct (run prompt timeout a) as [out|msg] eqn:E.
    + destruct (JS.truthy_str out && JS.truthy_str (JS.trim out)) eqn:T.
      * intro H. injection H as <-. exists a, out.
        split; [ lia | ]. split; [ | reflexivity ].
        split; [ exact E | now apply truthy_trim ].
      * destruct (a =? maxR)%nat; [ discriminate | exact Rec ].
    + destruct (a =? maxR)%nat; [ discriminate | exact Rec ].
Qed.

End Retries.

(** X6.  [executePrompt] returns the trimmed output of the first attempt,
    among the first [maxRetries], at which the process resolves with an
    output that is not blank; when there is none (and [maxRetries] is at
    least 1) it throws.  What it returns is never blank and always comes
    from such an attempt. *)
Lemma executePrompt_first_answer (h : Ollama.OllamaHandler) (run : Ollama.Process)
    (prompt : string) (optTimeout : option Q) :
  let timeout := JS.or_default optTimeout (Ollama.timeoutMs h) in
  let result := Ollama.executePrompt h run prompt None optTimeout in
  (forall k out,
      (1 <= k <= Ollama.maxRetries h)%nat ->
      answers run prompt timeout k out ->
      (forall j, (1 <= j < k)%nat -> fails run prompt timeout j) ->
      result = Normal (Some (JS.trim out)))
  /\ ((1 <= Ollama.maxRetries h)%nat ->
      (forall j, (1 <= j <= Ollama.maxRetries h)%nat -> fails run prompt timeout j) ->
      exists msg, result = Throw msg)
  /\ (forall r,
        result = Normal (Some r) ->
        r <> EmptyString
        /\ exists k out, (1 <= k <= Ollama.maxRetries h)%nat
                         /\ answers run prompt timeout k out /\ r = JS.trim out).
Proof.
  intros timeout result. unfold result, Ollama.executePrompt. fold timeout.
  split; [ | split ].
  - intros k out Hk Hans Hfail.
    apply attempt_loop_answer with (k := k); auto. lia.
  - intros Hpos Hfail.
    destruct (Ollama.maxRetries h) as [|n] eqn:E; [ lia | ].
    apply attempt_loop_exhausted; [ lia | exact Hfail ].
  - intros r H. apply attempt_loop_result in H.
    destruct H as (k & out & Hk & Hans & ->).
    split; [ apply Hans | ]. now exists k, out.
Qed.

(** A process that fails twice, then answers. *)
Lemma executePrompt_first_answer_witness :
  let run : Ollama.Process :=
    fun _ _ k => if (k <? 3)%nat then Ollama.Rejected "busy"%string
                 else Ollama.Resolved " 0.8 "%string in
  answers run "p"%string 60000 3 " 0.8 "%string
  /\ Ollama.executePrompt (Ollama.constructor None) run "p"%string None None
     = Normal (Some "0.8"%string).
Proof.
  intro run.
  assert (A : answers run "p"%string 60000 3 " 0.8 "%string)
    by (split; [ reflexivity | discriminate ]).
  split; [ exact A | ].
  apply (proj1 (@executePrompt_first_answer (Ollama.constructor None) run "p"%string None)
           3%nat " 0.8 "%string).
  - simpl. lia.
  - exact A.
  - intros j Hj out [E _].
    assert (L : (j <? 3)%nat = true) by (apply Nat.ltb_lt; lia).
    unfold run in E. rewrite L in E. discriminate.
Defined.

(* ================================================================== *)
(** * The relevance score and the ranked topics of the handler *)
(* ================================================================== *)

Section HandlerAnswers.

Import Ollama.

Lemma take_digits_none (s : string) :
  Forall (fun c => JS.is_digit c = false) (JS.chars s) ->
  fst (take_digits s) = EmptyString.
Proof.
  destruct s as [|c s]; simpl; [ reflexivity | ].
  intro H. inversion H as [|? ? Hc _]; subst. now rewrite Hc.
Qed.

Lemma first_number_none (s : string) :
  Forall (fun c => JS.is_digit c = false) (JS.chars s) -> first_number s = None.
Proof.
  induction s as [|c s IH]; simpl; [ reflexivity | ].
  intro H. inversion H as [|? ? Hc Hs]; subst.
  rewrite Hc. specialize (IH Hs).
  destruct (is_dot c); [ | exact IH ].
  fold (JS.chars s) in Hs. now rewrite (take_digits_none s Hs).
Qed.

Variable h : OllamaHandler.
Variable run : Process.

(** X7.  The relevance the handler reports lies between 0 and 1.  It is 0
    for a text of fewer than 10 characters, whatever the process would
    answer, and for a reply that holds no digit; it is 1 for a reply whose
    first number is 1 or more. *)
Lemma getSemanticRelevance_cases (topic text : string) :
  0 <= getSemanticRelevance h run topic text <= 1
  /\ ((String.length text < 10)%nat -> getSemanticRelevance h run topic text = 0)
  /\ (forall response,
        (10 <= String.length text)%nat ->
        executePrompt h run (relevance_prompt topic text) None (Some 30000)
          = Normal (Some response) ->
        (Forall (fun c => JS.is_digit c = false) (JS.chars response) ->
         getSemanticRelevance h run topic text = 0)
        /\ (1 <= parse_score response -> getSemanticRelevance h run topic text = 1)).
Proof.
  split; [ apply OllamaFacts.getSemanticRelevance_unit | ]. split.
  - intro H. unfold getSemanticRelevance.
    apply Nat.ltb_lt in H. rewrite H. now rewrite orb_true_r.
  - intros response Hlen E. unfold getSemanticRelevance.
    assert (G : JS.is_empty text || (String.length text <? 10)%nat = false).
    { apply orb_false_iff. split.
      - destruct text; [ simpl in Hlen; lia | reflexivity ].
      - apply Nat.ltb_ge. exact Hlen. }
    rewrite G, E. split.
    + intro Hd. unfold parse_score. now rewrite (first_number_none response Hd).
    + intro Hp. unfold JS.math_min.
      apply Qle_bool_iff in Hp. rewrite Hp. reflexivity.
Qed.

Lemma generateRankedTopics_topics (summaries : list Summary) (persona task : string) :
  let topics := generateRankedTopics h run summaries persona task in
  (1 <= List.length topics <= 7)%nat
  /\ Forall (fun t => t <> EmptyString /\ trimmed t) topics.
Proof.
  intro topics.
  assert (F : (1 <= List.length fallback_topics <= 7)%nat
              /\ Forall (fun t => t <> EmptyString /\ trimmed t) fallback_topics).
  { split; [ simpl; lia | ]. repeat constructor; discriminate. }
  assert (P : forall response,
             (List.length (parse_topics response) <= 7)%nat
             /\ Forall (fun t => t <> EmptyString /\ trimmed t) (parse_topics response)).
  { intro response. unfold parse_topics.
    change 7 with (inject_Z (Z.of_nat 7)). rewrite ArrayFacts.slice_0. split.
    - apply firstn_le_length.
    - apply MatcherFacts.firstn_Forall. apply Forall_forall. intros t Ht.
      apply filter_In in Ht. destruct Ht as [Ht Hl].
      apply in_map_iff in Ht. destruct Ht as (line & <- & _).
      unfold topic_line in Hl. apply andb_true_iff in Hl. destruct Hl as [Hl _].
      apply Nat.ltb_lt in Hl. split.
      + intro E. rewrite E in Hl. simpl in Hl. lia.
      + apply StringFacts.trim_idempotent. }
  unfold topics, generateRankedTopics.
  destruct (executePrompt _ _ _ _ _) as [[response|]|msg] eqn:E; try exact F.
  destruct (P response) as [P1 P2].
  destruct (0 <? List.length (parse_topics response))%nat eqn:L; [ | exact F ].
  apply Nat.ltb_lt in L. split; [ lia | exact P2 ].
Qed.

(** X8.  The ranked topics are never an empty list and never more than
    seven; each of them is a trimmed string that is not empty.  Unless the
    process gives a reply, they are the five fallback topics. *)
Lemma generateRankedTopics_shape (summaries : list Summary) (persona task : string) :
  let topics := generateRankedTopics h run summaries persona task in
  (1 <= List.length topics <= 7)%nat
  /\ Forall (fun t => t <> EmptyString /\ trimmed t) topics
  /\ ((forall response,
         executePrompt h run (topics_prompt summaries persona task) None (Some 60000)
         <> Normal (Some response)) ->
      topics = fallback_topics).
Proof.
  intro topics.
  destruct (generateRankedTopics_topics summaries persona task) as [T1 T2].
  split; [ exact T1 | ]. split; [ exact T2 | ].
  intro H. unfold topics, generateRankedTopics.
  destruct (executePrompt _ _ _ _ _) as [[response|]|msg] eqn:E; try reflexivity.
  now elim (H response).
Qed.

End HandlerAnswers.

(** A reply with a heading, blank lines and padded lines. *)
Example ranked_topics_reply :
  Ollama.generateRankedTopics (Ollama.constructor None)
    (fun _ _ _ => Ollama.Resolved "Topics:
  Form Creation  

Compliance Requirements
")%string [] "HR professional"%string "Create forms"%string
  = ["Form Creation"%string; "Compliance Requirements"%string].
Proof. vm_compute. reflexivity. Qed.

(* ================================================================== *)
(** * Cleaned text *)
(* ================================================================== *)

Section CleanText.

Import Analyzer.

Lemma collapse_spaces_chars (s : string) :
  forall b c, In c (JS.chars (collapse_spaces b s)) ->
              (In c (JS.chars s) /\ JS.is_space c = false) \/ c = " "%char.
Proof.
  induction s as [|a s IH]; intros b c; simpl; [ tauto | ].
  destruct (JS.is_space a) eqn:E.
  - destruct b; simpl.
    + intro H. destruct (IH _ _ H) as [[H1 H2] | H1]; auto.
    + intros [<- | H]; [ now right | ].
      destruct (IH _ _ H) as [[H1 H2] | H1]; auto.
  - simpl. intros [<- | H]; [ left; auto | ].
    destruct (IH _ _ H) as [[H1 H2] | H1]; auto.
Qed.

Lemma collapse_spaces_length (s : string) :
  forall b, (String.length (collapse_spaces b s) <= String.length s)%nat.
Proof.
  induction s as [|a s IH]; intro b; simpl; [ lia | ].
  pose proof (IH true). pose proof (IH false).
  destruct (JS.is_space a); [ destruct b | ]; simpl; lia.
Qed.

Lemma keep_allowed_chars (s : string) (c : ascii) :
  In c (JS.chars (keep_allowed s)) -> In c (JS.chars s) /\ is_allowed c = true.
Proof.
  induction s as [|a s IH]; simpl; [ tauto | ].
  destruct (is_allowed a) eqn:E; simpl.
  - intros [<- | H]; [ auto | ]. destruct (IH H); auto.
  - intro H. destruct (IH H); auto.
Qed.

Lemma keep_allowed_length (s : string) :
  (String.length (keep_allowed s) <= String.length s)%nat.
Proof.
  induction s as [|a s IH]; simpl; [ lia | ].
  destruct (is_allowed a); simpl; lia.
Qed.

(** X9.  The text [_cleanText] returns holds allowed characters only (word
    characters, the plain space and the punctuation [-.,!?:;()]), no white
    space other than the plain space, has no white space at either end,
    and is not longer than the text given. *)
Lemma cleanText_clean (text : string) :
  Forall clean_char (JS.chars (_cleanText text))
  /\ trimmed (_cleanText text)
  /\ (String.length (_cleanText text) <= String.length text)%nat.
Proof.
  unfold _cleanText. destruct (JS.is_empty text).
  - repeat split; [ constructor | simpl; lia ].
  - split; [ | split ].
    + apply Forall_forall. intros c Hc.
      apply StringFacts.trim_chars in Hc.
      apply keep_allowed_chars in Hc. destruct Hc as [Hc Ha].
      split; [ exact Ha | ]. intro Hs.
      destruct (collapse_spaces_chars _ _ _ Hc) as [[_ H] | H]; [ congruence | exact H ].
    + apply StringFacts.trim_idempotent.
    + pose proof (StringFacts.trim_length (keep_allowed (collapse_spaces false text))).
      pose proof (keep_allowed_length (collapse_spaces false text)).
      pose proof (collapse_spaces_length text false). lia.
Qed.

End CleanText.

(** Cleaning is not idempotent: the spaces next to a removed character stay. *)
Example cleanText_twice :
  Analyzer._cleanText "a # b"%string = "a  b"%string
  /\ Analyzer._cleanText "a  b"%string = "a b"%string.
Proof. split; reflexivity. Qed.

(* ================================================================== *)
(** * The sections of a document structure *)
(* ================================================================== *)

Section ScannedSections.

Import Analyzer.

Variable an : DocumentAnalyzer.
Variable pages : list PageResult.

Lemma label_eqb_eq (a b : Label) : label_eqb a b = true -> a = b.
Proof. destruct a, b; simpl; congruence. Qed.

Lemma truthy_str_text (raw : string) :
  JS.truthy_str raw = true -> raw <> EmptyString.
Proof. intros H E. subst raw. discriminate H. Qed.

Lemma finalize_kept (st : Scan) :
  scan_invariant an pages st ->
  Forall (section_kept an pages) (finalize (sc_current st) (sc_sections st)).
Proof.
  intros [HS HC]. unfold finalize.
  destruct (sc_current st) as [cur|]; [ | exact HS ].
  destruct (s_content cur) as [|c l] eqn:E; [ exact HS | ].
  apply Forall_app. split; [ exact HS | ].
  constructor; [ | constructor ].
  split; [ rewrite E; discriminate | now apply HC ].
Qed.

Lemma add_content_opened (cur : Section) (c : Content) :
  section_opened an pages cur -> content_kept an pages c ->
  section_opened an pages (add_content cur c).
Proof.
  intros (H1 & H2 & H3) Hc. unfold section_opened. simpl.
  split; [ | split ].
  - apply Forall_app. split; [ exact H1 | constructor; [ exact Hc | constructor ] ].
  - rewrite length_app, H2. simpl. lia.
  - exact H3.
Qed.

Lemma step_invariant (p : PageResult) (st : Scan) (d : Detection) :
  In p pages -> In d (detections p) ->
  scan_invariant an pages st -> scan_invariant an pages (step an (pageNumber p) st d).
Proof.
  intros Hp Hd Inv. pose proof (finalize_kept Inv) as HF.
  destruct Inv as [HS HC]. unfold step.
  destruct (label_eqb (label d) Title && negb (has_title (sc_title st))
            && JS.geb (confidence d) (titleThreshold an)
            && JS.truthy_str (extractedText d)).
  { split; [ exact HS | exact HC ]. }
  destruct (label_eqb (label d) SectionHeader
            && JS.geb (confidence d) (sectionThreshold an)
            && JS.truthy_str (extractedText d)) eqn:E2.
  { apply andb_true_iff in E2. destruct E2 as [E2 T].
    apply andb_true_iff in E2. destruct E2 as [L G].
    apply JSFacts.geb_ge in G. apply label_eqb_eq in L.
    apply truthy_str_text in T.
    split; [ exact HF | ]. simpl. intros cur E. injection E as <-.
    unfold section_opened. simpl.
    split; [ constructor | split; [ reflexivity | ] ].
    exists p, d. simpl. repeat split; assumption. }
  destruct (sc_current st) as [cur|] eqn:EC.
  2:{ split; [ exact HS | ]. simpl. discriminate. }
  destruct ((label_eqb (label d) Text || label_eqb (label d) ListItem
             || label_eqb (label d) Caption) && JS.truthy_str (extractedText d)) eqn:E3.
  2:{ split; [ exact HS | ]. simpl. exact HC. }
  cbv zeta.
  destruct (JS.geb (inject_Z (Z.of_nat (String.length (_cleanText (extractedText d)))))
                   (minTextLength an)) eqn:E4.
  2:{ split; [ exact HS | ]. simpl. exact HC. }
  split; [ exact HS | ]. simpl. intros cur' E. injection E as <-.
  apply add_content_opened; [ now apply HC | ].
  apply andb_true_iff in E3. destruct E3 as [L T].
  apply JSFacts.geb_ge in E4. apply truthy_str_text in T.
  exists p, d.
  split; [ exact Hp | split; [ exact Hd | ] ].
  split; [ | split; [ exact T | split; [ exact E4 | reflexivity ] ] ].
  apply orb_true_iff in L. destruct L as [L|L].
  - apply orb_true_iff in L. destruct L as [L|L]; apply label_eqb_eq in L; rewrite L; simpl; auto.
  - apply label_eqb_eq in L. rewrite L. simpl. auto.
Qed.

Lemma fold_left_invariant {S X} (I : S -> Prop) (f : S -> X -> S) (l : list X) :
  (forall s x, In x l -> I s -> I (f s x)) -> forall s, I s -> I (fold_left f l s).
Proof.
  induction l as [|x l IH]; intros H s Hs; simpl; [ exact Hs | ].
  apply IH.
  - intros s' y Hy. apply H. now right.
  - apply H; [ now left | exact Hs ].
Qed.

Lemma scan_page_invariant (st : Scan) (p : PageResult) :
  In p pages -> scan_invariant an pages st -> scan_invariant an pages (scan_page an st p).
Proof.
  intros Hp Inv. unfold scan_page.
  apply fold_left_invariant; [ | exact Inv ].
  intros s d Hd. apply step_invariant; [ exact Hp | ].
  eapply Permutation_in; [ apply ArrayFacts.sort_perm | exact Hd ].
Qed.

Lemma scanned_invariant (st0 : Scan) :
  scan_invariant an pages st0 ->
  scan_invariant an pages (fold_left (scan_page an) pages st0).
Proof.
  apply fold_left_invariant. intros s p Hp. now apply scan_page_invariant.
Qed.

Lemma set_index_kept (i : nat) (s : Section) :
  section_kept an pages s -> section_kept an pages (set_index i s).
Proof. intro H. exact H. Qed.

Lemma add_indices_Forall (P : Section -> Prop) (l : list Section) :
  (forall i s, P s -> P (set_index i s)) ->
  forall i, Forall P l -> Forall P (add_indices i l).
Proof.
  intro HP. induction l as [|s l IH]; intros i H; simpl; [ constructor | ].
  inversion H as [|? ? Hs Hl]; subst.
  constructor; [ now apply HP | now apply IH ].
Qed.

Lemma structure_sections_kept :
  Forall (section_kept an pages) (sections (createDocumentStructure an pages)).
Proof.
  unfold createDocumentStructure, _postProcessStructure. cbv zeta. simpl sections.
  apply add_indices_Forall; [ intros i s; apply set_index_kept | ].
  apply ArrayFacts.sort_Forall.
  apply Forall_forall. intros s Hs. apply filter_In in Hs. destruct Hs as [Hs _].
  revert s Hs. apply Forall_forall.
  apply finalize_kept, scanned_invariant.
  split; [ constructor | simpl; discriminate ].
Qed.

Lemma header_kept_page (s : Section) :
  header_kept an pages s -> In (s_page s) (map pageNumber pages).
Proof.
  intros (p & d & Hp & _ & _ & _ & _ & _ & E & _). rewrite E. now apply in_map.
Qed.

Lemma content_kept_page (c : Content) :
  content_kept an pages c -> In (c_page c) (map pageNumber pages).
Proof.
  intros (p & d & Hp & _ & _ & _ & _ & ->). simpl. now apply in_map.
Qed.

Lemma content_kept_type (c : Content) :
  content_kept an pages c -> In (c_type c) [Text; ListItem; Caption].
Proof. intros (p & d & _ & _ & H & _ & _ & ->). exact H. Qed.

(** X10.  Every section of the structure [createDocumentStructure] returns
    holds at least one content item, although [_postProcessStructure] would
    keep an empty section whose title has more than three characters.  Its
    element count is the number of its content items.  Its title, page,
    confidence and box are those of a detection of the given pages: one
    labelled Section-header, with a text, whose confidence reached the
    section threshold; the title is the cleaned text of that detection.
    Each content item is made of a detection of the given pages labelled
    Text, List-item or Caption: it has the label, the confidence and the
    box of the detection and the number of its page, and its text is the
    cleaned text of the detection, of at least [minTextLength]
    characters. *)
Theorem sections_hold_content :
  Forall (fun s =>
            s_content s <> []
            /\ s_elementCount s = List.length (s_content s)
            /\ (exists p d,
                  In p pages /\ In d (detections p)
                  /\ label d = SectionHeader
                  /\ sectionThreshold an <= confidence d
                  /\ extractedText d <> EmptyString
                  /\ s_title s = _cleanText (extractedText d)
                  /\ s_page s = pageNumber p
                  /\ s_confidence s = confidence d
                  /\ s_bbox s = bbox d)
            /\ Forall (fun c =>
                         exists p d,
                           In p pages /\ In d (detections p)
                           /\ In (label d) [Text; ListItem; Caption]
                           /\ extractedText d <> EmptyString
                           /\ minTextLength an
                              <= inject_Z (Z.of_nat (String.length
                                                       (_cleanText (extractedText d))))
                           /\ c = {| c_type := label d;
                                     c_text := _cleanText (extractedText d);
                                     c_page := pageNumber p;
                                     c_confidence := confidence d;
                                     c_bbox := bbox d |})
                      (s_content s))
         (sections (createDocumentStructure an pages)).
Proof.
  eapply Forall_impl; [ | apply structure_sections_kept ].
  intros s (H0 & H1 & H2 & H3).
  split; [ exact H0 | split; [ exact H2 | split; [ exact H3 | exact H1 ] ] ].
Qed.

End ScannedSections.

Section PageOrder.

Import Analyzer.

Abbreviation by_page := (fun a b : Section => inject_Z (s_page a) - inject_Z (s_page b)).

Lemma by_page_before (a b : Section) : Spec.before by_page a b <-> (s_page a <= s_page b)%Z.
Proof. unfold Spec.before. rewrite Zle_Qle. split; intro H; lra. Qed.

Lemma sort_by_page_sorted (l : list Section) :
  StronglySorted Z.le (map s_page (JS.sort by_page l)).
Proof.
  assert (H : StronglySorted (Spec.before by_page) (JS.sort by_page l)).
  { apply ArrayFacts.sort_sorted.
    - intros x y. rewrite !by_page_before. lia.
    - intros x y z. rewrite !by_page_before. lia. }
  induction H as [|x l' _ IH HF]; simpl; constructor; [ exact IH | ].
  apply Forall_map. eapply Forall_impl; [ | exact HF ].
  intros y. apply by_page_before.
Qed.

Lemma add_indices_pages (l : list Section) :
  forall i, map s_page (add_indices i l) = map s_page l.
Proof. induction l as [|s l IH]; intro i; simpl; [ | rewrite IH ]; reflexivity. Qed.

Lemma add_indices_length (l : list Section) :
  forall i, List.length (add_indices i l) = List.length l.
Proof. induction l as [|s l IH]; intro i; simpl; [ | rewrite IH ]; reflexivity. Qed.

Lemma add_indices_index (l : list Section) :
  forall i, map s_index (add_indices i l)
            = map (fun k => Some (Z.of_nat k + 1)%Z) (seq i (List.length l)).
Proof. induction l as [|s l IH]; intro i; simpl; [ | rewrite IH ]; reflexivity. Qed.

(** X11.  The sections of the structure [createDocumentStructure] returns
    are in the order of their pages, and they are numbered 1, 2, 3, ... in
    that order. *)
Theorem sections_in_page_order (an : DocumentAnalyzer) (pages : list PageResult) :
  let secs := sections (createDocumentStructure an pages) in
  StronglySorted Z.le (map s_page secs)
  /\ map s_index secs = map (fun k => Some (Z.of_nat k + 1)%Z) (seq 0 (List.length secs)).
Proof.
  unfold createDocumentStructure, _postProcessStructure. cbv zeta. simpl sections.
  split.
  - rewrite add_indices_pages. apply sort_by_page_sorted.
  - rewrite add_indices_length. apply add_indices_index.
Qed.

End PageOrder.

Section DocumentCounts.

Import Analyzer.

Variable an : DocumentAnalyzer.

Lemma step_metadata (page : Z) (st : Scan) (d : Detection) :
  sc_metadata (step an page st d) = update_metadata (label d) (sc_metadata st).
Proof.
  unfold step. cbv zeta.
  repeat match goal with
         | |- context [if ?b then _ else _] => destruct b
         | |- context [match sc_current ?s with _ => _ end] => destruct (sc_current s)
         end; reflexivity.
Qed.

Lemma tally_cons (test : Label -> bool) (d : Detection) (ds : list Detection) :
  tally test (d :: ds) = (count (test (label d)) 0 + tally test ds)%nat.
Proof. unfold tally. simpl. destruct (test (label d)); reflexivity. Qed.

Lemma tally_app (test : Label -> bool) (l1 l2 : list Detection) :
  tally test (l1 ++ l2) = (tally test l1 + tally test l2)%nat.
Proof. unfold tally. now rewrite filter_app, length_app. Qed.

Lemma tally_true (ds : list Detection) : tally (fun _ => true) ds = List.length ds.
Proof. unfold tally. induction ds as [|d ds IH]; simpl; congruence. Qed.

Lemma tally_perm (test : Label -> bool) (l1 l2 : list Detection) :
  Permutation l1 l2 -> tally test l1 = tally test l2.
Proof.
  induction 1 as [|x l l' _ IH|x y l|l l' l'' _ IH1 _ IH2].
  - reflexivity.
  - rewrite !tally_cons, IH. reflexivity.
  - rewrite !tally_cons. lia.
  - congruence.
Qed.

Lemma counted_nil (m : Metadata) : counted m [] = m.
Proof. destruct m. unfold counted, tally. simpl. now rewrite !Nat.add_0_r. Qed.

Lemma counted_cons (m : Metadata) (d : Detection) (ds : list Detection) :
  counted (update_metadata (label d) m) ds = counted m (d :: ds).
Proof.
  unfold counted, update_metadata. rewrite !tally_cons. simpl.
  f_equal; unfold count;
    repeat match goal with |- context [if ?b then _ else _] => destruct b end; lia.
Qed.

Lemma counted_app (m : Metadata) (l1 l2 : list Detection) :
  counted (counted m l1) l2 = counted m (l1 ++ l2).
Proof. unfold counted. rewrite !tally_app. simpl. f_equal; lia. Qed.

Lemma counted_perm (m : Metadata) (l1 l2 : list Detection) :
  Permutation l1 l2 -> counted m l1 = counted m l2.
Proof. intro H. unfold counted. now rewrite !(tally_perm _ H). Qed.

Lemma steps_metadata (page : Z) (ds : list Detection) :
  forall st, sc_metadata (fold_left (step an page) ds st) = counted (sc_metadata st) ds.
Proof.
  induction ds as [|d ds IH]; intro st; simpl.
  - now rewrite counted_nil.
  - rewrite IH, step_metadata. apply counted_cons.
Qed.

Lemma scan_metadata (ps : list PageResult) :
  forall st, sc_metadata (fold_left (scan_page an) ps st)
             = counted (sc_metadata st) (flat_map detections ps).
Proof.
  induction ps as [|p ps IH]; intro st; simpl.
  - now rewrite counted_nil.
  - rewrite IH. unfold scan_page. rewrite steps_metadata.
    rewrite (counted_perm _ (ArrayFacts.sort_perm readingOrder (detections p))).
    apply counted_app.
Qed.

(** The sections pushed and the one being read are no more than the section
    headers counted. *)
Abbreviation opened st :=
  (List.length (sc_sections st)
   + match sc_current st with Some _ => 1 | None => 0 end)%nat.

Lemma finalize_length (st : Scan) :
  (List.length (finalize (sc_current st) (sc_sections st)) <= opened st)%nat.
Proof.
  unfold finalize. destruct (sc_current st) as [cur|]; [ | lia ].
  destruct (s_content cur); [ lia | ]. rewrite length_app. simpl. lia.
Qed.

Lemma step_opened (page : Z) (st : Scan) (d : Detection) :
  (opened st <= sectionHeaders (sc_metadata st))%nat ->
  (opened (step an page st d) <= sectionHeaders (sc_metadata (step an page st d)))%nat.
Proof.
  intro H. rewrite step_metadata. pose proof (finalize_length st) as HF.
  assert (M : (sectionHeaders (sc_metadata st)
               <= sectionHeaders (update_metadata (label d) (sc_metadata st)))%nat).
  { simpl. unfold count. destruct (label_eqb (label d) SectionHeader); lia. }
  unfold step. cbv zeta.
  destruct (label_eqb (label d) Title && negb (has_title (sc_title st))
            && JS.geb (confidence d) (titleThreshold an)
            && JS.truthy_str (extractedText d)).
  { cbn [sc_sections sc_current]. eapply Nat.le_trans; [ exact H | exact M ]. }
  destruct (label_eqb (label d) SectionHeader
            && JS.geb (confidence d) (sectionThreshold an)
            && JS.truthy_str (extractedText d)) eqn:E2.
  { apply andb_true_iff in E2. destruct E2 as [E2 _].
    apply andb_true_iff in E2. destruct E2 as [E2 _].
    cbn [sc_sections sc_current update_metadata sectionHeaders].
    rewrite E2. unfold count.
    rewrite Nat.add_1_r. apply le_n_S.
    eapply Nat.le_trans; [ exact HF | exact H ]. }
  destruct (sc_current st) as [cur|];
    [ destruct ((label_eqb (label d) Text || label_eqb (label d) ListItem
                 || label_eqb (label d) Caption) && JS.truthy_str (extractedText d));
      [ destruct (JS.geb (inject_Z (Z.of_nat (String.length
                                                (_cleanText (extractedText d)))))
                         (minTextLength an)) | ] | ];
    cbn [sc_sections sc_current]; (eapply Nat.le_trans; [ exact H | exact M ]).
Qed.

Lemma scan_opened (ps : list PageResult) (st0 : Scan) :
  (opened st0 <= sectionHeaders (sc_metadata st0))%nat ->
  let st := fold_left (scan_page an) ps st0 in
  (opened st <= sectionHeaders (sc_metadata st))%nat.
Proof.
  intro H. cbv zeta.
  apply (@fold_left_invariant _ _
           (fun st => (opened st <= sectionHeaders (sc_metadata st))%nat));
    [ | exact H ].
  intros s p _ Hs. unfold scan_page.
  apply (@fold_left_invariant _ _
           (fun st => (opened st <= sectionHeaders (sc_metadata st))%nat));
    [ | exact Hs ].
  intros s' d _. apply step_opened.
Qed.

Lemma filter_length_le {A} (f : A -> bool) (l : list A) :
  (List.length (filter f l) <= List.length l)%nat.
Proof. induction l as [|x l IH]; simpl; [ lia | destruct (f x); simpl; lia ]. Qed.

(** X12.  The four counters of the structure's metadata count the
    detections of all pages by label alone: all of them, those labelled
    Text or List-item, those labelled Section-header and those labelled
    Title, whatever their confidence and their text.  So the structure
    never has more sections than section headers were counted. *)
Theorem metadata_counts_labels (pages : list PageResult) :
  let structure := createDocumentStructure an pages in
  let md := metadata structure in
  totalElements md = List.length (flat_map detections pages)
  /\ textElements md
     = count_labels (fun l => label_eqb l Text || label_eqb l ListItem) pages
  /\ sectionHeaders md = count_labels (fun l => label_eqb l SectionHeader) pages
  /\ titles md = count_labels (fun l => label_eqb l Title) pages
  /\ (List.length (sections structure) <= sectionHeaders md)%nat.
Proof.
  cbv zeta. unfold createDocumentStructure, _postProcessStructure. cbv zeta.
  cbn [metadata sections].
  set (init := {| sc_title := None; sc_sections := []; sc_metadata := _;
                  sc_current := None |}).
  rewrite scan_metadata.
  split; [ | split; [ | split; [ | split ] ] ]; try reflexivity.
  - cbn. apply tally_true.
  - rewrite add_indices_length.
    rewrite (Permutation_length (ArrayFacts.sort_perm _ _)).
    eapply Nat.le_trans; [ apply filter_length_le | ].
    eapply Nat.le_trans; [ apply finalize_length | ].
    rewrite <- scan_metadata. apply scan_opened. simpl. lia.
Qed.

End DocumentCounts.

Section DocumentTitle.

Import Analyzer.

Variable an : DocumentAnalyzer.
Variable pages : list PageResult.

Lemma step_title (p : PageResult) (st : Scan) (d : Detection) :
  In p pages -> In d (detections p) ->
  (forall t, sc_title st = Some t -> title_detection an pages t) ->
  forall t, sc_title (step an (pageNumber p) st d) = Some t -> title_detection an pages t.
Proof.
  intros Hp Hd Inv t. unfold step. cbv zeta.
  destruct (label_eqb (label d) Title && negb (has_title (sc_title st))
            && JS.geb (confidence d) (titleThreshold an)
            && JS.truthy_str (extractedText d)) eqn:E1.
  { cbn [sc_title]. intro E. injection E as <-.
    apply andb_true_iff in E1. destruct E1 as [E1 T].
    apply andb_true_iff in E1. destruct E1 as [E1 G].
    apply andb_true_iff in E1. destruct E1 as [L _].
    exists p, d. split; [ exact Hp | split; [ exact Hd | ] ].
    split; [ now apply label_eqb_eq | ].
    split; [ now apply JSFacts.geb_ge | ].
    split; [ | reflexivity ].
    intro E. rewrite E in T. discriminate T. }
  destruct (label_eqb (label d) SectionHeader
            && JS.geb (confidence d) (sectionThreshold an)
            && JS.truthy_str (extractedText d)).
  { cbn [sc_title]. apply Inv. }
  destruct (sc_current st) as [cur|];
    [ destruct ((label_eqb (label d) Text || label_eqb (label d) ListItem
                 || label_eqb (label d) Caption) && JS.truthy_str (extractedText d));
      [ destruct (JS.geb (inject_Z (Z.of_nat (String.length
                                                (_cleanText (extractedText d)))))
                         (minTextLength an)) | ] | ];
    cbn [sc_title]; apply Inv.
Qed.

Lemma scan_title (st0 : Scan) :
  (forall t, sc_title st0 = Some t -> title_detection an pages t) ->
  forall t, sc_title (fold_left (scan_page an) pages st0) = Some t ->
            title_detection an pages t.
Proof.
  apply (@fold_left_invariant _ _
           (fun st => forall t, sc_title st = Some t -> title_detection an pages t)).
  intros s p Hp. unfold scan_page.
  apply (@fold_left_invariant _ _
           (fun st => forall t, sc_title st = Some t -> title_detection an pages t)).
  intros s' d Hd. apply step_title; [ exact Hp | ].
  eapply Permutation_in; [ apply ArrayFacts.sort_perm | exact Hd ].
Qed.

(** X13.  The title of the structure [createDocumentStructure] returns is
    the cleaned text of a detection labelled Title, with a text and a
    confidence of at least [titleThreshold]; or it is the title of the
    first section, and then it has more than five characters. *)
Theorem title_origin (t : string) :
  let structure := createDocumentStructure an pages in
  title structure = Some t ->
  title_detection an pages t
  \/ (exists s rest, sections structure = s :: rest /\ t = s_title s
                     /\ (5 < String.length t)%nat).
Proof.
  cbv zeta. unfold createDocumentStructure, _postProcessStructure. cbv zeta.
  cbn [title sections].
  set (st := fold_left (scan_page an) pages _).
  assert (Inv : forall t', sc_title st = Some t' -> title_detection an pages t').
  { apply scan_title. simpl. discriminate. }
  destruct (negb (has_title (sc_title st))); [ | intro E; left; now apply Inv ].
  destruct (JS.sort _ _) as [|first rest]; [ intro E; left; now apply Inv | ].
  destruct (5 <? String.length (s_title first))%nat eqn:E5;
    [ | intro E; left; now apply Inv ].
  intro E. injection E as <-. right.
  exists (set_index 0 first), (add_indices 1 rest).
  split; [ reflexivity | split; [ reflexivity | now apply Nat.ltb_lt ] ].
Qed.

End DocumentTitle.

Lemma title_origin_witness :
  title Samples.guide = Some "Form Design Guide"%string
  /\ (title_detection Samples.default_analyzer [Samples.guide_page] "Form Design Guide"%string
      \/ (exists s rest, sections Samples.guide = s :: rest
                         /\ "Form Design Guide"%string = s_title s
                         /\ (5 < String.length "Form Design Guide"%string)%nat)).
Proof.
  split; [ reflexivity | ].
  apply (@title_origin Samples.default_analyzer [Samples.guide_page]).
  reflexivity.
Defined.

(* ================================================================== *)
(** * Statistics and quality of a document *)
(* ================================================================== *)

Section DocumentStatistics.

Import Analyzer.

Lemma content_sum (secs : list Section) :
  Forall (fun s => s_content s <> []) secs ->
  forall a, (a + List.length secs
             <= fold_left (fun sum s => (sum + List.length (s_content s))%nat) secs a)%nat.
Proof.
  induction 1 as [|s l Hs _ IH]; intro a; simpl; [ lia | ].
  specialize (IH (a + List.length (s_content s))%nat).
  destruct (s_content s); [ congruence | simpl in *; lia ].
Qed.

Lemma rounded_ratio_ge_1 (a b : nat) : (0 < b <= a)%nat -> (1 <= rounded_ratio a b)%Z.
Proof.
  intros [Hb Hab]. unfold rounded_ratio.
  rewrite <- (JSFacts.round_half_up_int 1).
  apply JSFacts.round_half_up_mono.
  apply Qle_shift_div_l.
  - change 0 with (inject_Z 0). rewrite <- Zlt_Qlt. lia.
  - rewrite Qmult_1_l. rewrite <- Zle_Qle. lia.
Qed.

(** X14.  In the statistics of a structure that [createDocumentStructure]
    built, whatever the text and the number of pages, the number of sections
    with content is the number of sections, and the average content per
    section is at least 1 as soon as there is a section. *)
Theorem statistics_of_structure (an : DocumentAnalyzer) (pages : list PageResult)
    (n : nat) (allText : string) :
  let st := _generateStatistics (createDocumentStructure an pages) n allText in
  sectionsWithContent st = totalSections st
  /\ ((0 < totalSections st)%nat -> (1 <= averageContentPerSection st)%Z).
Proof.
  cbv zeta. unfold _generateStatistics. cbv zeta.
  cbn [sectionsWithContent totalSections averageContentPerSection].
  pose proof (structure_sections_kept an pages) as K.
  set (secs := sections (createDocumentStructure an pages)) in *.
  assert (C : Forall (fun s => s_content s <> []) secs).
  { eapply Forall_impl; [ | exact K ]. intros s [H _]. exact H. }
  split.
  - f_equal. clear K. induction C as [|s l Hs _ IH]; simpl; [ reflexivity | ].
    destruct (s_content s); [ congruence | ]. simpl. now rewrite IH.
  - intro H. destruct (0 <? List.length secs)%nat eqn:E;
      [ | apply Nat.ltb_ge in E; lia ].
    apply rounded_ratio_ge_1. pose proof (@content_sum _ C 0). lia.
Qed.

(** X15.  [analyzeDocumentQuality] calls a document excellent exactly when
    it has a title of five characters or more, at least one section and at
    least 100 words, and moreover three sections or 500 words.  It reports
    no issue exactly when the document has a title, a section and 100
    words. *)
Theorem quality_verdict (structure : DocumentStructure) (statistics : Statistics) :
  let quality := analyzeDocumentQuality structure statistics in
  let n := List.length (sections structure) in
  let w := wordCount statistics in
  (overall quality = "excellent"%string
   <-> (exists t, title structure = Some t /\ (5 <= String.length t)%nat)
       /\ (1 <= n)%nat /\ (100 <= w)%nat /\ (3 <= n \/ 500 <= w)%nat)
  /\ (issues quality = []
      <-> (exists t, title structure = Some t /\ t <> EmptyString)
          /\ (1 <= n)%nat /\ (100 <= w)%nat).
Proof.
  unfold analyzeDocumentQuality. cbv zeta. cbn [overall issues].
  set (n := List.length (sections structure)).
  set (w := wordCount statistics).
  split.
  - destruct (n =? 0)%nat eqn:N0; [ apply Nat.eqb_eq in N0 | apply Nat.eqb_neq in N0 ];
    (destruct (n <? 3)%nat eqn:N3; [ apply Nat.ltb_lt in N3 | apply Nat.ltb_ge in N3 ]);
    (destruct (w <? 100)%nat eqn:W1; [ apply Nat.ltb_lt in W1 | apply Nat.ltb_ge in W1 ]);
    (destruct (w <? 500)%nat eqn:W5; [ apply Nat.ltb_lt in W5 | apply Nat.ltb_ge in W5 ]);
    (destruct (title structure) as [[|c t]|];
     [ | destruct (String.length (String c t) <? 5)%nat eqn:T5;
         [ apply Nat.ltb_lt in T5 | apply Nat.ltb_ge in T5 ] | ]);
    cbn [has_title JS.truthy_str JS.is_empty negb];
    match goal with
    | |- context [JS.geb ?x (8 # 10)] =>
        let v := eval vm_compute in (JS.geb x (8 # 10)) in
        change (JS.geb x (8 # 10)) with v
    end; cbv iota;
    (split;
     [ intro E;
       try (split; [ eexists; split; [ reflexivity | exact T5 ] | lia ]);
       try (exfalso; revert E;
            repeat match goal with
                   | |- context [JS.geb ?x ?y] =>
                       let v := eval vm_compute in (JS.geb x y) in
                       change (JS.geb x y) with v
                   end; cbv iota; discriminate)
     | intros ((t' & Et & Ht) & H1 & H2 & H3); try reflexivity; exfalso;
       try discriminate Et; try (injection Et as <-); simpl in *; lia ]).
  - destruct (n =? 0)%nat eqn:N0; [ apply Nat.eqb_eq in N0 | apply Nat.eqb_neq in N0 ];
    (destruct (w <? 100)%nat eqn:W1; [ apply Nat.ltb_lt in W1 | apply Nat.ltb_ge in W1 ]);
    (destruct (title structure) as [[|c t]|]);
    cbn [has_title JS.truthy_str JS.is_empty negb app];
    (split;
     [ intro E; try discriminate E;
       (split; [ eexists; split; [ reflexivity | discriminate ] | lia ])
     | intros ((t' & Et & Ht) & H1 & H2); try reflexivity; exfalso;
       try discriminate Et; try (injection Et as <-); try congruence; lia ]).
Qed.

End DocumentStatistics.

(* ================================================================== *)
(** * The books of the matcher *)
(* ================================================================== *)

Section MatchLedger.

Import Matcher MatcherFacts.

Variables fuzzyMatch cosineSimilarity : string -> string -> Q.
Variable this : SemanticMatcher.

Lemma filter_length_perm {A} (f : A -> bool) (l l' : list A) :
  Permutation l l' -> List.length (filter f l) = List.length (filter f l').
Proof.
  induction 1 as [|x l l' _ IH|x y l|l l' l'' _ IH1 _ IH2]; simpl.
  - reflexivity.
  - destruct (f x); simpl; congruence.
  - destruct (f x), (f y); reflexivity.
  - congruence.
Qed.

Lemma filter_none {A} (f : A -> bool) (l : list A) :
  Forall (fun x => f x = false) l -> filter f l = [].
Proof. induction 1 as [|x l Hx _ IH]; simpl; [ | rewrite Hx ]; auto. Qed.

Lemma accounted_nil (s : State) : accounted this 0 s s [].
Proof.
  unfold accounted, calls_between. simpl.
  destruct (ai_enabled this); repeat split; lia.
Qed.

Lemma accounted_app (k1 k2 : nat) (s s1 s2 : State) (m1 m2 : list Match) :
  accounted this k1 s s1 m1 -> accounted this k2 s1 s2 m2 ->
  accounted this (k1 + k2) s s2 (m1 ++ m2).
Proof.
  unfold accounted, calls_between.
  intros (A1 & A2 & A3 & A4 & A5 & A6) (B1 & B2 & B3 & B4 & B5 & B6).
  rewrite filter_app, !length_app.
  destruct (ai_enabled this);
    (split; [ lia | split; [ intro E; try discriminate E;
                             rewrite (B2 eq_refl), (A2 eq_refl); reflexivity
                           | repeat split; lia ] ]).
Qed.

Lemma accounted_perm (k : nat) (s s' : State) (ms ms' : list Match) :
  Permutation ms ms' -> accounted this k s s' ms -> accounted this k s s' ms'.
Proof.
  intros P (A1 & A2 & A3 & A4 & A5 & A6). unfold accounted.
  rewrite <- (Permutation_length P), <- (filter_length_perm ai_scored P).
  repeat split; tauto.
Qed.

Lemma judge_one_state (judge : Judge) (topic : string) (i : nat) (c : Candidate)
    (s : State) :
  judged_state 1%nat s (snd (judge_one judge topic i c s)).
Proof.
  unfold judged_state, judge_one, bind, next_call, modify, ret, settled_calls. simpl.
  destruct (judge (issued s) topic (e_text (element c))); simpl; repeat split; lia.
Qed.

Lemma mapM_judge_state (judge : Judge) (topic : string) (l : list Candidate) :
  forall i s,
    List.length (fst (mapM (judge_one judge topic) i l s)) = List.length l
    /\ judged_state (List.length l) s (snd (mapM (judge_one judge topic) i l s)).
Proof.
  induction l as [|c l IH]; intros i s.
  - simpl. unfold judged_state, settled_calls. repeat split; lia.
  - rewrite mapM_cons. cbn [fst snd List.length].
    destruct (IH (S i) (snd (judge_one judge topic i c s))) as (L & I1 & I2 & I3 & I4).
    destruct (judge_one_state judge topic i c s) as (J1 & J2 & J3 & J4).
    unfold judged_state. repeat split; lia.
Qed.

Lemma sorted_candidates_unjudged (topic : string) (searchIndex : list Element) :
  Forall (fun c => aiScore c = 0)
         (sorted_candidates fuzzyMatch cosineSimilarity this topic searchIndex).
Proof.
  unfold sorted_candidates. apply ArrayFacts.sort_Forall.
  rewrite collect_filter. simpl.
  apply Forall_forall. intros c Hc.
  apply in_map_iff in Hc. destruct Hc as [e [<- _]]. reflexivity.
Qed.

(** The candidates after the judge calls: at most five judged ones, then
    those no call was made for. *)
Lemma judged_candidates_split (topic : string) (searchIndex : list Element) (s : State) :
  exists judged rest,
    fst (judged_candidates fuzzyMatch cosineSimilarity this topic searchIndex s)
    = judged ++ rest
    /\ (List.length judged <= 5)%nat
    /\ (ai_enabled this = false -> judged = [])
    /\ Forall (fun c => aiScore c = 0) rest
    /\ judged_state (List.length judged) s
         (snd (judged_candidates fuzzyMatch cosineSimilarity this topic searchIndex s)).
Proof.
  pose proof (sorted_candidates_unjudged topic searchIndex) as Z.
  assert (Idle : forall (P : Prop) cs,
             Forall (fun c => aiScore c = 0) cs ->
             exists judged rest,
               cs = judged ++ rest
               /\ (List.length judged <= 5)%nat
               /\ (P -> judged = [])
               /\ Forall (fun c => aiScore c = 0) rest
               /\ judged_state (List.length judged) s s).
  { intros P cs Hcs. exists [], cs. unfold judged_state, settled_calls. simpl.
    repeat split; auto; lia. }
  unfold judged_candidates, ai_enabled.
  destruct (ollamaHandler this) as [judge|];
    [ | unfold ret; cbn [fst snd]; now apply Idle ].
  destruct (aiEnhancedMode (config this));
    [ | unfold ret; cbn [fst snd andb]; now apply Idle ].
  destruct (0 <? _)%nat; [ | unfold ret; cbn [fst snd andb]; now apply Idle ].
  cbn [andb]. unfold bind, ret.
  set (top := JS.slice _ 0 5).
  destruct (mapM_judge_state judge topic top 0 s) as (L & I).
  destruct (mapM (judge_one judge topic) 0 top s) as [judged s'] eqn:E.
  cbn [fst snd] in *.
  exists judged, (skipn (List.length top)
                    (sorted_candidates fuzzyMatch cosineSimilarity this topic searchIndex)).
  split; [ reflexivity | ].
  assert (T : (List.length top <= 5)%nat).
  { subst top. change 5 with (inject_Z (Z.of_nat 5)). rewrite ArrayFacts.slice_0.
    rewrite length_firstn. lia. }
  split; [ lia | ]. split; [ discriminate | ].
  split; [ now apply skipn_Forall | ].
  rewrite L. exact I.
Qed.

Lemma unjudged_not_scored (filename topic : string) (topicIndex : Z) (c : Candidate) :
  aiScore c = 0 -> ai_scored (Spec.match_of this filename topic topicIndex c) = false.
Proof. intro E. unfold ai_scored, Spec.match_of, make_match. simpl. now rewrite E. Qed.

Lemma findTopicMatches_accounted (topic : string) (searchIndex : list Element)
    (filename : string) (topicIndex : Z) (s : State) :
  let r := _findTopicMatches fuzzyMatch cosineSimilarity this topic searchIndex
             filename topicIndex s in
  accounted this 1 s (snd r) (fst r).
Proof.
  cbv zeta. rewrite findTopicMatches_eq.
  destruct (judged_candidates_split topic searchIndex s)
    as (judged & rest & E & L & Off & Z & I).
  rewrite E.
  unfold _findTopicMatches, bind, modify, ret.
  destruct (judged_candidates _ _ _ _ _ _) as [cs s1]. cbn [fst snd] in *. subst cs.
  rewrite emit_filter. cbn [app snd on_stats stats issued add_matches].
  set (ms := map _ (filter _ (judged ++ rest))).
  unfold accounted, calls_between, settled_calls in *.
  cbn [stats issued totalMatches traditionalMatches aiEnhancedMatches failedAIMatches].
  unfold judged_state, settled_calls in *.
  destruct I as (I1 & I2 & I3 & I4).
  assert (S : (List.length (filter ai_scored ms) <= List.length judged)%nat).
  { subst ms. rewrite filter_app, map_app, filter_app, length_app.
    rewrite (@filter_none _ ai_scored (map _ (filter _ rest))).
    - simpl. rewrite Nat.add_0_r.
      eapply Nat.le_trans; [ apply filter_length_le | ].
      rewrite length_map. apply filter_length_le.
    - apply Forall_forall. intros m Hm.
      apply in_map_iff in Hm. destruct Hm as [c [<- Hc]].
      apply filter_In in Hc. destruct Hc as [Hc _].
      apply unjudged_not_scored.
      rewrite Forall_forall in Z. now apply Z. }
  unfold on_stats, add_matches.
  cbn [stats issued totalMatches traditionalMatches aiEnhancedMatches failedAIMatches].
  split; [ lia | ].
  split; [ intro D; rewrite (Off D) in I1; simpl in I1; lia | ].
  split; [ lia | ].
  split; [ destruct (ai_enabled this); simpl; lia | ].
  split; lia.
Qed.

Lemma run_batch_accounted (topics : list string) (searchIndex : list Element)
    (filename : string) (batch : list string) (s : State) :
  let r := run_batch fuzzyMatch cosineSimilarity this topics searchIndex
             filename batch s in
  accounted this (List.length batch) s (snd r) (fst r).
Proof.
  cbv zeta. unfold run_batch, bind, ret.
  destruct (mapM _ _ _ _) as [rs s1] eqn:E. cbn [fst snd].
  assert (Hrs : (rs, s1) = mapM (fun (_ : nat) (topic : string) =>
                   _findTopicMatches fuzzyMatch cosineSimilarity this topic
                     searchIndex filename (JS.indexOf topics topic)) 0 batch s)
    by now rewrite E.
  clear E. revert Hrs. generalize 0%nat. revert s rs s1.
  induction batch as [|topic batch IH]; intros s rs s1 i Hrs.
  - injection Hrs as -> ->. apply accounted_nil.
  - rewrite mapM_cons in Hrs. injection Hrs as -> ->.
    cbn [List.concat List.length].
    change (S (List.length batch)) with (1 + List.length batch)%nat.
    eapply accounted_app.
    + apply (findTopicMatches_accounted topic searchIndex filename
               (JS.indexOf topics topic) s).
    + eapply IH. symmetry. apply surjective_pairing.
Qed.

Lemma run_batches_accounted (topics : list string) (searchIndex : list Element)
    (filename : string) (topicBatches : list (list string)) :
  forall acc s,
    let r := run_batches fuzzyMatch cosineSimilarity this topics searchIndex
               filename topicBatches acc s in
    exists found,
      fst r = acc ++ found
      /\ accounted this (List.length (List.concat topicBatches)) s (snd r) found.
Proof.
  induction topicBatches as [|batch rest IH]; intros acc s; cbv zeta.
  - exists []. simpl. rewrite app_nil_r. split; [ reflexivity | apply accounted_nil ].
  - simpl. unfold bind.
    pose proof (run_batch_accounted topics searchIndex filename batch s) as B.
    cbv zeta in B.
    destruct (run_batch _ _ _ _ _ _ _ _) as [found s1]. cbn [fst snd] in B.
    destruct (IH (acc ++ found) s1) as (more & E & A).
    exists (found ++ more).
    split; [ now rewrite E, app_assoc | ].
    rewrite length_app. eapply accounted_app; eauto.
Qed.

(** The books of [findBestMatches]: those of a run over the topics of all
    batches. *)
Lemma findBestMatches_accounted (fuel : nat) (topics : list string)
    (ds : DocumentStructure) (filename : string) (s s' : State) (ms : list Match) :
  findBestMatches fuzzyMatch cosineSimilarity this fuel topics ds filename s
    = Some (ms, s') ->
  exists topicBatches,
    _createBatches fuel topics (maxConcurrentAIRequests (config this)) = Some topicBatches
    /\ accounted this (List.length (List.concat topicBatches)) s s' ms.
Proof.
  unfold findBestMatches.
  destruct (_createBatches _ _ _) as [bs|]; [ | discriminate ].
  destruct (run_batches_accounted topics (_createSearchIndex ds) filename bs [] s)
    as (found & E & A).
  destruct (run_batches _ _ _ _ _ _ _ _ _) as [matches s1]. cbn [fst snd] in *.
  intro H. injection H as <- <-. exists bs. split; [ reflexivity | ].
  simpl in E. subst matches.
  eapply accounted_perm; [ apply Permutation_sym, ArrayFacts.sort_perm | exact A ].
Qed.

End MatchLedger.

(* ================================================================== *)
(** * Batches of any width *)
(* ================================================================== *)

Section BatchPartition.

Import Matcher.

Variable A : Type.
Variable items : list A.
Variable batchSize : Q.

Lemma to_integer_floor (q : Q) : 0 <= q -> JS.to_integer q = Qfloor q.
Proof.
  destruct q as [n d]. unfold Qle, JS.to_integer, Qfloor. simpl.
  intro H. apply Z.quot_div_nonneg; lia.
Qed.

Lemma floor_nonneg (q : Q) : 0 <= q -> (0 <= Qfloor q)%Z.
Proof. intro H. change 0%Z with (Qfloor 0). now apply Qfloor_resp_le. Qed.

Lemma slice_floor (s e : Q) :
  0 <= s -> s <= e ->
  JS.slice items s e
  = firstn (Z.to_nat (Z.min (Qfloor e) (Z.of_nat (List.length items)))
            - Z.to_nat (Z.min (Qfloor s) (Z.of_nat (List.length items))))
           (skipn (Z.to_nat (Z.min (Qfloor s) (Z.of_nat (List.length items)))) items).
Proof.
  intros Hs Hse. unfold JS.slice, JS.rel_index.
  rewrite !to_integer_floor by lra.
  pose proof (@floor_nonneg s Hs). pose proof (Qfloor_resp_le _ _ Hse).
  destruct (Z.ltb_spec (Qfloor s) 0); [ lia | ].
  destruct (Z.ltb_spec (Qfloor e) 0); [ lia | ].
  f_equal. lia.
Qed.

Lemma batches_from_partition :
  0 < batchSize ->
  forall fuel i bs,
    0 <= i ->
    batches_from fuel items batchSize i = Some bs ->
    List.concat bs = skipn (Z.to_nat (Qfloor i)) items.
Proof.
  intro Hb. induction fuel as [|fuel IH]; intros i bs Hi; simpl.
  - destruct (JS.ltb i _) eqn:L; [ discriminate | ].
    intro E. injection E as <-. simpl. symmetry. apply skipn_all2.
    assert (G : inject_Z (Z.of_nat (List.length items)) <= i).
    { apply Qnot_lt_le. intro C. apply JSFacts.ltb_lt in C. congruence. }
    apply Qfloor_resp_le in G. rewrite Qfloor_Z in G. lia.
  - destruct (JS.ltb i _) eqn:L.
    + destruct (batches_from fuel items batchSize (i + batchSize)) as [rest|] eqn:E;
        [ | discriminate ].
      simpl. intro H. injection H as <-. simpl.
      assert (Hi' : 0 <= i + batchSize) by lra.
      rewrite (IH _ _ Hi' E).
      rewrite slice_floor by lra.
      apply JSFacts.ltb_lt in L.
      pose proof (@floor_nonneg i Hi) as F0.
      assert (F1 : (Qfloor i <= Qfloor (i + batchSize))%Z)
        by (apply Qfloor_resp_le; lra).
      assert (F2 : (Qfloor i < Z.of_nat (List.length items))%Z).
      { apply Z.le_lt_trans with (Qfloor i); [ lia | ].
        rewrite Zlt_Qlt. eapply Qle_lt_trans; [ apply Qfloor_le | exact L ]. }
      rewrite (Z.min_l (Qfloor i)) by lia.
      set (k := Z.to_nat (Qfloor i)).
      destruct (Z.le_gt_cases (Qfloor (i + batchSize)) (Z.of_nat (List.length items)))
        as [C | C].
      * rewrite Z.min_l by lia.
        set (f := Z.to_nat (Qfloor (i + batchSize))).
        replace (skipn f items) with (skipn (f - k) (skipn k items)).
        -- apply firstn_skipn.
        -- rewrite skipn_skipn. f_equal. lia.
      * rewrite Z.min_r by lia. rewrite Nat2Z.id.
        rewrite (skipn_all2 items (n := Z.to_nat (Qfloor (i + batchSize)))) by lia.
        rewrite app_nil_r. apply firstn_all2. rewrite length_skipn. lia.
    + intro E. injection E as <-. simpl. symmetry. apply skipn_all2.
      assert (G : inject_Z (Z.of_nat (List.length items)) <= i).
      { apply Qnot_lt_le. intro C. apply JSFacts.ltb_lt in C. congruence. }
      apply Qfloor_resp_le in G. rewrite Qfloor_Z in G. lia.
Qed.

Lemma createBatches_partition (fuel : nat) (bs : list (list A)) :
  _createBatches fuel items batchSize = Some bs -> List.concat bs = items.
Proof.
  unfold _createBatches. intro E.
  destruct (Qlt_le_dec 0 batchSize) as [P | N].
  - rewrite (@batches_from_partition P fuel 0 bs (Qle_refl 0) E). reflexivity.
  - assert (D : items = [] \/ items <> [])
      by (destruct items; [ left | right ]; congruence).
    destruct D as [D | D].
    + rewrite D in *. destruct fuel; simpl in E; injection E as <-; reflexivity.
    + rewrite (@batches_from_diverges _ items batchSize D N fuel 0 (Qle_refl 0)) in E.
      discriminate E.
Qed.

(** X16.  Whatever the batch width, whole or not: when [_createBatches]
    returns, the batches in their order make up the list of items, so no
    item is left out and none is taken twice; and the width was positive
    unless there was no item. *)
Theorem batches_make_up_items (fuel : nat) (bs : list (list A)) :
  _createBatches fuel items batchSize = Some bs ->
  List.concat bs = items /\ (items <> [] -> 0 < batchSize).
Proof.
  intro E. split; [ now apply createBatches_partition with fuel | ].
  intro D. destruct (Qlt_le_dec 0 batchSize) as [P | N]; [ exact P | ].
  unfold _createBatches in E.
  rewrite (@batches_from_diverges _ items batchSize D N fuel 0 (Qle_refl 0)) in E.
  discriminate E.
Qed.

End BatchPartition.

Lemma batches_make_up_items_witness :
  Matcher._createBatches 5 [1; 2; 3]%nat (3 # 2) = Some [[1]; [2; 3]]%nat
  /\ List.concat [[1]; [2; 3]]%nat = [1; 2; 3]%nat.
Proof.
  split; [ reflexivity | ].
  apply (@batches_make_up_items nat [1; 2; 3]%nat (3 # 2) 5%nat [[1]; [2; 3]]%nat).
  reflexivity.
Defined.


(* ================================================================== *)
(** * What a run of the matcher leaves behind *)
(* ================================================================== *)

Section MatchBooks.

Import Matcher MatcherFacts.

Variables fuzzyMatch cosineSimilarity : string -> string -> Q.
Variable this : SemanticMatcher.

Lemma findBestMatches_books (fuel : nat) (topics : list string)
    (ds : DocumentStructure) (filename : string) (s s' : State) (ms : list Match) :
  findBestMatches fuzzyMatch cosineSimilarity this fuel topics ds filename s
    = Some (ms, s') ->
  accounted this (List.length topics) s s' ms.
Proof.
  intro H.
  destruct (@findBestMatches_accounted fuzzyMatch cosineSimilarity this fuel topics
              ds filename s s' ms H) as (bs & E & A).
  now rewrite (@createBatches_partition _ topics _ fuel bs E) in A.
Qed.

(** X17.  The statistics after [findBestMatches]: [totalMatches] has grown
    by the number of matches returned; [traditionalMatches] has grown by
    the same number when there is no handler or the AI mode is off, and
    not at all otherwise; [aiEnhancedMatches] and [failedAIMatches]
    together have grown by the number of judge calls made, whether their
    candidates became matches or not. *)
Theorem stats_after_findBestMatches (fuel : nat) (topics : list string)
    (ds : DocumentStructure) (filename : string) (s s' : State) (ms : list Match) :
  findBestMatches fuzzyMatch cosineSimilarity this fuel topics ds filename s
    = Some (ms, s') ->
  totalMatches (stats s') = (totalMatches (stats s) + List.length ms)%nat
  /\ traditionalMatches (stats s')
     = (traditionalMatches (stats s)
        + if ai_enabled this then 0 else List.length ms)%nat
  /\ (aiEnhancedMatches (stats s') + failedAIMatches (stats s')
      = aiEnhancedMatches (stats s) + failedAIMatches (stats s)
        + calls_between s s')%nat.
Proof.
  intro H. destruct (@findBestMatches_books _ _ _ _ _ _ _ H) as (_ & _ & A3 & A4 & A5 & _).
  split; [ exact A3 | split; [ exact A4 | exact A5 ] ].
Qed.

Lemma not_scored_zero (m : Match) : ai_scored m = false -> ai_score m == 0.
Proof.
  unfold ai_scored. intro H. apply negb_false_iff in H. now apply Qeq_bool_iff.
Qed.

(** X18.  [findBestMatches] calls the judge at most five times for each
    topic, and not at all without a handler or with the AI mode off; the
    matches whose [ai_score] is not 0 are no more than the calls made, so
    there are none of them without a call. *)
Theorem judge_calls_bounded (fuel : nat) (topics : list string)
    (ds : DocumentStructure) (filename : string) (s s' : State) (ms : list Match) :
  findBestMatches fuzzyMatch cosineSimilarity this fuel topics ds filename s
    = Some (ms, s') ->
  (calls_between s s' <= 5 * List.length topics)%nat
  /\ (List.length (filter ai_scored ms) <= calls_between s s')%nat
  /\ (ai_enabled this = false ->
      calls_between s s' = 0%nat /\ Forall (fun m => ai_score m == 0) ms).
Proof.
  intro H. destruct (@findBestMatches_books _ _ _ _ _ _ _ H) as (A1 & A2 & _ & _ & _ & A6).
  unfold calls_between in *.
  split; [ lia | split; [ exact A6 | ] ].
  intro Off. rewrite (A2 Off) in *. rewrite Nat.sub_diag in *.
  split; [ reflexivity | ].
  apply Forall_forall. intros m Hm. apply not_scored_zero.
  destruct (ai_scored m) eqn:E; [ | reflexivity ].
  assert (In m (filter ai_scored ms)) as I by (apply filter_In; now split).
  destruct (filter ai_scored ms); [ destruct I | simpl in A6; lia ].
Qed.

Lemma truncateText_bound (text : string) (n : nat) :
  (String.length (_truncateText text n) <= Nat.max n 3)%nat.
Proof.
  unfold _truncateText.
  destruct (JS.is_empty text || (String.length text <=? n)%nat) eqn:E.
  - apply orb_true_iff in E. destruct E as [E | E].
    + apply StringFacts.is_empty_length in E. lia.
    + apply Nat.leb_le in E. lia.
  - rewrite StringFacts.append_length, StringFacts.prefix_length. simpl. lia.
Qed.

(** X19.  Every match [findBestMatches] returns cites an entry of the
    search index of the document: it carries the file name given, and the
    page, type, importance and box of the entry; its [section_title] is
    the text of the entry cut to 100 characters, and the text itself when
    that has no more than 100. *)
Theorem matches_cite_the_index (fuel : nat) (topics : list string)
    (ds : DocumentStructure) (filename : string) (s s' : State) (ms : list Match) :
  findBestMatches fuzzyMatch cosineSimilarity this fuel topics ds filename s
    = Some (ms, s') ->
  Forall (fun m =>
            exists e, In e (_createSearchIndex ds)
                      /\ cites filename e m
                      /\ (String.length (section_title m) <= 100)%nat
                      /\ ((String.length (e_text e) <= 100)%nat ->
                          section_title m = e_text e)) ms.
Proof.
  intro H. apply findBestMatches_emitted in H.
  eapply Forall_impl; [ | exact H ].
  intros m (t & Ht & c & (Hin & _) & _ & ->).
  exists (element c). split; [ exact Hin | ].
  split; [ repeat split | ]. simpl.
  split; [ apply (truncateText_bound (e_text (element c)) 100) | ].
  intro L. unfold _truncateText. apply Nat.leb_le in L. rewrite L.
  now rewrite orb_true_r.
Qed.

End MatchBooks.

(* ================================================================== *)
(** * Short texts *)
(* ================================================================== *)

Section ShortTexts.

Import Matcher MatcherFacts.

Variables fuzzyMatch cosineSimilarity : string -> string -> Q.
Variable this : SemanticMatcher.

Lemma traditional_positive_text (topic text : string) :
  0 < _calculateTraditionalScore fuzzyMatch cosineSimilarity this topic text ->
  (3 <= String.length text)%nat.
Proof.
  unfold _calculateTraditionalScore.
  destruct (JS.is_empty text || (String.length text <? 3)%nat) eqn:E.
  - intro H. exfalso. revert H. apply Qlt_irrefl.
  - intros _. apply orb_false_iff in E. destruct E as [_ E].
    now apply Nat.ltb_ge in E.
Qed.

Lemma candidate_text (searchIndex : list Element) (topic : string) (c : Candidate) :
  Spec.candidate_of fuzzyMatch cosineSimilarity this searchIndex topic c ->
  (3 <= String.length (e_text (element c)))%nat.
Proof.
  intros (_ & E & H & _). rewrite E in H.
  exact (traditional_positive_text _ _ H).
Qed.

Lemma truncateText_long (text : string) :
  (3 <= String.length text)%nat ->
  (3 <= String.length (_truncateText text 100))%nat.
Proof.
  intro H. unfold _truncateText.
  destruct (JS.is_empty text || (String.length text <=? 100)%nat); [ exact H | ].
  rewrite StringFacts.append_length. simpl. lia.
Qed.

Lemma truncateText_short (text : string) :
  (String.length text < 3)%nat -> _truncateText text 100 = text.
Proof.
  intro H. unfold _truncateText.
  assert (L : (String.length text <=? 100)%nat = true) by (apply Nat.leb_le; lia).
  rewrite L. now rewrite orb_true_r.
Qed.

(** X3.  A text of fewer than three characters makes no candidate and no
    match.  Whatever the topic, every candidate the first loop of
    [_findTopicMatches] collects from the search index has a text of at
    least three characters, and so has every candidate the last loop
    reads, after the sort and the judge calls.  Every match
    [findBestMatches] returns cites an entry of the index whose text has
    at least three characters; its [section_title] has at least three, and
    it cites no entry, of this index or another, with a shorter text. *)
Theorem short_texts_never_match (fuel : nat) (topics : list string)
    (ds : DocumentStructure) (filename : string) (s s' : State) (ms : list Match) :
  findBestMatches fuzzyMatch cosineSimilarity this fuel topics ds filename s
    = Some (ms, s') ->
  (forall topic c,
      In c (fold_left (collect_step fuzzyMatch cosineSimilarity this topic)
                      (_createSearchIndex ds) []) ->
      (3 <= String.length (e_text (element c)))%nat)
  /\ (forall topic s0 c,
         In c (fst (judged_candidates fuzzyMatch cosineSimilarity this topic
                      (_createSearchIndex ds) s0)) ->
         (3 <= String.length (e_text (element c)))%nat)
  /\ Forall (fun m =>
               (exists e, In e (_createSearchIndex ds)
                          /\ (3 <= String.length (e_text e))%nat
                          /\ cites filename e m)
               /\ (3 <= String.length (section_title m))%nat
               /\ forall e, (String.length (e_text e) < 3)%nat -> ~ cites filename e m)
            ms.
Proof.
  intro H. split; [ | split ].
  - intros topic c Hc. rewrite collect_filter in Hc. simpl in Hc.
    apply in_map_iff in Hc. destruct Hc as (e & <- & He).
    apply filter_In in He. destruct He as [_ Hp].
    unfold Spec.scores_positive in Hp. apply JSFacts.gtb_gt in Hp.
    simpl. exact (traditional_positive_text _ _ Hp).
  - intros topic s0 c Hc.
    pose proof (judged_candidates_of fuzzyMatch cosineSimilarity this
                  (_createSearchIndex ds) topic s0) as F.
    rewrite Forall_forall in F. exact (@candidate_text _ _ _ (F c Hc)).
  - apply findBestMatches_emitted in H.
    eapply Forall_impl; [ | exact H ].
    intros m (t & Ht & c & Hcand & _ & ->).
    pose proof (@candidate_text _ _ _ Hcand) as L.
    pose proof (@truncateText_long _ L) as T.
    split; [ | split ].
    + exists (element c). destruct Hcand as (Hin & _).
      split; [ exact Hin | split; [ exact L | repeat split ] ].
    + exact T.
    + intros e Le (_ & E & _). simpl in E.
      rewrite E, (@truncateText_short _ Le) in T. lia.
Qed.

End ShortTexts.

(** [short_texts_never_match] at a sample input: the header of two
    characters is in the index, and the one match cites the text. *)
Lemma short_texts_never_match_witness :
  exists ms s',
    Matcher.findBestMatches (Samples.always (1 # 2)) (Samples.always (1 # 2))
      Samples.plain 5 ["Form fields"%string] Samples.faq "faq.pdf"%string
      Matcher.initial = Some (ms, s')
    /\ map e_text (Matcher._createSearchIndex Samples.faq)
       = ["Q1"%string; "Which fields can a fillable form have?"%string]
    /\ map Matcher.section_title ms = ["Which fields can a fillable form have?"%string]
    /\ Forall (fun m =>
                 (exists e, In e (Matcher._createSearchIndex Samples.faq)
                            /\ (3 <= String.length (e_text e))%nat
                            /\ cites "faq.pdf"%string e m)
                 /\ (3 <= String.length (Matcher.section_title m))%nat
                 /\ forall e, (String.length (e_text e) < 3)%nat
                              -> ~ cites "faq.pdf"%string e m)
              ms.
Proof.
  eexists. eexists.
  assert (H : Matcher.findBestMatches (Samples.always (1 # 2)) (Samples.always (1 # 2))
                Samples.plain 5 ["Form fields"%string] Samples.faq "faq.pdf"%string
                Matcher.initial
              = Some (_, _)) by (vm_compute; reflexivity).
  split; [ exact H | ].
  split; [ vm_compute; reflexivity | ].
  split; [ vm_compute; reflexivity | ].
  exact (proj2 (proj2 (@short_texts_never_match (Samples.always (1 # 2))
                         (Samples.always (1 # 2)) Samples.plain 5%nat
                         ["Form fields"%string] Samples.faq "faq.pdf"%string
                         Matcher.initial _ _ H))).
Defined.

Lemma stats_after_findBestMatches_witness :
  exists ms s',
    Matcher.findBestMatches (Samples.always (1 # 2)) (Samples.always (1 # 2))
      (Samples.with_ollama Samples.helpful) 5 Samples.five_topics Samples.guide
      "document.pdf"%string Matcher.initial = Some (ms, s')
    /\ Matcher.totalMatches (Matcher.stats s')
       = (Matcher.totalMatches (Matcher.stats Matcher.initial) + List.length ms)%nat.
Proof.
  eexists. eexists. split; [ vm_compute; reflexivity | ].
  eapply (@stats_after_findBestMatches (Samples.always (1 # 2)) (Samples.always (1 # 2))
            (Samples.with_ollama Samples.helpful) 5%nat Samples.five_topics
            Samples.guide "document.pdf"%string Matcher.initial).
  vm_compute. reflexivity.
Defined.

Lemma judge_calls_bounded_witness :
  exists ms s',
    Matcher.findBestMatches (Samples.always (1 # 2)) (Samples.always (1 # 2))
      (Samples.with_ollama Samples.helpful) 5 Samples.five_topics Samples.guide
      "document.pdf"%string Matcher.initial = Some (ms, s')
    /\ (calls_between Matcher.initial s' <= 5 * List.length Samples.five_topics)%nat.
Proof.
  eexists. eexists. split; [ vm_compute; reflexivity | ].
  eapply (@judge_calls_bounded (Samples.always (1 # 2)) (Samples.always (1 # 2))
            (Samples.with_ollama Samples.helpful) 5%nat Samples.five_topics
            Samples.guide "document.pdf"%string Matcher.initial).
  vm_compute. reflexivity.
Defined.

Lemma matches_cite_the_index_witness :
  exists ms s',
    Matcher.findBestMatches Samples.verbosity Samples.verbosity Samples.plain 5
      ["Form Creation"%string; "Compliance"%string] Samples.guide
      "document.pdf"%string Matcher.initial = Some (ms, s')
    /\ Forall (fun m => Matcher.document m = "document.pdf"%string) ms.
Proof.
  pose proof (@matches_cite_the_index Samples.verbosity Samples.verbosity
                Samples.plain 5%nat ["Form Creation"%string; "Compliance"%string]
                Samples.guide "document.pdf"%string Matcher.initial) as T.
  eexists. eexists. split; [ vm_compute; reflexivity | ].
  eapply Forall_impl; [ | eapply T; vm_compute; reflexivity ].
  intros m (e & _ & (H & _) & _). exact H.
Defined.

(* ================================================================== *)
(** * From the pages to the matches *)
(* ================================================================== *)

Section EndToEnd.

Import Matcher MatcherFacts Pipeline.

Variables fuzzyMatch cosineSimilarity : string -> string -> Q.
Variable this : SemanticMatcher.
Variable an : Analyzer.DocumentAnalyzer.

Lemma index_from_pages (pages : list Analyzer.PageResult) :
  Forall (from_pages pages)
         (_createSearchIndex (Analyzer.createDocumentStructure an pages)).
Proof.
  unfold _createSearchIndex. apply Forall_app. split.
  - unfold title_entries.
    destruct (title _) as [t|]; [ | constructor ].
    destruct (JS.truthy_str t); constructor; [ | constructor ].
    split; simpl; auto.
  - apply Forall_forall. intros e He. apply in_flat_map in He.
    destruct He as (sec & Hsec & He).
    pose proof (structure_sections_kept an pages) as K.
    rewrite Forall_forall in K. destruct (K sec Hsec) as (_ & HC & _ & HP).
    apply header_kept_page in HP.
    destruct He as [<- | He].
    + split; simpl; auto.
    + apply in_flat_map in He. destruct He as (c & Hc & He).
      rewrite Forall_forall in HC.
      pose proof (content_kept_type (HC c Hc)) as HT.
      pose proof (content_kept_page (HC c Hc)) as HPc.
      unfold content_entries in He.
      destruct (JS.truthy_str (c_text c) && (10 <? String.length (c_text c))%nat);
        [ | destruct He ].
      destruct He as [<- | []]. split; [ simpl; auto | ]. simpl e_type.
      destruct HT as [<- | [<- | [<- | []]]]; vm_compute; tauto.
Qed.

Lemma emitted_cites (topics : list string) (searchIndex : list Element)
    (filename : string) (m : Match) :
  Spec.emitted fuzzyMatch cosineSimilarity this topics searchIndex filename m ->
  exists e, In e searchIndex /\ cites filename e m.
Proof.
  intros (t & Ht & c & (Hin & _) & _ & ->).
  exists (element c). split; [ exact Hin | repeat split ].
Qed.

Lemma match_documents_books (fuel : nat) (topics : list string)
    (pdfResults : list PdfResult) :
  forall acc s allMatches s',
    match_documents fuzzyMatch cosineSimilarity this fuel topics
      (analyzeDocuments an pdfResults) acc s = Some (allMatches, s') ->
    exists found,
      allMatches = acc ++ found
      /\ accounted this (List.length topics * List.length pdfResults) s s' found
      /\ Forall (points_into pdfResults) found.
Proof.
  induction pdfResults as [|r rest IH]; intros acc s allMatches s'; simpl.
  - intro H. injection H as <- <-. exists [].
    rewrite app_nil_r, Nat.mul_0_r.
    split; [ reflexivity | split; [ apply accounted_nil | constructor ] ].
  - destruct (findBestMatches _ _ _ _ _ _ _ _) as [[ms s1]|] eqn:E; [ | discriminate ].
    intro H. destruct (IH _ _ _ _ H) as (found & -> & A & P).
    exists (ms ++ found).
    split; [ now rewrite app_assoc | ].
    split.
    + replace (List.length topics * S (List.length rest))%nat
        with (List.length topics + List.length topics * List.length rest)%nat by lia.
      eapply accounted_app; [ | exact A ].
      eapply findBestMatches_books; exact E.
    + apply Forall_app. split.
      * pose proof (index_from_pages (pageResults r)) as F.
        rewrite Forall_forall in F.
        apply findBestMatches_emitted in E.
        eapply Forall_impl; [ | exact E ].
        intros m Hm. apply emitted_cites in Hm.
        destruct Hm as (e & He & (C1 & _ & C3 & C4 & _)).
        destruct (F e He) as (F1 & F2).
        exists r. rewrite C3, C4. simpl. auto.
      * eapply Forall_impl; [ | exact P ].
        intros m (r' & Hr & Hm). exists r'. split; [ now right | exact Hm ].
Qed.

(** X20.  From the processed PDFs to the matches: every match that
    [performSemanticMatching] returns for the structures [analyzeDocuments]
    built carries the file name of one of the PDFs, a page number that is 1
    or the number of one of the pages of that PDF, and one of the types
    title, section-header, text, list_item and caption.  Over all documents
    the matcher has counted as many matches as are returned, and has called
    the judge at most five times per topic and document. *)
Theorem pipeline_matches_point_into_documents (fuel : nat) (topics : list string)
    (pdfResults : list PdfResult) (s s' : State) (allMatches : list Match) :
  performSemanticMatching fuzzyMatch cosineSimilarity this fuel topics
    (analyzeDocuments an pdfResults) s = Some (allMatches, s') ->
  Forall (points_into pdfResults) allMatches
  /\ totalMatches (stats s') = (totalMatches (stats s) + List.length allMatches)%nat
  /\ (calls_between s s' <= 5 * (List.length topics * List.length pdfResults))%nat.
Proof.
  unfold performSemanticMatching.
  destruct (match_documents _ _ _ _ _ _ _ _) as [[found s1]|] eqn:E; [ | discriminate ].
  intro H. injection H as <- <-.
  destruct (match_documents_books _ _ _ _ _ E) as (found' & -> & A & P).
  simpl in *.
  apply (accounted_perm (Permutation_sym (ArrayFacts.sort_perm compare_matches found')))
    in A.
  destruct A as (A1 & _ & A3 & _).
  split; [ now apply ArrayFacts.sort_Forall | ].
  unfold calls_between. split; [ exact A3 | lia ].
Qed.

End EndToEnd.

Lemma pipeline_matches_point_into_documents_witness :
  exists ms s',
    Pipeline.performSemanticMatching Samples.verbosity Samples.verbosity Samples.plain 5
      ["Form Creation"%string; "Compliance"%string]
      (Pipeline.analyzeDocuments Samples.default_analyzer
         [ {| Pipeline.pdf_filename := "guide.pdf"%string;
              Pipeline.pageResults := [Samples.guide_page] |};
           {| Pipeline.pdf_filename := "checklist.pdf"%string;
              Pipeline.pageResults := [Samples.checklist_page] |} ])
      Matcher.initial = Some (ms, s')
    /\ Matcher.totalMatches (Matcher.stats s')
       = (Matcher.totalMatches (Matcher.stats Matcher.initial) + List.length ms)%nat.
Proof.
  eexists. eexists. split; [ vm_compute; reflexivity | ].
  eapply (@pipeline_matches_point_into_documents Samples.verbosity Samples.verbosity
            Samples.plain Samples.default_analyzer 5%nat
            ["Form Creation"%string; "Compliance"%string]
            [ {| Pipeline.pdf_filename := "guide.pdf"%string;
                 Pipeline.pageResults := [Samples.guide_page] |};
              {| Pipeline.pdf_filename := "checklist.pdf"%string;
                 Pipeline.pageResults := [Samples.checklist_page] |} ]
            Matcher.initial).
  vm_compute. reflexivity.
Defined.

Section JudgeBudget.

Import Matcher MatcherFacts Pipeline.

Variables fuzzyMatch cosineSimilarity : string -> string -> Q.
Variable this : SemanticMatcher.

Lemma match_documents_returns (w fuel : nat) (topics : list string)
    (analysisResults : list Analysis) :
  (0 < w)%nat ->
  maxConcurrentAIRequests (config this) == inject_Z (Z.of_nat w) ->
  (List.length topics <= fuel)%nat ->
  forall acc s,
    exists allMatches s',
      match_documents fuzzyMatch cosineSimilarity this fuel topics analysisResults acc s
      = Some (allMatches, s').
Proof.
  intros Hw Hsize Hfuel.
  induction analysisResults as [|a rest IH]; intros acc s; simpl.
  - now exists acc, s.
  - destruct (@BatchFacts.createBatches_whole _ topics w
                (maxConcurrentAIRequests (config this)) Hw Hsize fuel Hfuel)
      as (bs & E & _).
    unfold findBestMatches. rewrite E.
    destruct (run_batches _ _ _ _ _ _ _ _ _) as [found s1].
    apply IH.
Qed.

(** X21.  The pipeline run on the ranked topics of the handler: with a
    batch width that is a positive whole number and fuel for seven
    iterations, [performSemanticMatching] returns, and the judge has been
    called at most 35 times for each document. *)
Theorem pipeline_judge_budget (w fuel : nat) (an : Analyzer.DocumentAnalyzer)
    (h : Ollama.OllamaHandler) (run : Ollama.Process)
    (summaries : list Ollama.Summary) (persona task : string)
    (pdfResults : list PdfResult) (s : State) :
  (0 < w)%nat ->
  maxConcurrentAIRequests (config this) == inject_Z (Z.of_nat w) ->
  (7 <= fuel)%nat ->
  exists allMatches s',
    performSemanticMatching fuzzyMatch cosineSimilarity this fuel
      (generateRankedTopics h run summaries persona task)
      (analyzeDocuments an pdfResults) s = Some (allMatches, s')
    /\ (calls_between s s' <= 35 * List.length pdfResults)%nat.
Proof.
  intros Hw Hsize Hfuel.
  destruct (generateRankedTopics_topics h run summaries persona task) as [[_ T] _].
  unfold generateRankedTopics.
  set (topics := Ollama.generateRankedTopics h run summaries persona task) in *.
  assert (Hlen : (List.length topics <= fuel)%nat) by lia.
  destruct (@match_documents_returns w fuel topics (analyzeDocuments an pdfResults)
              Hw Hsize Hlen [] s) as (found & s' & E).
  exists (JS.sort compare_matches found), s'.
  unfold performSemanticMatching. rewrite E. split; [ reflexivity | ].
  destruct (@match_documents_books fuzzyMatch cosineSimilarity this an fuel topics
              pdfResults [] s found s' E) as (found' & _ & (A1 & _) & _).
  unfold calls_between. nia.
Qed.

End JudgeBudget.

Lemma pipeline_judge_budget_witness :
  exists allMatches s',
    Pipeline.performSemanticMatching (Samples.always (1 # 2)) (Samples.always (1 # 2))
      (Samples.with_ollama Samples.helpful) 7
      (Pipeline.generateRankedTopics (Ollama.constructor None) (Samples.silent 0)
         [] "HR professional"%string "Create forms"%string)
      (Pipeline.analyzeDocuments Samples.default_analyzer
         [ {| Pipeline.pdf_filename := "guide.pdf"%string;
              Pipeline.pageResults := [Samples.guide_page] |} ])
      Matcher.initial = Some (allMatches, s')
    /\ (calls_between Matcher.initial s' <= 35 * 1)%nat.
Proof.
  apply (@pipeline_judge_budget (Samples.always (1 # 2)) (Samples.always (1 # 2))
           (Samples.with_ollama Samples.helpful) 3%nat 7%nat Samples.default_analyzer
           (Ollama.constructor None) (Samples.silent 0) []
           "HR professional"%string "Create forms"%string
           [ {| Pipeline.pdf_filename := "guide.pdf"%string;
                Pipeline.pageResults := [Samples.guide_page] |} ]
           Matcher.initial).
  - lia.
  - reflexivity.
  - lia.
Defined.

Section RefinedAnalysis.

Import Matcher MatcherFacts.

Variables fuzzyMatch cosineSimilarity : string -> string -> Q.
Variable this : SemanticMatcher.

Lemma StronglySorted_map {A B} (f : A -> B) (R : A -> A -> Prop) (R' : B -> B -> Prop)
    (l : list A) :
  (forall x y, R x y -> R' (f x) (f y)) ->
  StronglySorted R l -> StronglySorted R' (map f l).
Proof.
  intros HR. induction 1 as [|x l _ IH HF]; simpl; constructor; [ exact IH | ].
  apply Forall_map. eapply Forall_impl; [ | exact HF ]. intros y. apply HR.
Qed.

Lemma flagged_scored (ms : list Match) :
  (List.length (filter ai_enhanced (generateRefinedAnalysis ms))
   <= List.length (filter ai_scored ms))%nat.
Proof.
  unfold generateRefinedAnalysis.
  induction ms as [|m ms IH]; simpl; [ lia | ].
  unfold ai_scored at 1.
  destruct (JS.gtb (ai_score m) 0) eqn:G.
  - apply JSFacts.gtb_gt in G.
    destruct (Qeq_bool (ai_score m) 0) eqn:E; simpl; [ | lia ].
    apply Qeq_bool_iff in E. rewrite E in G. discriminate G.
  - destruct (negb (Qeq_bool (ai_score m) 0)); simpl; lia.
Qed.

(** X22.  The refined analysis of the matches [findBestMatches] returned
    has one entry for each match, in the order of the matches: by rank,
    and by falling score within a rank.  The entries it flags as enhanced
    by the AI are no more than the judge calls that were made. *)
Theorem refined_analysis_follows_matches (fuel : nat) (topics : list string)
    (ds : DocumentStructure) (filename : string) (s s' : State) (ms : list Match) :
  findBestMatches fuzzyMatch cosineSimilarity this fuel topics ds filename s
    = Some (ms, s') ->
  let refined := generateRefinedAnalysis ms in
  List.length refined = List.length ms
  /\ StronglySorted refined_before refined
  /\ (List.length (filter ai_enhanced refined) <= calls_between s s')%nat.
Proof.
  intro H. cbv zeta.
  split; [ apply length_map | ]. split.
  - unfold findBestMatches in H.
    destruct (_createBatches _ _ _) as [bs|]; [ | discriminate ].
    destruct (run_batches _ _ _ _ _ _ _ _ _) as [found s1].
    injection H as <- <-. unfold generateRefinedAnalysis.
    eapply StronglySorted_map; [ | apply sort_matches_sorted ].
    intros x y Hxy. exact Hxy.
  - destruct (@findBestMatches_books _ _ _ _ _ _ _ _ _ _ H) as (_ & _ & _ & _ & _ & A6).
    eapply Nat.le_trans; [ apply flagged_scored | exact A6 ].
Qed.

End RefinedAnalysis.

Lemma refined_analysis_follows_matches_witness :
  exists ms s',
    Matcher.findBestMatches (Samples.always (1 # 2)) (Samples.always (1 # 2))
      (Samples.with_ollama Samples.helpful) 5 Samples.five_topics Samples.guide
      "document.pdf"%string Matcher.initial = Some (ms, s')
    /\ List.length (Matcher.generateRefinedAnalysis ms) = List.length ms.
Proof.
  eexists. eexists. split; [ vm_compute; reflexivity | ].
  eapply (@refined_analysis_follows_matches (Samples.always (1 # 2))
            (Samples.always (1 # 2)) (Samples.with_ollama Samples.helpful) 5%nat
            Samples.five_topics Samples.guide "document.pdf"%string Matcher.initial).
  vm_compute. reflexivity.
Defined.

(* ================================================================== *)
(** * The reading order *)
(* ================================================================== *)

Section ReadingOrder.

Import Analyzer.

Lemma same_row (p q : Q) : Qabs (p - q) <= 20 -> JS.gtb (Qabs (q - p)) 20 = false.
Proof.
  intro H. destruct (JS.gtb (Qabs (q - p)) 20) eqn:G; [ | reflexivity ].
  apply JSFacts.gtb_gt in G.
  setoid_replace (q - p) with (- (p - q)) in G by ring.
  rewrite Qabs_opp in G. lra.
Qed.

Lemma later_row (p q : Q) : 20 < q - p -> JS.gtb (Qabs (p - q)) 20 = true.
Proof.
  intro H. apply JSFacts.gtb_gt. eapply Qlt_le_trans; [ exact H | ].
  setoid_replace (q - p) with (- (p - q)) by ring.
  rewrite <- Qabs_opp. apply Qle_Qabs.
Qed.

(** X23.  The comparator of the reading-order sort is not an order: three
    detections of which the first lies more than 20 above the third, the
    second within 20 of both, and which stand from right to left, go round
    in a circle: the first before the third, the third before the second,
    the second before the first. *)
Theorem readingOrder_cycle (a b c : Detection) :
  Qabs (snd (center a) - snd (center b)) <= 20 ->
  Qabs (snd (center b) - snd (center c)) <= 20 ->
  20 < snd (center c) - snd (center a) ->
  fst (center c) < fst (center b) ->
  fst (center b) < fst (center a) ->
  readingOrder a c < 0 /\ readingOrder c b < 0 /\ readingOrder b a < 0.
Proof.
  intros Hab Hbc Hac Hcb Hba. unfold readingOrder. cbv zeta.
  rewrite (@later_row _ _ Hac), (@same_row _ _ Hbc), (@same_row _ _ Hab).
  repeat split; lra.
Qed.

End ReadingOrder.

Lemma readingOrder_cycle_witness :
  let at_ (x y : Q) :=
    {| Analyzer.label := Text; Analyzer.extractedText := EmptyString;
       Analyzer.confidence := 1; Analyzer.bbox := None; Analyzer.center := (x, y) |} in
  Analyzer.readingOrder (at_ 300 100) (at_ 100 130) < 0
  /\ Analyzer.readingOrder (at_ 100 130) (at_ 200 115) < 0
  /\ Analyzer.readingOrder (at_ 200 115) (at_ 300 100) < 0.
Proof.
  cbv zeta. apply readingOrder_cycle; simpl; vm_compute; reflexivity || discriminate.
Defined.
